(** * A shallow embedding of the weather aggregation pipeline

    The development follows the Go sources of the repository:
    - [weather/client.go]    : gateway ([getJSON]), geocoder, forecast
      aggregator ([GetWeather]), astronomy ([buildSunBar], [moonPhase]),
      hourly slice ([parseHourly]), WMO tables, [WindCompass];
    - [weather/consensus.go] : [fetchModel], [FetchConsensus];
    - package weather, the presentation files: [Alerts], [BuildOutfit],
      the UV index functions ([UVLevel], [UVAdvice], [UVColorClass],
      [UVBar]), [Quote], [Advice], [QuoteFromIcon], and [ReverseGeocode]
      of [weather/client.go];
    - [cmd/cli/main.go]      : the report cache ([cacheGet], [cacheSet],
      the sweep of [startCacheCleanup]), the terminal helpers
      ([progressBar], [wordWrap], [moonPhaseIcon]), the page helpers
      ([agreeColor], [consBarW]) and the handler of [/].

    Modelling conventions.
    - Go [int] is a 64-bit integer: a [Z] with the wrap-around written out
      ([wrap64]).
    - Go [float64] quantities are modelled by exact rationals ([float64]
      abbreviates [Q]): every value the JSON decoder produces is a finite
      binary fraction.  Rounding error, infinities and NaN of binary64 are
      outside the model; a conversion [int(f)] outside the int64 range
      yields the "integer indefinite" value of amd64.
    - A slice is a [list]; an index expression is [index], which panics
      out of range as the Go runtime does.
    - A Go [error] is modelled by its message ([err.Error()]), [nil] by
      [None].
    - Functions of the Go standard library (package time, fmt, net/url,
      encoding/json) and the network are fields of the class [Runtime]. *)

From Stdlib Require Import ZArith QArith Qround Qminmax Qabs Lia Lqa List Ascii String.
From Stdlib Require Import Sorting.Sorted.
From stdpp Require Import base option list gmap strings pretty sorting.

Local Open Scope string_scope.
Local Open Scope Z_scope.

(** ** Go substrate *)

Module Go.

(** The three ways a Go function of this package ends: it returns a value,
    returns a non-nil [error], or panics at run time. *)
Inductive outcome (A : Type) : Type :=
  | Ret (a : A)
  | Err (e : string)
  | Panic (msg : string).
Arguments Ret {A} a.
Arguments Err {A} e.
Arguments Panic {A} msg.

#[export] Instance outcome_ret : MRet outcome := fun _ a => Ret a.
#[export] Instance outcome_bind : MBind outcome := fun _ _ f m =>
  match m with
  | Ret a => f a
  | Err e => Err e
  | Panic msg => Panic msg
  end.

#[export] Instance outcome_fmap : FMap outcome := fun _ _ f m =>
  match m with
  | Ret a => Ret (f a)
  | Err e => Err e
  | Panic msg => Panic msg
  end.

Definition is_Ret {A} (o : outcome A) : bool :=
  match o with Ret _ => true | _ => false end.

Definition is_Panic {A} (o : outcome A) : bool :=
  match o with Panic _ => true | _ => false end.

(** *** int *)

Definition MinInt64 : Z := - 2 ^ 63.
Definition MaxInt64 : Z := 2 ^ 63 - 1.

Definition wrap64 (z : Z) : Z := (z + 2 ^ 63) mod 2 ^ 64 - 2 ^ 63.

Definition int_add (a b : Z) : Z := wrap64 (a + b).
Definition int_sub (a b : Z) : Z := wrap64 (a - b).
(** [a / b] and [a % b] truncate toward zero; callers divide by non-zero
    constants or by a guarded count. *)
Definition int_div (a b : Z) : Z := wrap64 (Z.quot a b).
Definition int_rem (a b : Z) : Z := Z.rem a b.

(** *** Slices *)

Definition index_msg (i : Z) (n : nat) : string :=
  "index out of range [" ++ pretty i ++ "] with length " ++ pretty n.

(** [s[i]]: the element, or the run-time panic. *)
Definition index {A} (s : list A) (i : Z) : outcome A :=
  if i <? 0 then Panic (index_msg i (length s))
  else match s !! Z.to_nat i with
       | Some a => Ret a
       | None => Panic (index_msg i (length s))
       end.

(** *** float64, idealised *)

Abbreviation float64 := Q (only parsing).

(** [math.MaxFloat64] = (2^53 - 1) * 2^971. *)
Definition MaxFloat64 : Q := inject_Z ((2 ^ 53 - 1) * 2 ^ 971).

(** The values a float64 can hold, as far as the model needs it. *)
Definition finite64 (x : Q) : Prop := (- MaxFloat64 <= x /\ x <= MaxFloat64)%Q.

Definition float_lt (x y : Q) : bool := negb (Qle_bool y x).
Definition float_gt (x y : Q) : bool := float_lt y x.

(** [float64(i)] *)
Definition float_of_int (i : Z) : Q := inject_Z i.

(** Truncation toward zero. *)
Definition Qtrunc (x : Q) : Z := Z.quot (Qnum x) (Zpos (Qden x)).

(** [int(f)]: the fractional part is discarded; out of range the result is
    implementation-dependent, here the amd64 one. *)
Definition int_of_float (x : Q) : Z :=
  let t := Qtrunc x in
  if (MinInt64 <=? t) && (t <=? MaxInt64) then t else MinInt64.

(** [math.Round]: nearest integer, halves away from zero. *)
Definition Round (x : Q) : Q :=
  inject_Z (if Qle_bool 0 x then Qfloor (x + (1 # 2)) else Qceiling (x - (1 # 2))).

(** [math.Mod(x, y)]: the remainder has the sign of [x]. *)
Definition Mod (x y : Q) : Q := (x - y * inject_Z (Qtrunc (x / y)))%Q.

Definition Max (x y : Q) : Q := Qmax x y.
Definition Min (x y : Q) : Q := Qmin x y.

(** *** package time *)

(** A [time.Duration] is an int64 count of nanoseconds. *)
Definition Nanosecond : Z := 1.
Definition Second : Z := 1000000000.
Definition Minute : Z := 60 * Second.
Definition Hour : Z := 60 * Minute.

Definition minDuration : Z := MinInt64.
Definition maxDuration : Z := MaxInt64.

(** [d.Minutes()] and [d.Hours()] as package time computes them. *)
Definition Minutes (d : Z) : Q :=
  (float_of_int (Z.quot d Minute) + float_of_int (Z.rem d Minute) / (60 * inject_Z Second))%Q.
Definition Hours (d : Z) : Q :=
  (float_of_int (Z.quot d Hour) + float_of_int (Z.rem d Hour) / (60 * 60 * inject_Z Second))%Q.

End Go.
Export Go.

(** ** Data model of package weather *)

(** Each Go struct is a record in a module of its own name, so that the
    fields keep their Go names: [dailyRaw.Time d] reads [d.Time]. *)

Module GeoLocation.
Record t : Type := mk {
  Name : string;
  Latitude : float64;
  Longitude : float64;
  Country : string;
  CountryCode : string;
  Timezone : string }.
End GeoLocation.

Module geoResponse.
Record t : Type := mk { Results : list GeoLocation.t }.
Definition zero : t := mk [].
End geoResponse.

Module currentRaw.
Record t : Type := mk {
  Time : string;
  Temperature : float64;
  FeelsLike : float64;
  Humidity : Z;
  WeatherCode : Z;
  CloudCover : Z;
  WindSpeed : float64;
  WindDir : Z;
  Pressure : float64;
  DewPoint : float64;
  UVIndex : float64 }.
Definition zero : t := mk "" 0%Q 0%Q 0 0 0 0%Q 0 0%Q 0%Q 0%Q.
End currentRaw.

Module dailyRaw.
Record t : Type := mk {
  Time : list string;
  WeatherCode : list Z;
  TempMax : list float64;
  TempMin : list float64;
  WindMax : list float64;
  PrecipProbMax : list Z;
  Sunrise : list string;
  Sunset : list string }.
Definition zero : t := mk [] [] [] [] [] [] [] [].
End dailyRaw.

Module hourlyRaw.
Record t : Type := mk {
  Time : list string;
  Temperature : list float64;
  PrecipProb : list Z;
  WeatherCode : list Z;
  WindSpeed : list float64 }.
Definition zero : t := mk [] [] [] [] [].
End hourlyRaw.

Module forecastRaw.
Record t : Type := mk {
  Current : currentRaw.t;
  Daily : dailyRaw.t;
  Hourly : hourlyRaw.t }.
Definition zero : t := mk currentRaw.zero dailyRaw.zero hourlyRaw.zero.
End forecastRaw.

Module CurrentDisplay.
Record t : Type := mk {
  Time : string;
  Temp : float64;
  FeelsLike : float64;
  Humidity : Z;
  Description : string;
  Icon : string;
  CloudCover : Z;
  WindSpeed : float64;
  WindDir : Z;
  Pressure : float64;
  DewPoint : float64;
  UVIndex : float64 }.
End CurrentDisplay.

Module ForecastDay.
Record t : Type := mk {
  Date : string;
  Description : string;
  Icon : string;
  TempMax : float64;
  TempMin : float64;
  WindMax : float64;
  PrecipProb : Z }.
End ForecastDay.

Module HourlyPoint.
Record t : Type := mk {
  Time : string;
  Temp : float64;
  PrecipProb : Z;
  Description : string;
  Icon : string;
  WindSpeed : float64 }.
End HourlyPoint.

Module SunBar.
Record t : Type := mk {
  SunriseTime : string;
  SunsetTime : string;
  CurrentTime : string;
  SunPositionPct : float64;
  IsDay : bool;
  DaylightHours : string;
  MoonPhase : float64;
  MoonPhaseName : string }.
Definition zero : t := mk "" "" "" 0%Q false "" 0%Q "".
End SunBar.

Module ModelReading.
Record t : Type := mk {
  Model : string;
  Temp : float64;
  Humidity : Z;
  WindSpeed : float64;
  Pressure : float64;
  WeatherCode : Z;
  Available : bool;
  Err : string }.
Definition zero : t := mk "" 0%Q 0 0%Q 0%Q 0 false "".
End ModelReading.

Module ConsensusInfo.
Record t : Type := mk {
  Models : list ModelReading.t;
  AvailCount : Z;
  AvgTemp : float64;
  AvgHumidity : Z;
  AvgWind : float64;
  AvgPressure : float64;
  MinTemp : float64;
  MaxTemp : float64;
  Spread : float64;
  Agreement : string;
  AgreePct : Z }.
End ConsensusInfo.

(** The pointer fields of [modelCurrentRaw] are options: a JSON null
    decodes to nil. *)
Module modelCurrentRaw.
Record t : Type := mk {
  Temp : option float64;
  Humidity : option Z;
  Wind : option float64;
  Pressure : option float64;
  WMOCode : option Z }.
Definition zero : t := mk None None None None None.
End modelCurrentRaw.

Module modelResponse.
Record t : Type := mk { Current : modelCurrentRaw.t }.
Definition zero : t := mk modelCurrentRaw.zero.
End modelResponse.

(** [WeatherInfo.Consensus] is a pointer, nil in the zero value.  The
    [Outfit] field, filled by [BuildOutfit] from [Current], is a
    presentation enrichment and is left out. *)
Module WeatherInfo.
Record t : Type := mk {
  CityName : string;
  Country : string;
  CountryCode : string;
  TempUnit : string;
  WindUnit : string;
  Current : CurrentDisplay.t;
  Forecast : list ForecastDay.t;
  Hourly : list HourlyPoint.t;
  Sun : SunBar.t;
  Consensus : option ConsensusInfo.t }.
End WeatherInfo.

(** ** The standard library and the network *)

(** What one [http.Client.Get] yields: an error of the transport
    (connection refused, timeout), or a response with its status code and
    body. *)
Inductive http_result : Type :=
  | NetError (msg : string)
  | Response (StatusCode : Z) (Body : string).

(** A [Client] is the behaviour of its transport: [HTTP c url k] is what
    the [k]-th [Get] of one [getJSON] call on [url] yields. *)
Record Client : Type := { HTTP : string -> nat -> http_result }.

(** [json.NewDecoder(body).Decode(&v)] for a target type: the error
    message, or the decoded value. *)
Class Unmarshal (T : Type) : Type := Decode : string -> string + T.

Class Runtime : Type := {
  (** package time *)
  Location : Type;
  UTC : Location;
  LoadLocation : string -> option Location;
  (** [time.ParseInLocation(layout, value, loc)]: Unix seconds, or an error *)
  ParseInLocation : string -> string -> Location -> option Z;
  (** [t.Format(layout)] of an instant carried in a location *)
  Format : Z -> Location -> string -> string;
  (** package fmt and net/url *)
  Sprintf_4f : float64 -> string;
  Sprintf_q : string -> string;
  QueryEscape : string -> string;
  (** encoding/json at the three target types *)
  geo_json :: Unmarshal geoResponse.t;
  forecast_json :: Unmarshal forecastRaw.t;
  model_json :: Unmarshal modelResponse.t;
  (** the package-level [consensusClient] (6 s timeout) *)
  consensusClient : Client }.

(** A [time.Time]: the instant in Unix seconds and the location it is
    shown in. *)
Module Time.
Record t `{Runtime} : Type := mk { unix : Z; loc : Location }.
Arguments mk {_} unix loc.
Arguments unix {_} _.
Arguments loc {_} _.
End Time.

(** ** weather/client.go and weather/consensus.go *)

Definition len {A} (s : list A) : Z := Z.of_nat (length s).

Definition geoURL : string := "https://geocoding-api.open-meteo.com/v1/search".
Definition forecastURL : string := "https://api.open-meteo.com/v1/forecast".

Definition StatusOK : Z := 200.

(** What a [getJSON] call does to the outside world, in order. *)
Inductive event : Type :=
  | EvGet (url : string)
  | EvSleep (d : Z).

Definition maxAttempts : nat := 2.

(** The closure of lines 182-192, run on a response that arrived: the
    returned error and the target. *)
Definition getJSON_respond {T} `{Unmarshal T} (v : T) (status : Z) (body : string)
    : option string * T :=
  if negb (status =? StatusOK)
  then (Some ("API error " ++ pretty status ++ ": " ++ String.substring 0 512 body), v)
  else match Decode body with
       | inl err => (Some ("decode failed: " ++ err), v)
       | inr v' => (None, v')
       end.

(** The loop of [getJSON], entered with [remaining] iterations to go at
    loop counter [attempt].  The result is the trace of the call, the
    returned error and the target [v] as decoding leaves it. *)
Fixpoint getJSON_from {T} `{Unmarshal T} (c : Client) (rawURL : string) (v : T)
    (remaining attempt : nat) (lastErr : option string)
    : list event * (option string * T) :=
  match remaining with
  | O => ([], (lastErr, v))
  | S remaining' =>
      let pause := if (0 <? attempt)%nat then [EvSleep (1 * Second)] else [] in
      match HTTP c rawURL attempt with
      | NetError err =>
          let '(tr, r) := getJSON_from c rawURL v remaining' (S attempt)
                            (Some ("request failed: " ++ err)) in
          ((pause ++ EvGet rawURL :: tr)%list, r)
      | Response status body =>
          ((pause ++ [EvGet rawURL])%list, getJSON_respond v status body)
      end
  end.

Definition getJSON {T} `{Unmarshal T} (c : Client) (rawURL : string) (v : T)
    : list event * (option string * T) :=
  getJSON_from c rawURL v maxAttempts 0 None.

(** The number of HTTP requests in a trace. *)
Fixpoint attempts (tr : list event) : nat :=
  match tr with
  | [] => 0
  | EvGet _ :: tr' => S (attempts tr')
  | EvSleep _ :: tr' => attempts tr'
  end.

Definition TempUnitSymbol (units : string) : string :=
  if String.eqb units "imperial" then "°F" else "°C".

Definition WindUnitLabel (units : string) : string :=
  if String.eqb units "imperial" then "mph" else "km/h".

Definition WMODescription (code : Z) : string :=
  if code =? 0 then "Clear sky"
  else if code =? 1 then "Mainly clear"
  else if code =? 2 then "Partly cloudy"
  else if code =? 3 then "Overcast"
  else if (code =? 45) || (code =? 48) then "Fog"
  else if (51 <=? code) && (code <=? 53) then "Light drizzle"
  else if code =? 55 then "Dense drizzle"
  else if code =? 61 then "Slight rain"
  else if code =? 63 then "Moderate rain"
  else if code =? 65 then "Heavy rain"
  else if code =? 71 then "Slight snow"
  else if code =? 73 then "Moderate snow"
  else if code =? 75 then "Heavy snow"
  else if code =? 77 then "Snow grains"
  else if (80 <=? code) && (code <=? 82) then "Rain showers"
  else if (85 <=? code) && (code <=? 86) then "Snow showers"
  else if code =? 95 then "Thunderstorm"
  else if (code =? 96) || (code =? 99) then "Thunderstorm with hail"
  else "Unknown".

Definition WMOIconClass (code : Z) : string :=
  if code =? 0 then "wi-day-sunny"
  else if code =? 1 then "wi-day-sunny-overcast"
  else if code =? 2 then "wi-day-cloudy"
  else if code =? 3 then "wi-cloudy"
  else if (code =? 45) || (code =? 48) then "wi-fog"
  else if (51 <=? code) && (code <=? 53) then "wi-sprinkle"
  else if code =? 55 then "wi-rain-mix"
  else if code =? 61 then "wi-rain-mix"
  else if code =? 63 then "wi-rain"
  else if code =? 65 then "wi-rain-wind"
  else if code =? 71 then "wi-snow"
  else if code =? 73 then "wi-snow"
  else if code =? 75 then "wi-snow-wind"
  else if code =? 77 then "wi-snowflake-cold"
  else if (80 <=? code) && (code <=? 82) then "wi-showers"
  else if (85 <=? code) && (code <=? 86) then "wi-snow"
  else if code =? 95 then "wi-thunderstorm"
  else if (code =? 96) || (code =? 99) then "wi-storm-showers"
  else "wi-na".

Definition dirs : list string := ["N"; "NE"; "E"; "SE"; "S"; "SW"; "W"; "NW"].

(** [idx := int((float64(deg)+22.5)/45.0) % 8; return dirs[idx]] *)
Definition WindCompass_idx (deg : Z) : Z :=
  int_rem (int_of_float ((float_of_int deg + (45 # 2)) / 45)) 8.

Definition WindCompass (deg : Z) : outcome string :=
  index dirs (WindCompass_idx deg).

Definition safeInt (s : list Z) (i : Z) : outcome Z :=
  if i <? len s then index s i else Ret 0.

Definition safeFloat (s : list float64) (i : Z) : outcome float64 :=
  if i <? len s then index s i else Ret 0%Q.

(** The daily loop of [GetWeather] (lines 320-337), at loop index [i]
    with [times] the part of [raw.Daily.Time] still to visit. *)
Fixpoint forecastLoop (d : dailyRaw.t) (i : Z) (times : list string)
    (forecast : list ForecastDay.t) : outcome (list ForecastDay.t) :=
  match times with
  | [] => Ret forecast
  | date :: rest =>
      if (len (dailyRaw.WeatherCode d) <=? i) || (len (dailyRaw.TempMax d) <=? i)
      then Ret forecast
      else
        precipProb ← (if i <? len (dailyRaw.PrecipProbMax d)
                      then index (dailyRaw.PrecipProbMax d) i else Ret 0);
        wc ← index (dailyRaw.WeatherCode d) i;
        wc' ← index (dailyRaw.WeatherCode d) i;
        tmax ← index (dailyRaw.TempMax d) i;
        tmin ← index (dailyRaw.TempMin d) i;
        wmax ← index (dailyRaw.WindMax d) i;
        forecastLoop d (i + 1) rest
          (forecast ++ [ForecastDay.mk date (WMODescription wc) (WMOIconClass wc')
                          tmax tmin wmax precipProb])%list
  end.

Definition buildForecast (d : dailyRaw.t) : outcome (list ForecastDay.t) :=
  forecastLoop d 0 (dailyRaw.Time d) [].

(** The number of days the guards of the loop let through. *)
Definition guardedDays (d : dailyRaw.t) : Z :=
  Z.min (len (dailyRaw.Time d))
    (Z.min (len (dailyRaw.WeatherCode d)) (len (dailyRaw.TempMax d))).

Section Pipeline.
Context `{rt : Runtime}.

(** *** time.Time *)

(** The zero [time.Time]: January 1, year 1, 00:00 UTC. *)
Definition zeroTime : Time.t := Time.mk (-62135596800) UTC.

Definition After (t u : Time.t) : bool := Time.unix u <? Time.unix t.
Definition Before (t u : Time.t) : bool := Time.unix t <? Time.unix u.

(** [t.Sub(u)]: the duration in nanoseconds, saturated. *)
Definition Sub (t u : Time.t) : Z :=
  let d := (Time.unix t - Time.unix u) * Second in
  if d <? minDuration then minDuration
  else if maxDuration <? d then maxDuration
  else d.

Definition ParseTime (layout value : string) (tz : Location) : option Time.t :=
  (fun u => Time.mk u tz) <$> ParseInLocation layout value tz.

Definition FormatTime (t : Time.t) (layout : string) : string :=
  Format (Time.unix t) (Time.loc t) layout.

(** [tz, err := time.LoadLocation(timezone); if err != nil { tz = time.UTC }] *)
Definition loadLocationOrUTC (timezone : string) : Location :=
  default UTC (LoadLocation timezone).

Definition layout : string := "2006-01-02T15:04".

(** *** Moon phase *)

Definition synodicMonth : Q := 29530589 # 1000000.

(** [time.Date(2000, 1, 6, 18, 14, 0, 0, time.UTC)] *)
Definition referenceNewMoon : Time.t := Time.mk 947182440 UTC.

Definition moonPhase (t : Time.t) : float64 :=
  let days := (Hours (Sub t referenceNewMoon) / 24)%Q in
  let phase := (Mod days synodicMonth / synodicMonth)%Q in
  if float_lt phase 0 then (phase + 1)%Q else phase.

Definition moonPhaseName (p : float64) : string :=
  if float_lt p (34 # 1000) || negb (float_lt p (966 # 1000)) then "New Moon"
  else if float_lt p (216 # 1000) then "Waxing Crescent"
  else if float_lt p (284 # 1000) then "First Quarter"
  else if float_lt p (466 # 1000) then "Waxing Gibbous"
  else if float_lt p (534 # 1000) then "Full Moon"
  else if float_lt p (716 # 1000) then "Waning Gibbous"
  else if float_lt p (784 # 1000) then "Last Quarter"
  else "Waning Crescent".

(** *** buildSunBar *)

(** [positionPct] of lines 379-384. *)
Definition positionPct (daylightMins : float64) (now sunrise : Time.t) : float64 :=
  if float_gt daylightMins 0 then
    let elapsed := Minutes (Sub now sunrise) in
    let pct := (elapsed / daylightMins * 100)%Q in
    Max 0 (Min 100 pct)
  else 0%Q.

(** The closure [parse] of [buildSunBar]: the zero time on an error. *)
Definition parseOrZero (tz : Location) (s : string) : Time.t :=
  default zeroTime (ParseTime layout s tz).

Definition buildSunBar (currentTimeStr sunriseStr sunsetStr timezone : string) : SunBar.t :=
  let tz := loadLocationOrUTC timezone in
  let sunrise := parseOrZero tz sunriseStr in
  let sunset := parseOrZero tz sunsetStr in
  let now := parseOrZero tz currentTimeStr in
  let daylightMins := Minutes (Sub sunset sunrise) in
  let h := int_div (int_of_float daylightMins) 60 in
  let m := int_rem (int_of_float daylightMins) 60 in
  let isDay := After now sunrise && Before now sunset in
  let mp := moonPhase (Time.mk (Time.unix now) UTC) in
  {| SunBar.SunriseTime := FormatTime sunrise "15:04";
     SunBar.SunsetTime := FormatTime sunset "15:04";
     SunBar.CurrentTime := FormatTime now "15:04";
     SunBar.SunPositionPct := positionPct daylightMins now sunrise;
     SunBar.IsDay := isDay;
     SunBar.DaylightHours := pretty h ++ "h " ++ pretty m ++ "m";
     SunBar.MoonPhase := mp;
     SunBar.MoonPhaseName := moonPhaseName mp |}.

(** *** parseHourly *)

(** The point appended for hourly index [i], parsed as [t]. *)
Definition hourlyPoint (h : hourlyRaw.t) (i : Z) (t : Time.t) : outcome HourlyPoint.t :=
  wc ← safeInt (hourlyRaw.WeatherCode h) i;
  pp ← safeInt (hourlyRaw.PrecipProb h) i;
  ws ← safeFloat (hourlyRaw.WindSpeed h) i;
  temp ← safeFloat (hourlyRaw.Temperature h) i;
  Ret (HourlyPoint.mk (FormatTime t "15:04") temp pp (WMODescription wc) (WMOIconClass wc) ws).

(** The loop of [parseHourly] (lines 412-435), at index [i] with [times]
    the part of [h.Time] still to visit.  What is appended for an entry is
    the parameter [emit], so that the same loop also yields the indices
    and instants it keeps. *)
Fixpoint hourlyLoop {A} (emit : Z -> Time.t -> outcome A) (now : Time.t) (tz : Location)
    (i : Z) (times : list string) (points : list A) : outcome (list A) :=
  match times with
  | [] => Ret points
  | ts :: rest =>
      match ParseTime layout ts tz with
      | None => hourlyLoop emit now tz (i + 1) rest points
      | Some t =>
          if Before t now then hourlyLoop emit now tz (i + 1) rest points
          else if 24 <=? len points then Ret points
          else
            p ← emit i t;
            hourlyLoop emit now tz (i + 1) rest (points ++ [p])%list
      end
  end.

Definition parseHourly (h : hourlyRaw.t) (currentTimeStr timezone : string)
    : outcome (list HourlyPoint.t) :=
  let tz := loadLocationOrUTC timezone in
  match ParseTime layout currentTimeStr tz with
  | None => Ret []
  | Some now => hourlyLoop (hourlyPoint h) now tz 0 (hourlyRaw.Time h) []
  end.

(** The hourly entries [parseHourly] keeps: index into [h.Time] and parsed
    instant of each. *)
Definition hourlyKept (h : hourlyRaw.t) (currentTimeStr timezone : string)
    : outcome (list (Z * Time.t)) :=
  let tz := loadLocationOrUTC timezone in
  match ParseTime layout currentTimeStr tz with
  | None => Ret []
  | Some now => hourlyLoop (fun i t => Ret (i, t)) now tz 0 (hourlyRaw.Time h) []
  end.

(** The hourly entries from index [i] on that parse and are not before
    [now], each with its index and instant: the block filtered to "now or
    later". *)
Fixpoint eligible (now : Time.t) (tz : Location) (i : Z) (times : list string)
    : list (Z * Time.t) :=
  match times with
  | [] => []
  | ts :: rest =>
      match ParseTime layout ts tz with
      | Some t => if Before t now then eligible now tz (i + 1) rest
                  else (i, t) :: eligible now tz (i + 1) rest
      | None => eligible now tz (i + 1) rest
      end
  end.

(** The point [hourlyPoint] returns at an index that is not negative. *)
Definition hourlyPointAt (h : hourlyRaw.t) (it : Z * Time.t) : HourlyPoint.t :=
  let i := Z.to_nat it.1 in
  let wc := default 0 (hourlyRaw.WeatherCode h !! i) in
  HourlyPoint.mk (FormatTime it.2 "15:04")
    (default 0%Q (hourlyRaw.Temperature h !! i))
    (default 0 (hourlyRaw.PrecipProb h !! i))
    (WMODescription wc) (WMOIconClass wc)
    (default 0%Q (hourlyRaw.WindSpeed h !! i)).

(** *** Geocode *)

Definition Geocode (c : Client) (city : string) : outcome GeoLocation.t :=
  let u := geoURL ++ "?name=" ++ QueryEscape city ++ "&count=1&language=en&format=json" in
  let '(_, (err, geo)) := getJSON c u geoResponse.zero in
  match err with
  | Some e => Err ("geocode: " ++ e)
  | None =>
      match geoResponse.Results geo with
      | [] => Err ("city " ++ Sprintf_q city ++ " not found")
      | loc :: _ => Ret loc
      end
  end.

(** *** consensus.go *)

Definition forecastModels : list (string * string) :=
  [("ECMWF", "ecmwf_ifs025");
   ("ICON", "icon_seamless");
   ("Météo-France", "meteofrance_seamless");
   ("MET Norway", "metno_seamless")].

Definition modelURL (modelParam : string) (lat lon : float64)
    (timezone tempUnit windUnit : string) : string :=
  forecastURL ++ "?latitude=" ++ Sprintf_4f lat ++ "&longitude=" ++ Sprintf_4f lon
    ++ "&current=temperature_2m,relative_humidity_2m,wind_speed_10m,pressure_msl,weather_code"
    ++ "&temperature_unit=" ++ tempUnit ++ "&wind_speed_unit=" ++ windUnit
    ++ "&timezone=" ++ QueryEscape timezone ++ "&models=" ++ modelParam.

Definition fetchModel (name modelParam : string) (lat lon : float64)
    (timezone tempUnit windUnit : string) : ModelReading.t :=
  let u := modelURL modelParam lat lon timezone tempUnit windUnit in
  let '(_, (err, resp)) := getJSON consensusClient u modelResponse.zero in
  match err with
  | Some e => ModelReading.mk name 0%Q 0 0%Q 0%Q 0 false e
  | None =>
      let cur := modelResponse.Current resp in
      match modelCurrentRaw.Temp cur, modelCurrentRaw.Humidity cur with
      | Some temp, Some humidity =>
          ModelReading.mk name temp humidity
            (default 0%Q (modelCurrentRaw.Wind cur))
            (default 0%Q (modelCurrentRaw.Pressure cur))
            (default 0 (modelCurrentRaw.WMOCode cur))
            true ""
      | _, _ => ModelReading.mk name 0%Q 0 0%Q 0%Q 0 false "incomplete data"
      end
  end.

(** The local variables of the accumulation loop of [FetchConsensus]. *)
Record sums : Type := mkSums {
  sumTemp : float64;
  sumWind : float64;
  sumPressure : float64;
  sumHumidity : Z;
  count : Z;
  minTemp : float64;
  maxTemp : float64 }.

Definition sums0 : sums := mkSums 0%Q 0%Q 0%Q 0 0 MaxFloat64 (- MaxFloat64)%Q.

(** One iteration of [for _, r := range readings] (lines 134-149);
    [count] is bounded by the length of the slice, an [int]. *)
Definition accumulate (s : sums) (r : ModelReading.t) : sums :=
  if negb (ModelReading.Available r) then s
  else
    {| sumTemp := (sumTemp s + ModelReading.Temp r)%Q;
       sumWind := (sumWind s + ModelReading.WindSpeed r)%Q;
       sumPressure := (sumPressure s + ModelReading.Pressure r)%Q;
       sumHumidity := int_add (sumHumidity s) (ModelReading.Humidity r);
       count := count s + 1;
       minTemp := if float_lt (ModelReading.Temp r) (minTemp s)
                  then ModelReading.Temp r else minTemp s;
       maxTemp := if float_gt (ModelReading.Temp r) (maxTemp s)
                  then ModelReading.Temp r else maxTemp s |}.

Definition available (r : ModelReading.t) : Prop := ModelReading.Available r = true.

#[export] Instance available_dec (r : ModelReading.t) : Decision (available r) :=
  decide (ModelReading.Available r = true).

(** What the loop has computed in [minTemp] and [maxTemp] once it has
    seen the available readings [seen]. *)
Definition extremes (seen : list ModelReading.t) (s : sums) : Prop :=
  (seen = [] /\ minTemp s = MaxFloat64 /\ maxTemp s = (- MaxFloat64)%Q)
  \/ ((exists lo, lo ∈ seen /\ (minTemp s == ModelReading.Temp lo)%Q)
      /\ (exists hi, hi ∈ seen /\ (maxTemp s == ModelReading.Temp hi)%Q)
      /\ (forall r, r ∈ seen ->
            (minTemp s <= ModelReading.Temp r /\ ModelReading.Temp r <= maxTemp s)%Q)).

(** [math.Round(x*10) / 10] *)
Definition round1 (x : float64) : float64 := (Round (x * 10) / 10)%Q.

(** The agreement score of lines 165-178, from the spread. *)
Definition agreePct (spread : float64) : Z :=
  let pct := int_sub 100 (int_of_float (spread * 12)) in
  if pct <? 0 then 0 else pct.

Definition agreementLabel (pct : Z) : string :=
  if 80 <=? pct then "High"
  else if 50 <=? pct then "Moderate"
  else "Low".

(** Lines 127-180 of [FetchConsensus]: the summary of fetched readings. *)
Definition consensusStats (readings : list ModelReading.t) : ConsensusInfo.t :=
  let s := foldl accumulate sums0 readings in
  if count s =? 0 then
    ConsensusInfo.mk readings 0 0%Q 0 0%Q 0%Q 0%Q 0%Q 0%Q "" 0
  else
    let n := float_of_int (count s) in
    let MinTemp := round1 (minTemp s) in
    let MaxTemp := round1 (maxTemp s) in
    let Spread := round1 (MaxTemp - MinTemp)%Q in
    let pct := agreePct Spread in
    {| ConsensusInfo.Models := readings;
       ConsensusInfo.AvailCount := count s;
       ConsensusInfo.AvgTemp := round1 (sumTemp s / n)%Q;
       ConsensusInfo.AvgHumidity := int_div (sumHumidity s) (count s);
       ConsensusInfo.AvgWind := round1 (sumWind s / n)%Q;
       ConsensusInfo.AvgPressure := round1 (sumPressure s / n)%Q;
       ConsensusInfo.MinTemp := MinTemp;
       ConsensusInfo.MaxTemp := MaxTemp;
       ConsensusInfo.Spread := Spread;
       ConsensusInfo.Agreement := agreementLabel pct;
       ConsensusInfo.AgreePct := pct |}.

(** Lines 115-125: one goroutine per model writes its own slot of
    [readings], and [wg.Wait] joins them all; the slice after the barrier
    is the models' readings in configuration order. *)
Definition fetchReadings (lat lon : float64) (timezone tempUnit windUnit : string)
    : list ModelReading.t :=
  map (fun m => fetchModel m.1 m.2 lat lon timezone tempUnit windUnit) forecastModels.

(** The receiver [c] is not used: the fetches go through [consensusClient]. *)
Definition FetchConsensus (c : Client) (lat lon : float64)
    (timezone tempUnit windUnit : string) : ConsensusInfo.t :=
  consensusStats (fetchReadings lat lon timezone tempUnit windUnit).

(** *** GetWeather *)

Definition forecastRequestURL (loc : GeoLocation.t) (tempUnit windUnit : string) : string :=
  forecastURL ++ "?latitude=" ++ Sprintf_4f (GeoLocation.Latitude loc)
    ++ "&longitude=" ++ Sprintf_4f (GeoLocation.Longitude loc)
    ++ "&current=temperature_2m,apparent_temperature,relative_humidity_2m,weather_code,cloud_cover,wind_speed_10m,wind_direction_10m,pressure_msl,dew_point_2m,uv_index"
    ++ "&hourly=temperature_2m,precipitation_probability,weather_code,wind_speed_10m"
    ++ "&daily=weather_code,temperature_2m_max,temperature_2m_min,wind_speed_10m_max,precipitation_probability_max,sunrise,sunset"
    ++ "&temperature_unit=" ++ tempUnit ++ "&wind_speed_unit=" ++ windUnit
    ++ "&timezone=" ++ QueryEscape (GeoLocation.Timezone loc) ++ "&forecast_days=5".

Definition currentDisplay (cur : currentRaw.t) : CurrentDisplay.t :=
  {| CurrentDisplay.Time := currentRaw.Time cur;
     CurrentDisplay.Temp := currentRaw.Temperature cur;
     CurrentDisplay.FeelsLike := currentRaw.FeelsLike cur;
     CurrentDisplay.Humidity := currentRaw.Humidity cur;
     CurrentDisplay.Description := WMODescription (currentRaw.WeatherCode cur);
     CurrentDisplay.Icon := WMOIconClass (currentRaw.WeatherCode cur);
     CurrentDisplay.CloudCover := currentRaw.CloudCover cur;
     CurrentDisplay.WindSpeed := currentRaw.WindSpeed cur;
     CurrentDisplay.WindDir := currentRaw.WindDir cur;
     CurrentDisplay.Pressure := currentRaw.Pressure cur;
     CurrentDisplay.DewPoint := currentRaw.DewPoint cur;
     CurrentDisplay.UVIndex := currentRaw.UVIndex cur |}.

Definition GetWeather (c : Client) (city units : string) : outcome WeatherInfo.t :=
  loc ← Geocode c city;
  let '(tempUnit, windUnit) :=
    if String.eqb units "imperial" then ("fahrenheit", "mph") else ("celsius", "kmh") in
  let u := forecastRequestURL loc tempUnit windUnit in
  let '(_, (err, raw)) := getJSON c u forecastRaw.zero in
  match err with
  | Some e => Err ("forecast: " ++ e)
  | None =>
      let daily := forecastRaw.Daily raw in
      let cur := forecastRaw.Current raw in
      forecast ← buildForecast daily;
      sun ← (if (0 <? len (dailyRaw.Sunrise daily)) && (0 <? len (dailyRaw.Sunset daily))
             then
               sunrise0 ← index (dailyRaw.Sunrise daily) 0;
               sunset0 ← index (dailyRaw.Sunset daily) 0;
               Ret (buildSunBar (currentRaw.Time cur) sunrise0 sunset0
                      (GeoLocation.Timezone loc))
             else Ret SunBar.zero);
      hourly ← parseHourly (forecastRaw.Hourly raw) (currentRaw.Time cur)
                 (GeoLocation.Timezone loc);
      let consensus := FetchConsensus c (GeoLocation.Latitude loc)
                         (GeoLocation.Longitude loc) (GeoLocation.Timezone loc)
                         tempUnit windUnit in
      Ret {| WeatherInfo.CityName := GeoLocation.Name loc;
             WeatherInfo.Country := GeoLocation.Country loc;
             WeatherInfo.CountryCode := GeoLocation.CountryCode loc;
             WeatherInfo.TempUnit := TempUnitSymbol units;
             WeatherInfo.WindUnit := WindUnitLabel units;
             WeatherInfo.Current := currentDisplay cur;
             WeatherInfo.Forecast := forecast;
             WeatherInfo.Hourly := hourly;
             WeatherInfo.Sun := sun;
             WeatherInfo.Consensus := Some consensus |}
  end.

End Pipeline.

(** ** cmd/cli/main.go: the report cache *)

Module Cache.

Definition cacheTTL : Z := 10 * Minute.
Definition cacheMaxSize : Z := 200.
Definition cacheCleanup : Z := 5 * Minute.

(** Instants of [time.Now()] are counted in nanoseconds. *)
Record cacheEntry : Type := mkEntry {
  info : WeatherInfo.t;
  expires : Z;
  createdAt : Z }.

Section WithToLower.
(** [strings.ToLower] *)
Variable ToLower : string -> string.

Definition cacheKey (city units : string) : string :=
  ToLower city ++ "|" ++ units.

(** [cacheGet] at clock reading [now]; it only reads the map. *)
Definition cacheGet (cache : gmap string cacheEntry) (now : Z) (key : string)
    : option WeatherInfo.t :=
  match cache !! key with
  | Some e => if now <? expires e then Some (info e) else None
  | None => None
  end.

(** One iteration of the scan of lines 896-901 on the pair [(k, e)]. *)
Definition scanStep (st : string * Z) (ke : string * cacheEntry) : string * Z :=
  let '(oldest, oldestTime) := st in
  if String.eqb oldest "" || (createdAt ke.2 <? oldestTime)
  then (ke.1, createdAt ke.2)
  else (oldest, oldestTime).

(** The scan over the entries in the order [range cache] yields them; Go
    leaves that order unspecified, so it is an argument. *)
Definition scanOldest (order : list (string * cacheEntry)) : string * Z :=
  foldl scanStep ("", -62135596800 * Second) order.

(** What the scan holds after the entries [seen]. *)
Definition scanned (seen : list (string * cacheEntry)) (st : string * Z) : Prop :=
  (seen = [] /\ st.1 = "")
  \/ (exists e, (st.1, e) ∈ seen /\ st.2 = createdAt e
                /\ forall ke, ke ∈ seen -> st.2 <= createdAt ke.2).

(** [cacheSet]: [order] is the iteration order of the map at this call,
    [now1] and [now2] the two readings of the clock. *)
Definition cacheSet (order : list (string * cacheEntry)) (now1 now2 : Z)
    (key : string) (i : WeatherInfo.t) (cache : gmap string cacheEntry)
    : gmap string cacheEntry :=
  let cache' :=
    if negb (bool_decide (is_Some (cache !! key)))
       && (cacheMaxSize <=? Z.of_nat (size cache))
    then delete (scanOldest order).1 cache
    else cache in
  <[key := mkEntry i (now1 + cacheTTL) now2]> cache'.

(** One tick of the sweep of [startCacheCleanup] at clock reading [now]:
    the entries with [now.After(e.expires)] are deleted. *)
Definition sweep (now : Z) (cache : gmap string cacheEntry) : gmap string cacheEntry :=
  filter (fun ke => ¬ (expires ke.2 < now)) cache.

(** The states of the package-level map: it starts empty, the handler
    stores under keys built by [cacheKey], and the sweep runs in between. *)
Inductive reachable : gmap string cacheEntry -> Prop :=
  | reachable_init : reachable ∅
  | reachable_set cache order now1 now2 city units i :
      reachable cache ->
      order ≡ₚ map_to_list cache ->
      reachable (cacheSet order now1 now2 (cacheKey city units) i cache)
  | reachable_sweep cache now :
      reachable cache ->
      reachable (sweep now cache).

End WithToLower.
End Cache.

(** ** Package weather: alerts, outfit, UV index, quotes, reverse geocoding *)

Definition float_le (x y : Q) : bool := Qle_bool x y.
Definition float_ge (x y : Q) : bool := Qle_bool y x.

Definition int_mul (a b : Z) : Z := wrap64 (a * b).

(** [count] copies of [s], one after the other. *)
Fixpoint copies (s : string) (count : nat) : string :=
  match count with
  | O => ""
  | S count' => s ++ copies s count'
  end.

(** [strings.Contains] *)
Fixpoint Contains (s substr : string) : bool :=
  String.prefix substr s
  || match s with
     | EmptyString => false
     | String _ s' => Contains s' substr
     end.

(** *** Alerts *)

Inductive AlertLevel : Type := AlertDanger | AlertWarning | AlertInfo.

Module Alert.
Record t : Type := mk {
  Level : AlertLevel;
  Icon : string;
  Title : string;
  Message : string }.
End Alert.

Definition toCelsius (temp : float64) (unitSymbol : string) : float64 :=
  if String.eqb unitSymbol "°F" then ((temp - 32) * 5 / 9)%Q else temp.

Definition toKmh (speed : float64) (unitLabel : string) : float64 :=
  if String.eqb unitLabel "mph" then (speed * (160934 # 100000))%Q else speed.

Definition isThunder (icon : string) : bool :=
  String.eqb icon "wi-thunderstorm" || String.eqb icon "wi-storm-showers".
Definition isHeavyRain (icon : string) : bool := String.eqb icon "wi-rain-wind".
Definition isHeavySnow (icon : string) : bool := String.eqb icon "wi-snow-wind".
Definition isFog (icon : string) : bool := String.eqb icon "wi-fog".

(** [if cond { s = append(s, a) }] *)
Definition appendIf {A} (cond : bool) (a : A) (s : list A) : list A :=
  if cond then (s ++ [a])%list else s.

Definition Alerts (info : WeatherInfo.t) : list Alert.t :=
  let alerts := [] in
  let cur := WeatherInfo.Current info in
  let tempC := toCelsius (CurrentDisplay.Temp cur) (WeatherInfo.TempUnit info) in
  let feelsC := toCelsius (CurrentDisplay.FeelsLike cur) (WeatherInfo.TempUnit info) in
  let windKmh := toKmh (CurrentDisplay.WindSpeed cur) (WeatherInfo.WindUnit info) in
  let alerts := appendIf (isThunder (CurrentDisplay.Icon cur))
    (Alert.mk AlertDanger "wi-thunderstorm" "THUNDERSTORM ACTIVE"
       "Lightning risk. Stay indoors. Unplug electronics. Avoid open areas.") alerts in
  let alerts := appendIf (float_le feelsC (-15))
    (Alert.mk AlertDanger "wi-snowflake-cold" "EXTREME COLD"
       "Dangerously cold. Risk of frostbite in under 30 minutes. Limit time outdoors.")
    alerts in
  let alerts := appendIf (float_ge feelsC 40)
    (Alert.mk AlertDanger "wi-hot" "EXTREME HEAT"
       "Heat index critical. Risk of heat stroke. Stay in the shade and hydrate constantly.")
    alerts in
  let alerts := appendIf (float_ge windKmh 118)
    (Alert.mk AlertDanger "wi-strong-wind" "HURRICANE-FORCE WIND"
       "Extremely dangerous winds. Take shelter immediately. Do not drive.") alerts in
  let alerts := appendIf (isHeavyRain (CurrentDisplay.Icon cur))
    (Alert.mk AlertWarning "wi-rain-wind" "HEAVY RAIN"
       "Reduced visibility and possible flash flooding. Drive carefully.") alerts in
  let alerts := appendIf (isHeavySnow (CurrentDisplay.Icon cur))
    (Alert.mk AlertWarning "wi-snow-wind" "HEAVY SNOW"
       "Roads may be impassable. Allow extra travel time and check road conditions.")
    alerts in
  let alerts := appendIf (float_lt tempC 0 && float_gt tempC (-15))
    (Alert.mk AlertWarning "wi-thermometer-exterior" "FREEZING CONDITIONS"
       "Black ice possible on roads. Wrap up warm and watch your step.") alerts in
  let alerts := appendIf (float_ge feelsC 35 && float_lt feelsC 40)
    (Alert.mk AlertWarning "wi-day-sunny" "HEATWAVE WARNING"
       "Dangerously warm. Drink water, avoid peak sun hours (11am–3pm), check on vulnerable people.")
    alerts in
  let alerts := appendIf (float_ge windKmh 62 && float_lt windKmh 118)
    (Alert.mk AlertWarning "wi-strong-wind" "STRONG WIND WARNING"
       "Gale-force winds. Secure loose outdoor objects. Drive with care.") alerts in
  let alerts := appendIf (isFog (CurrentDisplay.Icon cur))
    (Alert.mk AlertInfo "wi-fog" "FOG ADVISORY"
       "Low visibility on roads. Use fog lights and reduce speed.") alerts in
  let alerts := appendIf (85 <=? CurrentDisplay.Humidity cur)
    (Alert.mk AlertInfo "wi-humidity" "HIGH HUMIDITY"
       "Air feels heavy and muggy. Stay hydrated and take it easy outdoors.") alerts in
  let alerts := appendIf (float_ge windKmh 39 && float_lt windKmh 62)
    (Alert.mk AlertInfo "wi-windy" "WINDY CONDITIONS"
       "Fresh to strong breeze. Hold onto your hat — literally.") alerts in
  alerts.

(** The severity rank by which [Alerts] orders its result. *)
Definition severity (l : AlertLevel) : Z :=
  match l with AlertDanger => 0 | AlertWarning => 1 | AlertInfo => 2 end.

(** *** Outfit *)

Module OutfitItem.
Record t : Type := mk {
  Icon : string;
  Label : string;
  Note : string;
  Color : string }.
End OutfitItem.

Module OutfitAdvice.
Record t : Type := mk {
  Headline : string;
  Items : list OutfitItem.t;
  TempTier : string }.
End OutfitAdvice.

Definition windLabel (kmh : float64) (unit : string) : string :=
  if String.eqb unit "mph" then pretty (int_of_float (kmh / (160934 # 100000))) ++ " mph"
  else if String.eqb unit "kn" then pretty (int_of_float (kmh / (1852 # 1000))) ++ " kn"
  else pretty (int_of_float kmh) ++ " km/h".

Definition headlines : gmap string string :=
  list_to_map
    [("freezing", "Bundle up — it's freezing out there");
     ("cold", "Dress warm, it's a cold one");
     ("cool", "A jacket will do nicely today");
     ("mild", "Perfect weather — dress easy");
     ("warm", "Light layers, you'll be comfortable");
     ("hot", "Stay cool — it's scorching")].

Definition BuildOutfit (info : WeatherInfo.t) : OutfitAdvice.t :=
  let cur := WeatherInfo.Current info in
  let feelsC := toCelsius (CurrentDisplay.FeelsLike cur) (WeatherInfo.TempUnit info) in
  let windKmh := toKmh (CurrentDisplay.WindSpeed cur) (WeatherInfo.WindUnit info) in
  let precipProb :=
    match WeatherInfo.Forecast info with
    | [] => 0
    | day :: _ => ForecastDay.PrecipProb day
    end in
  let uv := CurrentDisplay.UVIndex cur in
  let tier :=
    if float_lt feelsC 0 then "freezing"
    else if float_lt feelsC 8 then "cold"
    else if float_lt feelsC 15 then "cool"
    else if float_lt feelsC 22 then "mild"
    else if float_lt feelsC 29 then "warm"
    else "hot" in
  let items : list OutfitItem.t := [] in
  let items :=
    if String.eqb tier "freezing" then
      (items ++ [OutfitItem.mk "thermal" "Thermal Base"
                   "Moisture-wicking thermals keep heat in" "oi-blue"])%list
    else if String.eqb tier "cold" then
      (items ++ [OutfitItem.mk "sweater" "Thick Sweater"
                   "Wool or fleece sweater recommended" "oi-blue"])%list
    else if String.eqb tier "cool" then
      (items ++ [OutfitItem.mk "longsleeve" "Long Sleeve"
                   "A long-sleeve shirt is enough inside" "oi-sky"])%list
    else if String.eqb tier "mild" then
      (items ++ [OutfitItem.mk "tshirt" "T-Shirt"
                   "Any casual top works great" "oi-green"])%list
    else if String.eqb tier "warm" || String.eqb tier "hot" then
      (items ++ [OutfitItem.mk "tshirt" "Light Top"
                   "Breathable, light-coloured fabric is best" "oi-orange"])%list
    else items in
  let items :=
    if String.eqb tier "freezing" then
      (items ++ [OutfitItem.mk "coat" "Heavy Coat"
                   "Insulated or down-filled coat essential" "oi-indigo"])%list
    else if String.eqb tier "cold" then
      (items ++ [OutfitItem.mk "coat" "Winter Coat"
                   "Lined coat with hood recommended" "oi-indigo"])%list
    else if String.eqb tier "cool" then
      (items ++ [OutfitItem.mk "jacket" "Light Jacket"
                   "Zip-up or denim jacket keeps the chill off" "oi-sky"])%list
    else items in
  let items :=
    appendIf (float_ge windKmh 30 && negb (String.eqb tier "freezing")
              && negb (String.eqb tier "cold"))
      (OutfitItem.mk "windbreaker" "Windbreaker"
         ("Gusts up to " ++ windLabel windKmh (WeatherInfo.WindUnit info)
          ++ " — block the wind") "oi-teal") items in
  let items :=
    if 60 <=? precipProb then
      (items ++ [OutfitItem.mk "umbrella" "Umbrella"
                   ("Rain likely today (" ++ pretty precipProb ++ "% chance)")
                   "oi-blue"])%list
    else if 30 <=? precipProb then
      (items ++ [OutfitItem.mk "raincoat" "Rain Jacket"
                   ("Pack one just in case (" ++ pretty precipProb ++ "% chance)")
                   "oi-sky"])%list
    else items in
  let items :=
    if float_ge uv 8 then
      ((items ++ [OutfitItem.mk "sunscreen" "SPF 50+"
                    "UV is very high — reapply every 2 hours" "oi-orange"])
         ++ [OutfitItem.mk "sunglasses" "Sunglasses"
               ("Protect your eyes from UV " ++ pretty (int_of_float uv) ++ " index")
               "oi-amber"])%list
    else if float_ge uv 5 then
      (items ++ [OutfitItem.mk "sunscreen" "Sunscreen"
                   ("UV " ++ pretty (int_of_float uv) ++ " — SPF 30 before heading out")
                   "oi-amber"])%list
    else items in
  let items :=
    if String.eqb tier "freezing" then
      (items ++ [OutfitItem.mk "beanie" "Beanie + Gloves"
                   "Extremities lose heat fast in freezing temps" "oi-indigo"])%list
    else if float_ge uv 6 then
      (items ++ [OutfitItem.mk "hat" "Sun Hat"
                   "Wide brim hat shields face and neck" "oi-amber"])%list
    else items in
  let items :=
    if (50 <=? precipProb) || String.eqb tier "freezing" then
      (items ++ [OutfitItem.mk "boots" "Waterproof Boots"
                   "Keep feet dry on wet ground" "oi-teal"])%list
    else if String.eqb tier "hot" then
      (items ++ [OutfitItem.mk "sandals" "Sandals"
                   "Let your feet breathe in the heat" "oi-orange"])%list
    else items in
  let items := if 6 <? len items then take 6 items else items in
  {| OutfitAdvice.Headline := default "" (headlines !! tier);
     OutfitAdvice.Items := items;
     OutfitAdvice.TempTier := tier |}.

(** *** UV index *)

Definition UVLevel (uv : float64) : string :=
  if float_lt uv 3 then "Low"
  else if float_lt uv 6 then "Moderate"
  else if float_lt uv 8 then "High"
  else if float_lt uv 11 then "Very High"
  else "Extreme".

Definition UVAdvice (uv : float64) : string :=
  if float_lt uv 3 then "No protection needed. Enjoy the sun safely."
  else if float_lt uv 6 then "Wear sunscreen SPF 30+. Hat recommended."
  else if float_lt uv 8 then "SPF 50+ sunscreen, hat and sunglasses. Seek shade 11am–3pm."
  else if float_lt uv 11
  then "SPF 50+ and protective clothing essential. Minimize sun exposure."
  else "Extreme UV. Stay indoors if possible. Full protection required.".

Definition UVColorClass (uv : float64) : string :=
  if float_lt uv 3 then "uv-low"
  else if float_lt uv 6 then "uv-moderate"
  else if float_lt uv 8 then "uv-high"
  else if float_lt uv 11 then "uv-veryhigh"
  else "uv-extreme".

(** The loop of [UVBar] (lines 61-67), at counter [i] with [remaining]
    iterations to go. *)
Fixpoint UVBar_loop (n i : Z) (remaining : nat) (bar : string) : string :=
  match remaining with
  | O => bar
  | S remaining' =>
      UVBar_loop n (i + 1) remaining' (bar ++ (if i <? n then "█" else "░"))
  end.

(** The bar between the brackets of [UVBar]. *)
Definition UVBar_cells (uv : float64) (width : Z) : string :=
  let n := int_of_float (uv / 12 * float_of_int width) in
  let n := if width <? n then width else n in
  UVBar_loop n 0 (Z.to_nat width) "".

Section WithSprintf.
(** ["%.1f"] *)
Variable Sprintf_1f : float64 -> string.

Definition UVBar (uv : float64) (width : Z) : string :=
  "[" ++ UVBar_cells uv width ++ "] " ++ Sprintf_1f uv.

End WithSprintf.

(** *** Quotes *)

Definition QuotePool (wmoCode : Z) : list string :=
  if wmoCode =? 0 then
    ["Sun's out, bad decisions are out too.";
     "Perfect weather to pretend you're a lizard on a rock.";
     "The sky is blue. Your excuses are not.";
     "Vitamin D loading... please wait.";
     "It's so sunny even your shadow needs sunglasses."]
  else if wmoCode =? 1 then
    ["Mostly clear — like your schedule should be.";
     "A few clouds, just enough to keep the sky humble.";
     "The sun is trying its best. Same energy."]
  else if wmoCode =? 2 then
    ["Partly cloudy, fully indecisive.";
     "The weather can't make up its mind. Neither can you. Perfect match.";
     "Clouds auditioning for a role in your afternoon plans."]
  else if wmoCode =? 3 then
    ["Overcast. Great day to feel dramatically misunderstood.";
     "Zero sun, maximum brooding potential.";
     "The sky is wearing a grey blanket. Take notes.";
     "Overcast skies: nature's way of saying 'meh'."]
  else if (wmoCode =? 45) || (wmoCode =? 48) then
    ["Fog warning: if you can't see your problems, do they even exist?";
     "It's foggy. Perfect alibi weather.";
     "Visibility low. Mystery high.";
     "Great day to dramatically disappear into the mist."]
  else if (51 <=? wmoCode) && (wmoCode <=? 55) then
    ["Drizzle. Nature's way of passive-aggressively watering your plans.";
     "It's not raining, it's misting. Like a fancy spa you didn't ask for.";
     "Light drizzle: too wet to ignore, too weak to respect."]
  else if wmoCode =? 61 then
    ["Slight rain. A solid excuse not to go jogging.";
     "Rain check? The sky literally issued one.";
     "Nature is crying. Relatable."]
  else if wmoCode =? 63 then
    ["Moderate rain. Your hair has accepted its fate.";
     "It's raining. Cancel everything and make soup.";
     "Rain: nature's way of doing your car wash for free."]
  else if wmoCode =? 65 then
    ["Heavy rain. You ARE the soup now.";
     "It's pouring. Even the ducks are impressed.";
     "Biblical rain detected. Start building something.";
     "Congratulations, you're basically underwater."]
  else if (71 <=? wmoCode) && (wmoCode <=? 75) then
    ["Snow! Nature said 'let me delete everything and start fresh'.";
     "It's snowing. Time to question every life choice that led you here.";
     "Snow: beautiful from inside. Terrible from outside.";
     "White stuff everywhere. And it's not sugar."]
  else if wmoCode =? 77 then
    ["Snow grains. Tiny frozen disappointments falling from the sky.";
     "Snow grains: the economy-sized version of hail."]
  else if (80 <=? wmoCode) && (wmoCode <=? 82) then
    ["Rain showers incoming. The sky has commitment issues.";
     "On-and-off rain. Like a bad situationship.";
     "Showers: enough rain to ruin your day, not enough to cancel plans."]
  else if (85 <=? wmoCode) && (wmoCode <=? 86) then
    ["Snow showers. Nature's confetti, but colder.";
     "It's snowing intermittently, like inspiration."]
  else if wmoCode =? 95 then
    ["Thunderstorm. Nature is having a moment.";
     "Lightning detected. Unplug your WiFi router and panic.";
     "Thor is upset about something. As usual.";
     "Great day to feel small and insignificant. Nature's doing the work."]
  else if (wmoCode =? 96) || (wmoCode =? 99) then
    ["Thunderstorm with hail. Nature said 'not today'.";
     "Hail + lightning. Your car's worst nightmare.";
     "The sky is literally throwing rocks at you. Take the hint and stay inside."]
  else
    ["Weather: it exists. Outside: also exists. You: reading this.";
     "Conditions unknown. Like your weekend plans."].

(** [pool[rand.Intn(len(pool))]]: [rand.Intn(n)] yields a value in
    [0, n), here the draw [r] of the generator reduced modulo [n]. *)
Definition Quote (r : Z) (wmoCode : Z) : outcome string :=
  let pool := QuotePool wmoCode in
  index pool (r mod len pool).

Definition Advice (feelsLike : float64) (unit : string) : string :=
  let temp := if String.eqb unit "°F" then ((feelsLike - 32) * 5 / 9)%Q else feelsLike in
  if float_le temp (-20) then "It feels arctic out there. Wrap up like a burrito."
  else if float_le temp (-10)
  then "Dangerously cold. Only go outside if your name is a penguin."
  else if float_le temp 0
  then "Below freezing. Every exposed inch of skin will regret this."
  else if float_le temp 5 then "Heavy coat mandatory. Your nose will run regardless."
  else if float_le temp 10
  then "Jacket weather. The kind that makes you question the seasons."
  else if float_le temp 15 then "A light jacket will do. Maybe two. Bring both."
  else if float_le temp 20 then "Comfortable. Wear what you want, nobody's judging."
  else if float_le temp 25 then "T-shirt weather. Go enjoy it — you earned this."
  else if float_le temp 30 then "Warm. Stay hydrated and pretend you love summer."
  else if float_le temp 35 then "Hot. Ice cream is not optional at this point."
  else if float_le temp 40 then "Dangerously hot. You are now a human crouton."
  else "It's basically an oven outside. Stay in. Order food.".

(** The condition bucket [QuoteFromIcon] passes to [Quote]. *)
Definition iconBucket (iconClass : string) : Z :=
  if Contains iconClass "sunny" && negb (Contains iconClass "overcast") then 0
  else if Contains iconClass "sunny-overcast" then 1
  else if Contains iconClass "cloudy" && Contains iconClass "day" then 2
  else if Contains iconClass "cloudy" then 3
  else if Contains iconClass "fog" then 45
  else if Contains iconClass "sprinkle" || Contains iconClass "rain-mix" then 51
  else if Contains iconClass "rain-wind" then 65
  else if Contains iconClass "rain" then 63
  else if Contains iconClass "snow-wind" then 75
  else if Contains iconClass "snowflake" then 77
  else if Contains iconClass "snow" then 71
  else if Contains iconClass "showers" then 80
  else if Contains iconClass "storm-showers" then 99
  else if Contains iconClass "thunderstorm" then 95
  else -1.

Definition QuoteFromIcon (r : Z) (iconClass : string) : outcome string :=
  Quote r (iconBucket iconClass).

(** *** ReverseGeocode *)

Module reverseAddress.
Record t : Type := mk {
  City : string;
  Town : string;
  Village : string;
  Municipality : string;
  County : string }.
Definition zero : t := mk "" "" "" "" "".
End reverseAddress.

Module reverseResult.
Record t : Type := mk {
  DisplayName : string;
  Address : reverseAddress.t }.
Definition zero : t := mk "" reverseAddress.zero.
End reverseResult.

Definition reverseURL : string := "https://nominatim.openstreetmap.org/reverse".

(** The loop of lines 250-256: the first candidate that is not empty. *)
Fixpoint firstNonEmpty (candidates : list string) : option string :=
  match candidates with
  | [] => None
  | candidate :: rest =>
      if negb (String.eqb candidate "") then Some candidate else firstNonEmpty rest
  end.

(** The loop of lines 260-266: the display name up to its first comma,
    all of it if it has none. *)
Fixpoint beforeComma (s : string) : string :=
  match s with
  | EmptyString => EmptyString
  | String c rest =>
      if Ascii.eqb c ","%char then EmptyString else String c (beforeComma rest)
  end.

Section Reverse.
Context `{rt : Runtime} `{reverse_json : Unmarshal reverseResult.t}.
(** ["%.6f"] *)
Variable Sprintf_6f : float64 -> string.

(** One request through [c.HTTP.Do], without the retry of [getJSON].
    [http.NewRequest] cannot fail on this URL. *)
Definition ReverseGeocode (c : Client) (lat lon : float64) : outcome string :=
  let u := reverseURL ++ "?lat=" ++ Sprintf_6f lat ++ "&lon=" ++ Sprintf_6f lon
             ++ "&format=json&zoom=10&addressdetails=1" in
  match HTTP c u 0 with
  | NetError err => Err ("reverse geocode request failed: " ++ err)
  | Response status body =>
      if negb (status =? StatusOK) then Err ("reverse geocode: HTTP " ++ pretty status)
      else
        match Decode body with
        | inl err => Err ("reverse geocode decode: " ++ err)
        | inr result =>
            let addr := reverseResult.Address result in
            match firstNonEmpty [reverseAddress.City addr; reverseAddress.Town addr;
                                 reverseAddress.Village addr;
                                 reverseAddress.Municipality addr;
                                 reverseAddress.County addr] with
            | Some candidate => Ret candidate
            | None =>
                if negb (String.eqb (reverseResult.DisplayName result) "")
                then Ret (beforeComma (reverseResult.DisplayName result))
                else Err ("no city found for coordinates " ++ Sprintf_4f lat
                          ++ "," ++ Sprintf_4f lon)
            end
        end
  end.

End Reverse.

(** ** cmd/cli/main.go: terminal helpers *)

Module Cli.

Definition esc : string := String "027"%char "".

Definition reset : string := esc ++ "[0m".
Definition dim : string := esc ++ "[2m".

Definition clr (color s : string) : string := color ++ s ++ reset.

Definition Repeat (s : string) (count : Z) : outcome string :=
  if count <? 0 then Panic "strings: negative Repeat count"
  else if MaxInt64 <? Z.of_nat (String.length s) * count
  then Panic "strings: Repeat output length overflow"
  else Ret (copies s (Z.to_nat count)).

Definition progressBar (pct width : Z) (barColor : string) : outcome string :=
  let n := int_div (int_mul pct width) 100 in
  let n := if width <? n then width else n in
  filled ← Repeat "█" n;
  empty ← Repeat "░" (int_sub width n);
  Ret (clr barColor filled ++ clr dim empty).

(** The loop of [wordWrap] (lines 174-181) over the words still to
    place. *)
Fixpoint wordWrap_loop (maxWidth : Z) (words : list string) (lines : list string)
    (line : string) : list string :=
  match words with
  | [] => (lines ++ [line])%list
  | w :: rest =>
      if Z.of_nat (String.length line) + 1 + Z.of_nat (String.length w) <=? maxWidth
      then wordWrap_loop maxWidth rest lines (line ++ " " ++ w)
      else wordWrap_loop maxWidth rest (lines ++ [line])%list w
  end.

Section WithFields.
(** [strings.Fields] *)
Variable Fields : string -> list string.

Definition wordWrap (s : string) (maxWidth : Z) : list string :=
  match Fields s with
  | [] => []
  | w :: rest => wordWrap_loop maxWidth rest [] w
  end.

End WithFields.

Definition moonPhaseIcon (phase : float64) : string :=
  if float_lt phase (34 # 1000) || float_ge phase (966 # 1000) then "( )"
  else if float_lt phase (216 # 1000) then "()"
  else if float_lt phase (284 # 1000) then "(|"
  else if float_lt phase (466 # 1000) then "(@"
  else if float_lt phase (534 # 1000) then "(@)"
  else if float_lt phase (716 # 1000) then "@)"
  else if float_lt phase (784 # 1000) then "|)"
  else "()".

End Cli.

(** ** cmd/web/main.go: template helpers and the page handler *)

Module Web.

Definition agreeColor (pct : Z) : string :=
  if 80 <=? pct then "#22c55e"
  else if 50 <=? pct then "#f59e0b"
  else "#ef4444".

Definition consBarW (temp minT maxT : float64) : float64 :=
  let spread := (maxT - minT)%Q in
  if float_le spread 0 then 50%Q
  else
    let v := ((temp - minT) / spread * 80 + 10)%Q in
    let v := if float_lt v 5 then 5%Q else v in
    let v := if float_gt v 95 then 95%Q else v in
    v.

Module PageData.
Record t : Type := mk {
  City : string;
  Units : string;
  Info : option WeatherInfo.t;
  Alerts : list Alert.t;
  Quote : string;
  Advice : string;
  Error : string }.
End PageData.

(** What the handler of ["/"] answers: the status code with the page
    handed to the template, or a plain-text error of [http.Error]. *)
Inductive response : Type :=
  | Page (status : Z) (data : PageData.t)
  | PlainError (status : Z) (body : string).

(** The status and the message shown for an error of [GetWeather]
    (lines 1008-1019). *)
Definition errorPage (errMsg : string) : Z * string :=
  if Contains errMsg "not found" then (404, errMsg)
  else if Contains errMsg "too long" then (400, errMsg)
  else if Contains errMsg "deadline exceeded" || Contains errMsg "timeout"
          || Contains errMsg "request failed"
  then (502, "Could not reach the weather service — please check your connection and try again.")
  else (502, errMsg).

Section Handler.
Context `{rt : Runtime}.
(** [strings.ToLower] and [strings.TrimSpace] *)
Variable ToLower TrimSpace : string -> string.

(** The handler of ["/"] on a request with the given method and form
    values.  [now0] is the clock reading of [cacheGet], [now1] and [now2]
    those of [cacheSet], [order] the iteration order of the map there and
    [r] the draw of the random generator.  The result is the response and
    the cache the request leaves behind. *)
Definition handler (c : Client) (order : list (string * Cache.cacheEntry))
    (now0 now1 now2 r : Z) (method cityValue unitsValue : string)
    (cache : gmap string Cache.cacheEntry)
    : outcome (response * gmap string Cache.cacheEntry) :=
  if negb (String.eqb method "GET") && negb (String.eqb method "HEAD")
  then Ret (PlainError 405 "Method Not Allowed", cache)
  else
    let city := TrimSpace cityValue in
    let units := if negb (String.eqb unitsValue "imperial") then "metric" else unitsValue in
    let data := PageData.mk city units None [] "" "" "" in
    if negb (String.eqb city "") then
      if 100 <? Z.of_nat (String.length city)
      then Ret (Page 400 (PageData.mk city units None [] "" ""
                            "City name is too long (max 100 characters)."), cache)
      else
        let key := Cache.cacheKey ToLower city units in
        let respond (info : WeatherInfo.t) (cache' : gmap string Cache.cacheEntry) :=
          quote ← QuoteFromIcon r (CurrentDisplay.Icon (WeatherInfo.Current info));
          Ret (Page 200
                 (PageData.mk city units (Some info) (Alerts info) quote
                    (Advice (CurrentDisplay.FeelsLike (WeatherInfo.Current info))
                       (WeatherInfo.TempUnit info)) ""),
               cache') in
        match Cache.cacheGet cache now0 key with
        | Some info => respond info cache
        | None =>
            match GetWeather c city units with
            | Err e =>
                let '(status, errMsg) := errorPage e in
                Ret (Page status (PageData.mk city units None [] "" "" errMsg), cache)
            | Panic msg => Panic msg
            | Ret info => respond info (Cache.cacheSet order now1 now2 key info cache)
            end
        end
    else Ret (Page 200 data, cache).

(** The units the handler works with (lines 983-986), and the page it
    renders for a report. *)
Definition normalUnits (unitsValue : string) : string :=
  if negb (String.eqb unitsValue "imperial") then "metric" else unitsValue.

Definition reportPage (city units : string) (info : WeatherInfo.t) (quote : string)
    : PageData.t :=
  PageData.mk city units (Some info) (Alerts info) quote
    (Advice (CurrentDisplay.FeelsLike (WeatherInfo.Current info))
       (WeatherInfo.TempUnit info)) "".

End Handler.
End Web.

(** ** A concrete runtime for the examples

    Times are read and shown in UTC; the network and the decoders are
    scripted by small tables. *)

Module Fixture.

Definition digit (c : ascii) : option Z :=
  let n := Z.of_nat (nat_of_ascii c) in
  if (48 <=? n) && (n <=? 57) then Some (n - 48) else None.

Fixpoint digits (s : string) (acc : Z) : option Z :=
  match s with
  | EmptyString => Some acc
  | String c s' => d ← digit c; digits s' (10 * acc + d)
  end.

Definition field (s : string) (start n : nat) : option Z :=
  if (String.length (String.substring start n s) =? n)%nat
  then digits (String.substring start n s) 0 else None.

Definition isLeap (y : Z) : bool :=
  ((y mod 4 =? 0) && negb (y mod 100 =? 0)) || (y mod 400 =? 0).

Definition daysIn (y m : Z) : Z :=
  if m =? 2 then (if isLeap y then 29 else 28)
  else if (m =? 4) || (m =? 6) || (m =? 9) || (m =? 11) then 30
  else 31.

(** Days from 1970-01-01 to the civil date [y-m-d]. *)
Definition daysFromCivil (y m d : Z) : Z :=
  let y' := if m <=? 2 then y - 1 else y in
  let era := y' / 400 in
  let yoe := y' - era * 400 in
  let doy := (153 * (if 2 <? m then m - 3 else m + 9) + 2) / 5 + d - 1 in
  let doe := yoe * 365 + yoe / 4 - yoe / 100 + doy in
  era * 146097 + doe - 719468.

(** The layout ["2006-01-02T15:04"], read in UTC. *)
Definition parseUTC (value : string) : option Z :=
  if negb (String.length value =? 16)%nat then None
  else if negb (String.eqb (String.substring 4 1 value) "-"
                && String.eqb (String.substring 7 1 value) "-"
                && String.eqb (String.substring 10 1 value) "T"
                && String.eqb (String.substring 13 1 value) ":") then None
  else
    y ← field value 0 4;
    m ← field value 5 2;
    d ← field value 8 2;
    hh ← field value 11 2;
    mm ← field value 14 2;
    if (1 <=? m) && (m <=? 12) && (1 <=? d) && (d <=? daysIn y m)
       && (hh <=? 23) && (mm <=? 59)
    then Some (daysFromCivil y m d * 86400 + hh * 3600 + mm * 60)
    else None.

Definition pad2 (n : Z) : string :=
  if n <? 10 then "0" ++ pretty n else pretty n.

(** The layout ["15:04"] of an instant, shown in UTC. *)
Definition clockUTC (unix : Z) : string :=
  let s := unix mod 86400 in
  pad2 (s / 3600) ++ ":" ++ pad2 (s mod 3600 / 60).

(** ["%.4f"], truncating *)
Definition fixed4 (x : Q) : string :=
  let n := Qtrunc (x * 10000) in
  let a := Z.abs n in
  let frac := a mod 10000 in
  (if n <? 0 then "-" else "") ++ pretty (a / 10000) ++ "."
    ++ (if frac <? 10 then "000" else if frac <? 100 then "00"
        else if frac <? 1000 then "0" else "") ++ pretty frac.

Definition paris : GeoLocation.t :=
  GeoLocation.mk "Paris" (488534 # 10000) (23488 # 10000) "France" "FR" "UTC".

Definition sampleCurrent : currentRaw.t :=
  currentRaw.mk "2024-06-01T12:00" (215 # 10) (21 # 1) 60 2 40 (12 # 1) 270
    (1015 # 1) (13 # 1) (5 # 1).

Definition sampleDaily : dailyRaw.t :=
  dailyRaw.mk ["2024-06-01"; "2024-06-02"] [2; 61] [24 # 1; 19 # 1] [14 # 1; 12 # 1]
    [20 # 1; 31 # 1] [10; 80] ["2024-06-01T06:00"; "2024-06-02T06:01"]
    ["2024-06-01T18:00"; "2024-06-02T18:01"].

Definition sampleHourly : hourlyRaw.t :=
  hourlyRaw.mk ["2024-06-01T11:00"; "2024-06-01T12:00"; "2024-06-01T13:00"]
    [20 # 1; 21 # 1; 22 # 1] [0; 5; 10] [1; 2; 3] [10 # 1; 11 # 1; 12 # 1].

Definition sampleForecast : forecastRaw.t :=
  forecastRaw.mk sampleCurrent sampleDaily sampleHourly.

(** A model answers with its temperature in whole degrees, or [null]. *)
Definition decodeModel (body : string) : string + modelResponse.t :=
  if String.eqb body "null"
  then inr (modelResponse.mk (modelCurrentRaw.mk None None None None None))
  else match digits body 0 with
       | Some t => inr (modelResponse.mk
                          (modelCurrentRaw.mk (Some (inject_Z t)) (Some 50)
                             (Some (10 # 1)) (Some (1013 # 1)) (Some 3)))
       | None => inl "invalid character"
       end.

Definition decodeGeo (body : string) : string + geoResponse.t :=
  if String.eqb body "paris" then inr (geoResponse.mk [paris])
  else if String.eqb body "none" then inr (geoResponse.mk [])
  else inl "invalid character".

(** A daily block whose [TempMin] and [WindMax] arrays are missing. *)
Definition shortDaily : dailyRaw.t :=
  dailyRaw.mk ["2024-06-01"] [0] [21 # 1] [] [] [10] [] [].

Definition decodeForecast (body : string) : string + forecastRaw.t :=
  if String.eqb body "sample" then inr sampleForecast
  else if String.eqb body "short"
  then inr (forecastRaw.mk sampleCurrent shortDaily sampleHourly)
  else inl "invalid character".

(** Networks: one that cannot be reached, and one that answers every
    request with status 200 and the given body after [fails] attempts. *)
Definition unreachable : Client :=
  {| HTTP := fun _ _ => NetError "connection refused" |}.

Definition answering (fails : nat) (body : string -> string) : Client :=
  {| HTTP := fun url k => if (k <? fails)%nat then NetError "timeout"
                          else Response 200 (body url) |}.

Definition runtime (cons : Client) : Runtime :=
  {| Location := unit;
     UTC := tt;
     LoadLocation := fun name => if String.eqb name "UTC" then Some tt else None;
     ParseInLocation := fun _ value _ => parseUTC value;
     Format := fun unix _ _ => clockUTC unix;
     Sprintf_4f := fixed4;
     Sprintf_q := fun s => "'" ++ s ++ "'";
     QueryEscape := fun s => s;
     geo_json := decodeGeo;
     forecast_json := decodeForecast;
     model_json := decodeModel;
     consensusClient := cons |}.

(** [strings.ToLower] on ASCII letters. *)
Definition lowerChar (c : ascii) : ascii :=
  let n := nat_of_ascii c in
  if ((65 <=? n) && (n <=? 90))%nat then ascii_of_nat (n + 32) else c.

Fixpoint lower (s : string) : string :=
  match s with
  | EmptyString => EmptyString
  | String c s' => String (lowerChar c) (lower s')
  end.

Definition sampleInfo : WeatherInfo.t :=
  WeatherInfo.mk "Paris" "France" "FR" "°C" "km/h" (currentDisplay sampleCurrent)
    [] [] SunBar.zero None.

(** The handler stores a report for the [n]-th city at clock reading [n];
    the map is visited in the order of [map_to_list]. *)
Definition store (cache : gmap string Cache.cacheEntry) (n : nat)
    : gmap string Cache.cacheEntry :=
  Cache.cacheSet (map_to_list cache) (Z.of_nat n) (Z.of_nat n)
    (Cache.cacheKey lower ("City" ++ pretty n) "metric") sampleInfo cache.

(** The cache after the first [n] cities were stored. *)
Definition filled (n : nat) : gmap string Cache.cacheEntry :=
  foldl store ∅ (seq 0 n).

(** The runtime of the examples: UTC, with a consensus network that
    cannot be reached. *)
Definition offline : Runtime := runtime unreachable.

(** Thirty days of June at midnight. *)
Definition juneMidnights : hourlyRaw.t :=
  hourlyRaw.mk ((fun d => "2024-06-" ++ pad2 (Z.of_nat d) ++ "T00:00") <$> seq 1 30)
    [] [] [] [].

Definition online : Runtime := runtime (answering 1 (fun _ => "12")).

Definition primary : Client :=
  answering 0 (fun url => if String.prefix geoURL url then "paris" else "sample").

End Fixture.

(** ** More samples for the examples *)

Module Samples.
Import Fixture.

(** Two models answer, one does not. *)
Definition threeReadings : list ModelReading.t :=
  [ModelReading.mk "ECMWF" (101 # 10) 50 0%Q 0%Q 0 true "";
   ModelReading.mk "ICON" 0%Q 0 0%Q 0%Q 0 false "timeout";
   ModelReading.mk "MET Norway" (124 # 10) 60 0%Q 0%Q 0 true ""].

Definition oneReading : ModelReading.t :=
  ModelReading.mk "ECMWF" (101 # 10) 50 (12 # 1) (1013 # 1) 3 true "".

(** Nominatim answers: an address with a village, and a display name that
    begins with a comma. *)
Definition decodeReverse (body : string) : string + reverseResult.t :=
  if String.eqb body "village"
  then inr (reverseResult.mk "Croix-Rousse, Lyon, France"
              (reverseAddress.mk "" "" "Croix-Rousse" "" "Rhône"))
  else if String.eqb body "comma"
  then inr (reverseResult.mk ", France" reverseAddress.zero)
  else inl "invalid character".

(** ["%.6f"], truncating *)
Definition fixed6 (x : Q) : string := fixed4 x ++ "00".

(** [strings.TrimSpace] on a value without surrounding space. *)
Definition trimmed (s : string) : string := s.

(** One request for Paris in metric units on the empty cache, at clock
    reading 0. *)
Definition parisRequest
    : outcome (Web.response * gmap string Cache.cacheEntry) :=
  @Web.handler online lower trimmed primary [] 0 0 0 0 "GET" "Paris" "metric" ∅.

Definition parisAnswer : outcome (Web.response * gmap string Cache.cacheEntry) :=
  Eval vm_compute in parisRequest.

Definition emptyPage : Web.PageData.t := Web.PageData.mk "" "" None [] "" "" "".

Definition parisPage : Web.PageData.t :=
  Eval vm_compute in
    match parisAnswer with
    | Ret (Web.Page _ data, _) => data
    | _ => emptyPage
    end.


Definition parisReport : WeatherInfo.t :=
  Eval vm_compute in default sampleInfo (Web.PageData.Info parisPage).

End Samples.

(** * Properties *)

(** ** Slices and the outcome monad *)

Lemma index_Ret {A} (s : list A) (i : Z) :
  0 <= i < len s -> exists a, index s i = Ret a /\ s !! Z.to_nat i = Some a.
Proof.
  intros [Hlo Hhi]. unfold index, len in *.
  destruct (i <? 0) eqn:E; [lia|].
  destruct (s !! Z.to_nat i) as [a|] eqn:L; [eauto|].
  apply lookup_ge_None in L. lia.
Qed.

Lemma index_Panic {A} (s : list A) (i : Z) :
  len s <= i -> index s i = Panic (index_msg i (length s)).
Proof.
  intros Hi. unfold index, len in *.
  destruct (i <? 0); [done|].
  rewrite (proj2 (lookup_ge_None s (Z.to_nat i))); [done|lia].
Qed.

Lemma bind_Ret_inv {A B} (m : outcome A) (f : A -> outcome B) (b : B) :
  m ≫= f = Ret b -> exists a, m = Ret a /\ f a = Ret b.
Proof. destruct m as [a| |]; [by exists a|done..]. Qed.

Lemma bind_Ret {A B} (a : A) (f : A -> outcome B) : Ret a ≫= f = f a.
Proof. reflexivity. Qed.

Lemma bind_Panic {A B} (msg : string) (f : A -> outcome B) :
  Panic msg ≫= f = Panic msg.
Proof. reflexivity. Qed.

(** ** WindCompass *)

Lemma WindCompass_idx_eq (deg : Z) :
  WindCompass_idx deg = Z.rem (int_of_float ((float_of_int deg + (45 # 2)) / 45)) 8
  /\ Qtrunc ((float_of_int deg + (45 # 2)) / 45) = Z.quot (deg * 2 + 45) 90.
Proof.
  split; [reflexivity|].
  unfold Qtrunc, float_of_int, Qdiv, Qmult, Qplus, Qinv, inject_Z. simpl.
  f_equal. lia.
Qed.

(** From -67 degrees upward the index is in bounds and a label comes out. *)
Lemma WindCompass_in_range (deg : Z) :
  -67 <= deg -> exists d, WindCompass deg = Ret d /\ d ∈ dirs.
Proof.
  intros Hdeg. unfold WindCompass.
  assert (Hidx : 0 <= WindCompass_idx deg < 8).
  { destruct (WindCompass_idx_eq deg) as [-> Ht].
    unfold int_of_float, int_rem. rewrite Ht.
    assert (0 <= Z.quot (deg * 2 + 45) 90).
    { destruct (Z_le_gt_dec 0 (deg * 2 + 45)).
      - apply Z.quot_pos; lia.
      - assert (Z.quot (deg * 2 + 45) 90 = 0) as ->; [|lia].
        apply Z.quot_small_iff; lia. }
    destruct ((MinInt64 <=? _) && (_ <=? MaxInt64)).
    - apply Z.rem_bound_pos; lia.
    - replace (Z.rem MinInt64 8) with 0 by reflexivity. lia. }
  destruct (index_Ret dirs (WindCompass_idx deg)) as (d & -> & Hd).
  { unfold len. simpl. lia. }
  exists d. split; [done|]. by eapply list_elem_of_lookup_2.
Qed.

(** C10, evaluated at a negative direction: -90 degrees gives index -1,
    and the array access [dirs[idx]] panics instead of yielding one of
    the eight labels. *)
Theorem WindCompass_negative_degree_panics :
  WindCompass_idx (-90) = -1
  /\ WindCompass (-90) = Panic "index out of range [-1] with length 8".
Proof. split; reflexivity. Qed.

(** ** The daily loop *)

Lemma forecastLoop_aligned (d : dailyRaw.t) (times : list string) :
  forall (i : Z) (forecast : list ForecastDay.t),
    0 <= i ->
    let m := Z.min (i + len times)
               (Z.min (len (dailyRaw.WeatherCode d)) (len (dailyRaw.TempMax d))) in
    m <= len (dailyRaw.TempMin d) -> m <= len (dailyRaw.WindMax d) ->
    exists days,
      forecastLoop d i times forecast = Ret (forecast ++ days)%list
      /\ len days = Z.max 0 (m - i).
Proof.
  induction times as [|date rest IH]; intros i forecast Hi m Hmin Hwind;
    cbn [forecastLoop].
  - exists []. rewrite app_nil_r. split; [done|]. subst m. unfold len in *.
    cbn [length]. lia.
  - subst m. unfold len in Hmin, Hwind. simpl length in *.
    destruct (_ || _) eqn:Eguard.
    + exists []. rewrite app_nil_r. split; [done|].
      apply orb_true_iff in Eguard as [E|E]; apply Z.leb_le in E;
        unfold len in *; cbn [length]; lia.
    + apply orb_false_iff in Eguard as [E1 E2].
      apply Z.leb_gt in E1, E2. unfold len in E1, E2.
      assert (Hprecip : exists pp,
                (if i <? len (dailyRaw.PrecipProbMax d)
                 then index (dailyRaw.PrecipProbMax d) i else Ret 0) = Ret pp).
      { destruct (i <? len _) eqn:E; [|by eexists].
        apply Z.ltb_lt in E.
        destruct (index_Ret (dailyRaw.PrecipProbMax d) i) as (pp & -> & _); eauto. }
      destruct Hprecip as [pp ->].
      destruct (index_Ret (dailyRaw.WeatherCode d) i) as (wc & -> & _);
        [unfold len; lia|].
      destruct (index_Ret (dailyRaw.TempMax d) i) as (tmax & -> & _);
        [unfold len; lia|].
      destruct (index_Ret (dailyRaw.TempMin d) i) as (tmin & -> & _);
        [unfold len; lia|].
      destruct (index_Ret (dailyRaw.WindMax d) i) as (wmax & -> & _);
        [unfold len; lia|].
      rewrite !bind_Ret.
      destruct (IH (i + 1)
                  (forecast ++ [ForecastDay.mk date (WMODescription wc) (WMOIconClass wc)
                                  tmax tmin wmax pp])%list)
        as (days & -> & Hlen); [lia|unfold len; lia|unfold len; lia|].
      eexists (_ :: days). rewrite <- app_assoc. split; [done|].
      unfold len in *. simpl length. lia.
Qed.

(** With [TempMin] and [WindMax] at least as long as the guards demand,
    the loop stops early and silently. *)
Lemma buildForecast_aligned (d : dailyRaw.t) :
  guardedDays d <= len (dailyRaw.TempMin d) ->
  guardedDays d <= len (dailyRaw.WindMax d) ->
  exists days, buildForecast d = Ret days /\ len days = guardedDays d.
Proof.
  intros Hmin Hwind. unfold buildForecast, guardedDays in *.
  destruct (forecastLoop_aligned d (dailyRaw.Time d) 0 []) as (days & -> & Hlen);
    [lia|lia|lia|].
  exists days. split; [done|]. unfold len in *. lia.
Qed.

Lemma forecastLoop_misaligned (d : dailyRaw.t) (times : list string) :
  forall (i : Z) (forecast : list ForecastDay.t),
    0 <= i ->
    let m := Z.min (i + len times)
               (Z.min (len (dailyRaw.WeatherCode d)) (len (dailyRaw.TempMax d))) in
    i <= len (dailyRaw.TempMin d) -> i <= len (dailyRaw.WindMax d) ->
    len (dailyRaw.TempMin d) < m \/ len (dailyRaw.WindMax d) < m ->
    is_Panic (forecastLoop d i times forecast) = true.
Proof.
  induction times as [|date rest IH]; intros i forecast Hi m Hmin Hwind Hshort;
    cbn [forecastLoop].
  - subst m. unfold len in *. cbn [length] in *. lia.
  - subst m. unfold len in Hmin, Hwind, Hshort. simpl length in *.
    destruct (_ || _) eqn:Eguard.
    + apply orb_true_iff in Eguard as [E|E]; apply Z.leb_le in E;
        unfold len in E; lia.
    + apply orb_false_iff in Eguard as [E1 E2].
      apply Z.leb_gt in E1, E2. unfold len in E1, E2.
      assert (Hprecip : exists pp,
                (if i <? len (dailyRaw.PrecipProbMax d)
                 then index (dailyRaw.PrecipProbMax d) i else Ret 0) = Ret pp).
      { destruct (i <? len _) eqn:E; [|by eexists].
        apply Z.ltb_lt in E.
        destruct (index_Ret (dailyRaw.PrecipProbMax d) i) as (pp & -> & _); eauto. }
      destruct Hprecip as [pp ->].
      destruct (index_Ret (dailyRaw.WeatherCode d) i) as (wc & -> & _);
        [unfold len; lia|].
      destruct (index_Ret (dailyRaw.TempMax d) i) as (tmax & -> & _);
        [unfold len; lia|].
      rewrite !bind_Ret.
      destruct (Z_lt_le_dec i (len (dailyRaw.TempMin d))) as [Hlt|Hge].
      * destruct (index_Ret (dailyRaw.TempMin d) i) as (tmin & -> & _); [lia|].
        rewrite bind_Ret.
        destruct (Z_lt_le_dec i (len (dailyRaw.WindMax d))) as [Hlt'|Hge'].
        -- destruct (index_Ret (dailyRaw.WindMax d) i) as (wmax & -> & _); [lia|].
           rewrite bind_Ret. apply IH; unfold len in *; lia.
        -- by rewrite (index_Panic (dailyRaw.WindMax d) i Hge').
      * by rewrite (index_Panic (dailyRaw.TempMin d) i Hge).
Qed.

(** Otherwise an index expression panics. *)
Lemma buildForecast_misaligned (d : dailyRaw.t) :
  len (dailyRaw.TempMin d) < guardedDays d \/ len (dailyRaw.WindMax d) < guardedDays d ->
  is_Panic (buildForecast d) = true.
Proof.
  intros Hshort. unfold buildForecast, guardedDays in *.
  apply forecastLoop_misaligned; unfold len in *; lia.
Qed.

(** C1, evaluated at a daily block whose [TempMin] and [WindMax] arrays
    are shorter than [Time], [WeatherCode] and [TempMax]: the loop does not
    stop early, it reads [TempMin[0]] out of bounds and panics. *)
Theorem buildForecast_short_TempMin_panics :
  buildForecast (dailyRaw.mk ["2024-06-01"] [0] [21 # 1] [] [] [10] [] [])
  = Panic "index out of range [0] with length 0"
  /\ guardedDays (dailyRaw.mk ["2024-06-01"] [0] [21 # 1] [] [] [10] [] []) = 1.
Proof. split; reflexivity. Qed.

(** ** float64 comparisons and durations *)

Lemma float_lt_spec (x y : Q) : float_lt x y = true <-> (x < y)%Q.
Proof.
  unfold float_lt. rewrite negb_true_iff. split.
  - intros Hb. apply Qnot_le_lt. intros Hle.
    apply Qle_bool_iff in Hle. congruence.
  - intros Hlt. destruct (Qle_bool y x) eqn:E; [|done].
    apply Qle_bool_iff in E. exfalso. by eapply Qlt_not_le.
Qed.

Lemma float_lt_false (x y : Q) : float_lt x y = false <-> (y <= x)%Q.
Proof.
  unfold float_lt. rewrite negb_false_iff. apply Qle_bool_iff.
Qed.

Lemma float_gt_spec (x y : Q) : float_gt x y = true <-> (y < x)%Q.
Proof. apply float_lt_spec. Qed.

Lemma Minutes_exact (d : Z) : (Minutes d == inject_Z d / inject_Z Minute)%Q.
Proof.
  unfold Minutes, float_of_int.
  rewrite (Z.quot_rem' d Minute) at 3.
  rewrite inject_Z_plus, inject_Z_mult.
  change (60 * inject_Z Second)%Q with (inject_Z Minute).
  field. discriminate.
Qed.

Lemma Minutes_pos (d : Z) : (0 < Minutes d)%Q <-> 0 < d.
Proof.
  rewrite Minutes_exact. split.
  - intros Hd.
    destruct (Z_lt_le_dec 0 d) as [|Hle]; [done|]. exfalso.
    apply (Qlt_not_le _ _ Hd).
    apply Qle_shift_div_r; [reflexivity|].
    rewrite Qmult_0_l. change 0%Q with (inject_Z 0). by rewrite <- Zle_Qle.
  - intros Hd. apply Qlt_shift_div_l; [reflexivity|].
    rewrite Qmult_0_l. change 0%Q with (inject_Z 0). by rewrite <- Zlt_Qlt.
Qed.

Lemma Minutes_mono (d d' : Z) : d <= d' -> (Minutes d <= Minutes d')%Q.
Proof.
  intros Hd. rewrite !Minutes_exact.
  apply Qmult_le_compat_r.
  - by rewrite <- Zle_Qle.
  - discriminate.
Qed.

Lemma Minutes_neg (d : Z) : d < 0 -> (Minutes d < 0)%Q.
Proof.
  intros Hd. rewrite Minutes_exact.
  apply Qlt_shift_div_r; [reflexivity|].
  rewrite Qmult_0_l. change 0%Q with (inject_Z 0). by rewrite <- Zlt_Qlt.
Qed.

(** ** The sun bar *)

Section SunBarProperties.
Context `{rt : Runtime}.

Lemma Sub_pos (t u : Time.t) : 0 < Sub t u <-> Time.unix u < Time.unix t.
Proof.
  unfold Sub, minDuration, maxDuration, MinInt64, MaxInt64, Second.
  repeat case_match; lia.
Qed.

Lemma Sub_neg (t u : Time.t) : Sub t u < 0 <-> Time.unix t < Time.unix u.
Proof.
  unfold Sub, minDuration, maxDuration, MinInt64, MaxInt64, Second.
  repeat case_match; lia.
Qed.

Lemma Sub_mono (t t' u : Time.t) :
  Time.unix t <= Time.unix t' -> Sub t u <= Sub t' u.
Proof.
  unfold Sub, minDuration, maxDuration, MinInt64, MaxInt64, Second.
  intros Hle. repeat case_match; lia.
Qed.

(** Within the range of a [Duration], [Sub] is the exact difference. *)
Lemma Sub_exact (t u : Time.t) :
  minDuration <= (Time.unix t - Time.unix u) * Second <= maxDuration ->
  Sub t u = (Time.unix t - Time.unix u) * Second.
Proof.
  unfold Sub. intros H. repeat case_match; lia.
Qed.

Lemma positionPct_range (daylightMins : Q) (now sunrise : Time.t) :
  (0 <= positionPct daylightMins now sunrise
   /\ positionPct daylightMins now sunrise <= 100)%Q.
Proof.
  unfold positionPct, Max, Min. destruct (float_gt daylightMins 0).
  - split; [apply Q.le_max_l|].
    apply Q.max_lub; [discriminate|apply Q.le_min_l].
  - split; [apply Qle_refl|discriminate].
Qed.

Lemma positionPct_before (daylightMins : Q) (now sunrise : Time.t) :
  Time.unix now < Time.unix sunrise ->
  (positionPct daylightMins now sunrise == 0)%Q.
Proof.
  intros Hlt. unfold positionPct, Max, Min.
  destruct (float_gt daylightMins 0) eqn:E; [|reflexivity].
  apply float_gt_spec in E.
  assert (Hel : (Minutes (Sub now sunrise) < 0)%Q)
    by (apply Minutes_neg, Sub_neg, Hlt).
  assert (Hq : (Minutes (Sub now sunrise) / daylightMins < 0)%Q).
  { apply Qlt_shift_div_r; [done|]. by rewrite Qmult_0_l. }
  apply Q.max_l.
  apply Qle_trans with (Minutes (Sub now sunrise) / daylightMins * 100)%Q;
    [apply Q.le_min_r|lra].
Qed.

Lemma positionPct_after (now sunrise sunset : Time.t) :
  Time.unix sunrise < Time.unix sunset ->
  Time.unix sunset < Time.unix now ->
  (positionPct (Minutes (Sub sunset sunrise)) now sunrise == 100)%Q.
Proof.
  intros Hday Hlt. unfold positionPct, Max, Min.
  assert (Hd : (0 < Minutes (Sub sunset sunrise))%Q)
    by (apply Minutes_pos, Sub_pos, Hday).
  rewrite (proj2 (float_gt_spec _ _) Hd).
  assert (Hq : (1 <= Minutes (Sub now sunrise) / Minutes (Sub sunset sunrise))%Q).
  { apply Qle_shift_div_l; [done|]. rewrite Qmult_1_l.
    apply Minutes_mono, Sub_mono. lia. }
  rewrite Q.min_l by lra. apply Q.max_r. discriminate.
Qed.

(** C3 (amended): the day flag is true exactly when now lies strictly
    between sunrise and sunset; it is false when now equals sunrise and
    when now equals sunset. *)
Theorem IsDay_strictly_between (currentTimeStr sunriseStr sunsetStr timezone : string) :
  let tz := loadLocationOrUTC timezone in
  let sunrise := Time.unix (parseOrZero tz sunriseStr) in
  let sunset := Time.unix (parseOrZero tz sunsetStr) in
  let now := Time.unix (parseOrZero tz currentTimeStr) in
  let isDay := SunBar.IsDay (buildSunBar currentTimeStr sunriseStr sunsetStr timezone) in
  (isDay = true <-> sunrise < now < sunset)
  /\ (now = sunrise -> isDay = false)
  /\ (now = sunset -> isDay = false).
Proof.
  intros tz sunrise sunset now isDay.
  assert (Hiff : isDay = true <-> sunrise < now < sunset).
  { subst isDay. unfold buildSunBar. simpl. unfold After, Before.
    rewrite andb_true_iff, !Z.ltb_lt. reflexivity. }
  split; [exact Hiff|].
  split; intros Heq; destruct isDay; try reflexivity;
    destruct (proj1 Hiff eq_refl); lia.
Qed.

(** C7: the sun-position percentage lies in [0,100]; with positive
    daylight it is the elapsed share of daylight times 100, clamped; with
    zero or negative daylight it is 0; before sunrise it is 0, and on a day
    of positive length it is 100 after sunset. *)
Theorem SunPositionPct_clamped (currentTimeStr sunriseStr sunsetStr timezone : string) :
  let tz := loadLocationOrUTC timezone in
  let sunrise := parseOrZero tz sunriseStr in
  let sunset := parseOrZero tz sunsetStr in
  let now := parseOrZero tz currentTimeStr in
  let daylight := Minutes (Sub sunset sunrise) in
  let elapsed := Minutes (Sub now sunrise) in
  let pct := SunBar.SunPositionPct
               (buildSunBar currentTimeStr sunriseStr sunsetStr timezone) in
  (0 <= pct /\ pct <= 100)%Q
  /\ ((0 < daylight)%Q -> pct = Qmax 0 (Qmin 100 (elapsed / daylight * 100)))
  /\ ((daylight <= 0)%Q -> pct = 0%Q)
  /\ (Time.unix sunset <= Time.unix sunrise -> pct = 0%Q)
  /\ (Time.unix now < Time.unix sunrise -> (pct == 0)%Q)
  /\ (Time.unix sunrise < Time.unix sunset -> Time.unix sunset < Time.unix now ->
      (pct == 100)%Q)
  /\ (Time.unix sunrise < Time.unix sunset ->
      minDuration <= (Time.unix sunset - Time.unix sunrise) * Second <= maxDuration ->
      minDuration <= (Time.unix now - Time.unix sunrise) * Second <= maxDuration ->
      (elapsed / daylight * 100
       == inject_Z (Time.unix now - Time.unix sunrise)
          / inject_Z (Time.unix sunset - Time.unix sunrise) * 100)%Q).
Proof.
  intros tz sunrise sunset now daylight elapsed pct.
  assert (Hpct : pct = positionPct daylight now sunrise) by reflexivity.
  assert (Hzero : (daylight <= 0)%Q -> pct = 0%Q).
  { intros Hd. rewrite Hpct. unfold positionPct, float_gt.
    by rewrite (proj2 (float_lt_false _ _) Hd). }
  repeat split.
  - rewrite Hpct. apply positionPct_range.
  - rewrite Hpct. apply positionPct_range.
  - intros Hd. rewrite Hpct. unfold positionPct.
    by rewrite (proj2 (float_gt_spec _ _) Hd).
  - exact Hzero.
  - intros Hle. apply Hzero. apply Qnot_lt_le. intros Hd.
    apply Minutes_pos, Sub_pos in Hd. lia.
  - intros Hlt. rewrite Hpct. by apply positionPct_before.
  - intros Hday Hlt. rewrite Hpct. by apply positionPct_after.
  - intros Hday Hd He. subst daylight elapsed.
    rewrite !Minutes_exact, !Sub_exact by done.
    rewrite !inject_Z_mult.
    assert (~ (inject_Z (Time.unix sunset - Time.unix sunrise) == 0)%Q).
    { change 0%Q with (inject_Z 0). rewrite inject_Z_injective. lia. }
    field. repeat split; [done|discriminate|discriminate].
Qed.

End SunBarProperties.

(** ** The gateway *)

Section Gateway.
Context {T : Type} `{Unmarshal T}.

Lemma getJSON_unfold (c : Client) (url : string) (v : T) :
  getJSON c url v =
  match HTTP c url 0 with
  | Response status body => ([EvGet url], getJSON_respond v status body)
  | NetError _ =>
      ([EvGet url; EvSleep (1 * Second); EvGet url],
       match HTTP c url 1 with
       | Response status body => getJSON_respond v status body
       | NetError msg => (Some ("request failed: " ++ msg), v)
       end)
  end.
Proof.
  unfold getJSON, maxAttempts. simpl.
  destruct (HTTP c url 0); [|reflexivity].
  destruct (HTTP c url 1); reflexivity.
Qed.

Lemma getJSON_respond_error_nonempty (v : T) (status : Z) (body e : string) :
  (getJSON_respond v status body).1 = Some e -> e <> "".
Proof.
  unfold getJSON_respond. destruct (negb (status =? StatusOK)).
  - simpl. intros [= <-]. discriminate.
  - destruct (Decode body); simpl; [|discriminate]. intros [= <-]. discriminate.
Qed.

(** An error returned by [getJSON] has a non-empty message. *)
Lemma getJSON_error_nonempty (c : Client) (url : string) (v : T) (e : string) :
  (getJSON c url v).2.1 = Some e -> e <> "".
Proof.
  rewrite getJSON_unfold. destruct (HTTP c url 0); simpl.
  - destruct (HTTP c url 1); simpl.
    + intros [= <-]. discriminate.
    + apply getJSON_respond_error_nonempty.
  - apply getJSON_respond_error_nonempty.
Qed.

(** C8: [getJSON] sends at most two requests.  A response to the first
    request ends the call at once, whatever its status and body: a status
    other than 200 (so every non-2xx status) and a body that fails to
    decode are returned as errors without another request.  Only a
    network-level failure of the first request is retried, once, after a
    pause of one second, and the second request ends the call either
    way. *)
Theorem getJSON_retries_once_on_network_failure (c : Client) (url : string) (v : T) :
  let r := getJSON c url v in
  (attempts r.1 <= 2)%nat
  /\ (forall status body, HTTP c url 0 = Response status body ->
        r = ([EvGet url], getJSON_respond v status body))
  /\ (forall msg status body,
        HTTP c url 0 = NetError msg -> HTTP c url 1 = Response status body ->
        r = ([EvGet url; EvSleep (1 * Second); EvGet url],
             getJSON_respond v status body))
  /\ (forall msg msg',
        HTTP c url 0 = NetError msg -> HTTP c url 1 = NetError msg' ->
        r = ([EvGet url; EvSleep (1 * Second); EvGet url],
             (Some ("request failed: " ++ msg'), v)))
  /\ (forall status body, ~ (200 <= status < 300) ->
        getJSON_respond v status body
        = (Some ("API error " ++ pretty status ++ ": " ++ String.substring 0 512 body), v))
  /\ (forall status body, 200 <= status < 300 -> status <> 200 ->
        getJSON_respond v status body
        = (Some ("API error " ++ pretty status ++ ": " ++ String.substring 0 512 body), v))
  /\ (forall body e, Decode body = inl e ->
        getJSON_respond v 200 body = (Some ("decode failed: " ++ e), v))
  /\ (forall body v', Decode body = inr v' ->
        getJSON_respond v 200 body = (None, v')).
Proof.
  intros r. subst r. rewrite getJSON_unfold.
  assert (Hnot200 : forall status body, status <> 200 ->
            getJSON_respond v status body
            = (Some ("API error " ++ pretty status ++ ": "
                     ++ String.substring 0 512 body), v)).
  { intros status body Hs. unfold getJSON_respond, StatusOK.
    by rewrite (proj2 (Z.eqb_neq status 200) Hs). }
  repeat split.
  - destruct (HTTP c url 0); simpl; lia.
  - by intros status body ->.
  - by intros msg status body -> ->.
  - by intros msg msg' -> ->.
  - intros status body Hs. apply Hnot200. lia.
  - intros status body _ Hs. by apply Hnot200.
  - intros body e He. unfold getJSON_respond. simpl. by rewrite He.
  - intros body v' Hv. unfold getJSON_respond. simpl. by rewrite Hv.
Qed.

End Gateway.

(** ** Consensus statistics *)

(** *** Rounding *)

Lemma Round_comp (x y : Q) : (x == y)%Q -> Round x = Round y.
Proof.
  intros Hxy. unfold Round.
  assert (Hb : Qle_bool 0 x = Qle_bool 0 y).
  { apply eq_true_iff_eq. rewrite !Qle_bool_iff. by rewrite Hxy. }
  rewrite Hb. destruct (Qle_bool 0 y); f_equal.
  - apply Qfloor_comp. by rewrite Hxy.
  - apply Qceiling_comp. by rewrite Hxy.
Qed.

Lemma Round_inject_Z (z : Z) : Round (inject_Z z) = inject_Z z.
Proof.
  unfold Round. f_equal. destruct (Qle_bool 0 (inject_Z z)).
  - apply Z.le_antisymm.
    + assert (Qfloor (inject_Z z + (1 # 2)) < z + 1); [|lia].
      rewrite Zlt_Qlt. eapply Qle_lt_trans; [apply Qfloor_le|].
      rewrite inject_Z_plus. change (inject_Z 1) with 1%Q. lra.
    + apply Z.le_trans with (Qfloor (inject_Z z)); [by rewrite Qfloor_Z|].
      apply Qfloor_resp_le. lra.
  - apply Z.le_antisymm.
    + apply Z.le_trans with (Qceiling (inject_Z z)); [|by rewrite Qceiling_Z].
      apply Qceiling_resp_le. lra.
    + assert (z - 1 < Qceiling (inject_Z z - (1 # 2))); [|lia].
      rewrite Zlt_Qlt. eapply Qlt_le_trans; [|apply Qle_ceiling].
      unfold Z.sub. rewrite inject_Z_plus, inject_Z_opp.
      change (inject_Z 1) with 1%Q. lra.
Qed.

Lemma Round_mono (x y : Q) : (x <= y)%Q -> (Round x <= Round y)%Q.
Proof.
  intros Hxy. unfold Round. rewrite <- Zle_Qle.
  destruct (Qle_bool 0 x) eqn:Ex, (Qle_bool 0 y) eqn:Ey.
  - apply Qfloor_resp_le. lra.
  - apply Qle_bool_iff in Ex.
    assert (~ (0 <= y)%Q) by (rewrite <- Qle_bool_iff; congruence). lra.
  - apply Qle_bool_iff in Ey.
    assert (Hx : ~ (0 <= x)%Q) by (rewrite <- Qle_bool_iff; congruence).
    apply Z.le_trans with 0.
    + change 0 with (Qceiling 0). apply Qceiling_resp_le. lra.
    + change 0 with (Qfloor 0). apply Qfloor_resp_le. lra.
  - apply Qceiling_resp_le. lra.
Qed.

Lemma Round_nonneg (x : Q) : (0 <= x)%Q -> (0 <= Round x)%Q.
Proof.
  intros Hx. change 0%Q with (Round 0). by apply Round_mono.
Qed.

Lemma round1_mono (x y : Q) : (x <= y)%Q -> (round1 x <= round1 y)%Q.
Proof.
  intros Hxy. unfold round1.
  apply Qmult_le_compat_r; [|discriminate].
  apply Round_mono. lra.
Qed.

Lemma round1_nonneg (x : Q) : (0 <= x)%Q -> (0 <= round1 x)%Q.
Proof.
  intros Hx. unfold round1.
  apply Qle_shift_div_l; [reflexivity|]. rewrite Qmult_0_l.
  apply Round_nonneg. lra.
Qed.

(** *** Conversions to int *)

Lemma wrap64_id (z : Z) : MinInt64 <= z <= MaxInt64 -> wrap64 z = z.
Proof.
  unfold wrap64, MinInt64, MaxInt64. intros Hz.
  rewrite Z.mod_small; lia.
Qed.

Lemma Qtrunc_nonneg (x : Q) : (0 <= x)%Q -> Qtrunc x = Qfloor x /\ 0 <= Qtrunc x.
Proof.
  destruct x as [n d]. unfold Qle, Qtrunc, Qfloor. simpl. intros Hn.
  assert (0 <= n) by lia.
  rewrite Z.quot_div_nonneg by lia. split; [done|].
  apply Z.div_pos; lia.
Qed.

(** *** The agreement score *)

(** For a non-negative spread the score is 100 minus the truncated
    penalty, cut off at 0. *)
Lemma agreePct_nonneg (spread : Q) :
  (0 <= spread)%Q ->
  agreePct spread = Z.max 0 (100 - Qtrunc (spread * 12)).
Proof.
  intros Hs. unfold agreePct, int_sub, int_of_float.
  destruct (Qtrunc_nonneg (spread * 12)) as [_ Ht]; [lra|].
  set (t := Qtrunc (spread * 12)) in *.
  destruct ((MinInt64 <=? t) && (t <=? MaxInt64)) eqn:E.
  - apply andb_true_iff in E as [_ E]. apply Z.leb_le in E.
    rewrite wrap64_id by (unfold MinInt64, MaxInt64 in *; lia).
    destruct (100 - t <? 0) eqn:E'; lia.
  - assert (MaxInt64 < t).
    { apply andb_false_iff in E as [E|E]; apply Z.leb_gt in E;
        unfold MinInt64, MaxInt64 in *; lia. }
    replace (wrap64 (100 - MinInt64)) with (100 - 2 ^ 63) by reflexivity.
    simpl. unfold MaxInt64 in *. lia.
Qed.

Lemma Qceiling_max0 (y : Q) : Qceiling (Qmax 0 y) = Z.max 0 (Qceiling y).
Proof.
  destruct (Qlt_le_dec y 0) as [Hy|Hy].
  - rewrite (Qceiling_comp (Qmax 0 y) 0) by (apply Q.max_l; lra).
    assert (Qceiling y <= Qceiling 0) by (apply Qceiling_resp_le; lra).
    change (Qceiling 0) with 0 in *. lia.
  - rewrite (Qceiling_comp (Qmax 0 y) y) by (apply Q.max_r; lra).
    assert (Qceiling 0 <= Qceiling y) by (apply Qceiling_resp_le; lra).
    change (Qceiling 0) with 0 in *. lia.
Qed.

(** The same score read off the real-valued formula: the clamped value
    of [100 - spread * 12], rounded up to an integer. *)
Lemma agreePct_ceiling (spread : Q) :
  (0 <= spread)%Q ->
  agreePct spread = Qceiling (Qmax 0 (Qmin 100 (100 - spread * 12))).
Proof.
  intros Hs. rewrite agreePct_nonneg by done.
  destruct (Qtrunc_nonneg (spread * 12)) as [-> _]; [lra|].
  rewrite Qceiling_max0. f_equal.
  rewrite (Qceiling_comp _ (100 - spread * 12)) by (apply Q.min_r; lra).
  unfold Qceiling.
  rewrite (Qfloor_comp (- (100 - spread * 12)) (spread * 12 + inject_Z (-100)))
    by (change (inject_Z (-100)) with (-100 # 1); lra).
  assert (Hf : forall (x : Q) (k : Z), Qfloor (x + inject_Z k) = Qfloor x + k).
  { intros [n d] k. unfold Qfloor, Qplus, inject_Z. simpl.
    rewrite Z.mul_1_r, Pos.mul_1_r. apply Z.div_add. lia. }
  rewrite Hf. lia.
Qed.

Lemma agreePct_range (spread : Q) : (0 <= spread)%Q -> 0 <= agreePct spread <= 100.
Proof.
  intros Hs. rewrite agreePct_nonneg by done.
  destruct (Qtrunc_nonneg (spread * 12)) as [_ Ht]; [lra|]. lia.
Qed.

Lemma agreementLabel_spec (pct : Z) :
  (80 <= pct -> agreementLabel pct = "High")
  /\ (50 <= pct < 80 -> agreementLabel pct = "Moderate")
  /\ (pct < 50 -> agreementLabel pct = "Low").
Proof.
  unfold agreementLabel. repeat split; intros Hp.
  - by rewrite (proj2 (Z.leb_le 80 pct)) by lia.
  - rewrite (proj2 (Z.leb_gt 80 pct)) by lia.
    by rewrite (proj2 (Z.leb_le 50 pct)) by lia.
  - rewrite (proj2 (Z.leb_gt 80 pct)) by lia.
    by rewrite (proj2 (Z.leb_gt 50 pct)) by lia.
Qed.

(** *** The accumulation loop *)

Lemma accumulate_unavailable (s : sums) (r : ModelReading.t) :
  ModelReading.Available r = false -> accumulate s r = s.
Proof. intros Hr. unfold accumulate. by rewrite Hr. Qed.

Lemma foldl_accumulate_none (l : list ModelReading.t) (s : sums) :
  Forall (fun r => ModelReading.Available r = false) l ->
  foldl accumulate s l = s.
Proof.
  induction 1 as [|r l Hr _ IH]; simpl; [done|].
  by rewrite accumulate_unavailable.
Qed.

Lemma foldl_accumulate_count (l : list ModelReading.t) (s : sums) :
  count (foldl accumulate s l) = count s + Z.of_nat (length (filter available l)).
Proof.
  revert s. induction l as [|r l IH]; intros s; simpl; [lia|].
  rewrite IH, filter_cons. unfold accumulate.
  destruct (decide (available r)) as [Ha|Ha]; unfold available in Ha.
  - rewrite Ha. simpl. lia.
  - destruct (ModelReading.Available r); [done|]. simpl. lia.
Qed.

Ltac float_cmp :=
  repeat match goal with
  | H : float_gt _ _ = _ |- _ => unfold float_gt in H
  | H : float_lt _ _ = true |- _ => apply float_lt_spec in H
  | H : float_lt _ _ = false |- _ => apply float_lt_false in H
  end.

Lemma accumulate_min_le_max (s : sums) (r : ModelReading.t) :
  ModelReading.Available r = true ->
  (minTemp (accumulate s r) <= maxTemp (accumulate s r))%Q.
Proof.
  intros Hr. unfold accumulate. rewrite Hr. simpl.
  destruct (float_lt _ _) eqn:E1, (float_gt _ _) eqn:E2; float_cmp; lra.
Qed.

Lemma accumulate_keeps_min_le_max (s : sums) (r : ModelReading.t) :
  (minTemp s <= maxTemp s)%Q ->
  (minTemp (accumulate s r) <= maxTemp (accumulate s r))%Q.
Proof.
  intros Hs. destruct (ModelReading.Available r) eqn:Hr.
  - by apply accumulate_min_le_max.
  - by rewrite accumulate_unavailable.
Qed.

Lemma foldl_accumulate_keeps (l : list ModelReading.t) (s : sums) :
  (minTemp s <= maxTemp s)%Q ->
  (minTemp (foldl accumulate s l) <= maxTemp (foldl accumulate s l))%Q.
Proof.
  revert s. induction l as [|r l IH]; intros s Hs; simpl; [done|].
  by apply IH, accumulate_keeps_min_le_max.
Qed.

Lemma foldl_accumulate_min_le_max (l : list ModelReading.t) (s : sums) :
  Exists available l ->
  (minTemp (foldl accumulate s l) <= maxTemp (foldl accumulate s l))%Q.
Proof.
  intros Hex. revert s. induction Hex as [r l Hr|r l _ IH]; intros s; simpl.
  - by apply foldl_accumulate_keeps, accumulate_min_le_max.
  - apply IH.
Qed.

Lemma count_pos (l : list ModelReading.t) :
  Exists available l -> 0 < count (foldl accumulate sums0 l).
Proof.
  intros Hex. rewrite foldl_accumulate_count. simpl.
  apply Exists_exists in Hex as (r & Hin & Hr).
  assert (r ∈ filter available l) as Hf.
  { by apply list_elem_of_filter. }
  destruct (filter available l); [by apply not_elem_of_nil in Hf|]. simpl. lia.
Qed.

Lemma accumulate_extremes (seen : list ModelReading.t) (s : sums) (r : ModelReading.t) :
  extremes seen s -> available r -> finite64 (ModelReading.Temp r) ->
  extremes (seen ++ [r]) (accumulate s r).
Proof.
  intros Hs Hr [Hlo Hhi]. right. unfold accumulate. rewrite Hr. simpl.
  set (t := ModelReading.Temp r) in *.
  assert (Hlast : r ∈ (seen ++ [r])%list)
    by (apply elem_of_app; right; by apply list_elem_of_singleton).
  assert (Hold : forall x, x ∈ seen -> x ∈ (seen ++ [r])%list)
    by (intros x Hx; apply elem_of_app; by left).
  destruct Hs as [(-> & Hmin & Hmax)|((lo & Hlo_in & Hlo_eq) & (hi & Hhi_in & Hhi_eq) & Hb)].
  - rewrite Hmin, Hmax. simpl.
    assert (Hmin' : ((if float_lt t MaxFloat64 then t else MaxFloat64) == t)%Q).
    { destruct (float_lt t MaxFloat64) eqn:E; [reflexivity|].
      apply float_lt_false in E. lra. }
    assert (Hmax' : ((if float_gt t (- MaxFloat64) then t else - MaxFloat64) == t)%Q).
    { unfold float_gt. destruct (float_lt (- MaxFloat64) t) eqn:E; [reflexivity|].
      apply float_lt_false in E. lra. }
    split; [|split].
    + exists r. split; [by apply list_elem_of_singleton|done].
    + exists r. split; [by apply list_elem_of_singleton|done].
    + intros r' Hr'. apply list_elem_of_singleton in Hr' as ->.
      fold t. rewrite Hmin', Hmax'. split; lra.
  - split; [|split].
    + destruct (float_lt t (minTemp s)) eqn:E.
      * exists r. split; [done|reflexivity].
      * exists lo. split; [by apply Hold|done].
    + destruct (float_gt t (maxTemp s)) eqn:E.
      * exists r. split; [done|reflexivity].
      * exists hi. split; [by apply Hold|done].
    + intros r' Hr'.
      assert (Hcase : r' ∈ seen \/ r' = r).
      { apply elem_of_app in Hr' as [?|Hr']; [by left|right].
        by apply list_elem_of_singleton in Hr'. }
      assert (Hr'' : r' = r -> ModelReading.Temp r' = t) by (by intros ->).
      destruct (float_lt t (minTemp s)) eqn:E1, (float_gt t (maxTemp s)) eqn:E2;
        float_cmp;
        (destruct Hcase as [Hin|Heq];
         [specialize (Hb _ Hin)|rewrite (Hr'' Heq)]); split; lra.
Qed.

Lemma foldl_accumulate_extremes (l seen : list ModelReading.t) (s : sums) :
  extremes seen s ->
  Forall (fun r => available r -> finite64 (ModelReading.Temp r)) l ->
  extremes (seen ++ filter available l) (foldl accumulate s l).
Proof.
  revert seen s. induction l as [|r l IH]; intros seen s Hs Hfin; simpl.
  - by rewrite app_nil_r.
  - apply Forall_cons in Hfin as [Hr Hfin]. rewrite filter_cons.
    destruct (decide (available r)) as [Ha|Ha].
    + rewrite (cons_middle r), app_assoc. apply IH; [|done].
      apply accumulate_extremes; auto.
    + rewrite accumulate_unavailable; [by apply IH|].
      unfold available in Ha. by destruct (ModelReading.Available r).
Qed.

Lemma round1_comp (x y : Q) : (x == y)%Q -> round1 x = round1 y.
Proof.
  intros Hxy. unfold round1. f_equal. apply Round_comp. by rewrite Hxy.
Qed.

Lemma consensusStats_some (readings : list ModelReading.t) :
  Exists available readings ->
  let s := foldl accumulate sums0 readings in
  let MinTemp := round1 (minTemp s) in
  let MaxTemp := round1 (maxTemp s) in
  let Spread := round1 (MaxTemp - MinTemp)%Q in
  consensusStats readings =
  {| ConsensusInfo.Models := readings;
     ConsensusInfo.AvailCount := count s;
     ConsensusInfo.AvgTemp := round1 (sumTemp s / float_of_int (count s))%Q;
     ConsensusInfo.AvgHumidity := int_div (sumHumidity s) (count s);
     ConsensusInfo.AvgWind := round1 (sumWind s / float_of_int (count s))%Q;
     ConsensusInfo.AvgPressure := round1 (sumPressure s / float_of_int (count s))%Q;
     ConsensusInfo.MinTemp := MinTemp;
     ConsensusInfo.MaxTemp := MaxTemp;
     ConsensusInfo.Spread := Spread;
     ConsensusInfo.Agreement := agreementLabel (agreePct Spread);
     ConsensusInfo.AgreePct := agreePct Spread |}.
Proof.
  intros Hex. simpl. unfold consensusStats.
  pose proof (count_pos readings Hex) as Hc.
  destruct (count _ =? 0) eqn:E; [|reflexivity].
  apply Z.eqb_eq in E. lia.
Qed.

Lemma consensusStats_none (readings : list ModelReading.t) :
  Forall (fun r => ModelReading.Available r = false) readings ->
  consensusStats readings
  = ConsensusInfo.mk readings 0 0%Q 0 0%Q 0%Q 0%Q 0%Q 0%Q "" 0.
Proof.
  intros Hnone. unfold consensusStats.
  by rewrite foldl_accumulate_none.
Qed.

Lemma consensusStats_Models (readings : list ModelReading.t) :
  ConsensusInfo.Models (consensusStats readings) = readings.
Proof. unfold consensusStats. by destruct (count _ =? 0). Qed.

Lemma AvailCount_pos_available (readings : list ModelReading.t) :
  0 < ConsensusInfo.AvailCount (consensusStats readings) ->
  Exists available readings.
Proof.
  unfold consensusStats. destruct (count _ =? 0); simpl; [lia|].
  rewrite foldl_accumulate_count. simpl. intros Hpos.
  destruct (filter available readings) as [|r l] eqn:E; [simpl in Hpos; lia|].
  assert (Hr : r ∈ filter available readings) by (rewrite E; left).
  apply list_elem_of_filter in Hr as [Hr Hin].
  apply Exists_exists. eauto.
Qed.

(** No model is available exactly when AvailCount is 0. *)
Lemma AvailCount_zero_iff (readings : list ModelReading.t) :
  ConsensusInfo.AvailCount (consensusStats readings) = 0
  <-> Forall (fun r => ModelReading.Available r = false) readings.
Proof.
  split.
  - intros Hzero. apply Forall_forall. intros r Hr.
    destruct (ModelReading.Available r) eqn:Ha; [|done].
    assert (Hex : Exists available readings) by (apply Exists_exists; eauto).
    rewrite (consensusStats_some readings Hex) in Hzero. simpl in Hzero.
    pose proof (count_pos readings Hex). lia.
  - intros Hnone. by rewrite consensusStats_none.
Qed.

(** C4 (amended): when at least one model is available, the agreement
    percentage is 100 minus the integer part of the penalty [spread * 12],
    cut to [0,100]; that is the clamped real value of [100 - spread * 12]
    rounded up to an integer, and equal to it when the penalty is a whole
    number.  Here [spread] is the rounded difference of the rounded
    maximum and minimum temperatures; the label is "High" from 80,
    "Moderate" from 50 and "Low" below.  In particular the readings 10.0
    and 12.0 give MinTemp 10.0, MaxTemp 12.0, Spread 2.0, AvgTemp 11.0,
    AgreePct 76 and "Moderate". *)
Theorem consensus_agreement_from_spread (readings : list ModelReading.t) :
  0 < ConsensusInfo.AvailCount (consensusStats readings) ->
  let cons := consensusStats readings in
  let spread := ConsensusInfo.Spread cons in
  let pct := ConsensusInfo.AgreePct cons in
  ConsensusInfo.AvailCount cons = Z.of_nat (length (filter available readings))
  /\ 0 < ConsensusInfo.AvailCount cons
  /\ spread = round1 (ConsensusInfo.MaxTemp cons - ConsensusInfo.MinTemp cons)%Q
  /\ (ConsensusInfo.MinTemp cons <= ConsensusInfo.MaxTemp cons)%Q
  /\ (0 <= spread)%Q
  /\ pct = Z.max 0 (Z.min 100 (100 - Qtrunc (spread * 12)))
  /\ pct = Qceiling (Qmax 0 (Qmin 100 (100 - spread * 12)))%Q
  /\ (80 <= pct -> ConsensusInfo.Agreement cons = "High")
  /\ (50 <= pct < 80 -> ConsensusInfo.Agreement cons = "Moderate")
  /\ (pct < 50 -> ConsensusInfo.Agreement cons = "Low")
  /\ (Forall (fun r => available r -> finite64 (ModelReading.Temp r)) readings ->
      exists lo hi, lo ∈ filter available readings /\ hi ∈ filter available readings
        /\ (forall r, r ∈ filter available readings ->
              (ModelReading.Temp lo <= ModelReading.Temp r
               /\ ModelReading.Temp r <= ModelReading.Temp hi)%Q)
        /\ ConsensusInfo.MinTemp cons = round1 (ModelReading.Temp lo)
        /\ ConsensusInfo.MaxTemp cons = round1 (ModelReading.Temp hi))
  /\ (let two := consensusStats
                   [ModelReading.mk "ECMWF" 10%Q 50 0%Q 0%Q 0 true "";
                    ModelReading.mk "ICON" 12%Q 50 0%Q 0%Q 0 true ""] in
      (ConsensusInfo.MinTemp two == 10 /\ ConsensusInfo.MaxTemp two == 12
       /\ ConsensusInfo.Spread two == 2 /\ ConsensusInfo.AvgTemp two == 11)%Q
      /\ ConsensusInfo.AgreePct two = 76
      /\ ConsensusInfo.Agreement two = "Moderate").
Proof.
  intros Hpos cons spread pct. subst cons spread pct.
  pose proof (AvailCount_pos_available readings Hpos) as Hex.
  rewrite (consensusStats_some readings Hex). simpl.
  set (s := foldl accumulate sums0 readings).
  assert (Hmm : (round1 (minTemp s) <= round1 (maxTemp s))%Q)
    by (apply round1_mono, foldl_accumulate_min_le_max, Hex).
  assert (Hsp : (0 <= round1 (round1 (maxTemp s) - round1 (minTemp s)))%Q)
    by (apply round1_nonneg; lra).
  pose proof (agreementLabel_spec
                (agreePct (round1 (round1 (maxTemp s) - round1 (minTemp s))%Q)))
    as (Hhigh & Hmod & Hlow).
  split; [subst s; by rewrite foldl_accumulate_count|].
  split; [by apply count_pos|].
  split; [reflexivity|].
  split; [exact Hmm|].
  split; [exact Hsp|].
  split.
  { rewrite agreePct_nonneg by done.
    destruct (Qtrunc_nonneg (round1 (round1 (maxTemp s) - round1 (minTemp s)) * 12)%Q)
      as [_ Ht]; [lra|]. lia. }
  split; [by apply agreePct_ceiling|].
  split; [exact Hhigh|]. split; [exact Hmod|]. split; [exact Hlow|].
  split.
  - intros Hfin.
    destruct (foldl_accumulate_extremes readings [] sums0) as [(Hnil & _)|Hext];
      [left; done|done| |].
    + simpl in Hnil. apply Exists_exists in Hex as (r & Hin & Hr).
      assert (r ∈ filter available readings) as Hf by (by apply list_elem_of_filter).
      rewrite Hnil in Hf. by apply not_elem_of_nil in Hf.
    + simpl in Hext. fold s in Hext.
      destruct Hext as ((lo & Hlo & Hlo_eq) & (hi & Hhi & Hhi_eq) & Hb).
      exists lo, hi.
      split; [done|]. split; [done|]. split; [|split; by apply round1_comp].
      intros r Hr. specialize (Hb _ Hr). rewrite <- Hlo_eq, <- Hhi_eq. apply Hb.
  - vm_compute. repeat split; congruence.
Qed.

(** ** Fetching the models *)

Section ConsensusProperties.
Context `{rt : Runtime}.

Lemma fetchModel_Model (name modelParam : string) (lat lon : float64)
    (timezone tempUnit windUnit : string) :
  ModelReading.Model (fetchModel name modelParam lat lon timezone tempUnit windUnit) = name.
Proof.
  unfold fetchModel.
  by destruct (getJSON _ _ _) as [tr [[e|] [[[t|] [h|] w p code]]]].
Qed.

(** A reading is available exactly when the fetch returned no error and
    the response carries both the temperature and the humidity. *)
Lemma fetchModel_Available (name modelParam : string) (lat lon : float64)
    (timezone tempUnit windUnit : string) :
  let r := getJSON consensusClient
             (modelURL modelParam lat lon timezone tempUnit windUnit)
             modelResponse.zero in
  ModelReading.Available (fetchModel name modelParam lat lon timezone tempUnit windUnit) = true
  <-> r.2.1 = None
      /\ is_Some (modelCurrentRaw.Temp (modelResponse.Current r.2.2))
      /\ is_Some (modelCurrentRaw.Humidity (modelResponse.Current r.2.2)).
Proof.
  unfold fetchModel.
  destruct (getJSON _ _ _) as [tr [[e|] [[[t|] [h|] w p code]]]]; simpl;
    split; try done; try (by intros [? _]); intros (_ & Ht & Hh);
    try (by destruct Ht); by destruct Hh.
Qed.

Lemma fetchModel_unavailable_Err (name modelParam : string) (lat lon : float64)
    (timezone tempUnit windUnit : string) :
  let r := fetchModel name modelParam lat lon timezone tempUnit windUnit in
  ModelReading.Available r = false -> ModelReading.Err r <> "".
Proof.
  unfold fetchModel.
  destruct (getJSON _ _ _) as [tr [[e|] [[[t|] [h|] w p code]]]] eqn:E;
    simpl; try done.
  all: intros _;
    apply (getJSON_error_nonempty consensusClient
             (modelURL modelParam lat lon timezone tempUnit windUnit)
             modelResponse.zero e);
    by rewrite E.
Qed.

Lemma FetchConsensus_Models (c : Client) (lat lon : float64)
    (timezone tempUnit windUnit : string) :
  ConsensusInfo.Models (FetchConsensus c lat lon timezone tempUnit windUnit)
  = fetchReadings lat lon timezone tempUnit windUnit.
Proof. apply consensusStats_Models. Qed.

(** C2 (amended): when no model is available, [FetchConsensus] still
    returns a summary; AvailCount, AvgTemp, AvgWind, AvgPressure, Spread
    and AgreePct are 0, the Models list has one unavailable reading per
    configured model, and Agreement is the empty string. *)
Theorem FetchConsensus_no_model_available (c : Client) (lat lon : float64)
    (timezone tempUnit windUnit : string) :
  Forall (fun r => ModelReading.Available r = false)
    (fetchReadings lat lon timezone tempUnit windUnit) ->
  let cons := FetchConsensus c lat lon timezone tempUnit windUnit in
  ConsensusInfo.AvailCount cons = 0
  /\ ConsensusInfo.AvgTemp cons = 0%Q
  /\ ConsensusInfo.AvgWind cons = 0%Q
  /\ ConsensusInfo.AvgPressure cons = 0%Q
  /\ ConsensusInfo.Spread cons = 0%Q
  /\ ConsensusInfo.AgreePct cons = 0
  /\ ConsensusInfo.Agreement cons = ""
  /\ length (ConsensusInfo.Models cons) = length forecastModels
  /\ Forall (fun r => ModelReading.Available r = false) (ConsensusInfo.Models cons).
Proof.
  intros Hnone cons. subst cons. unfold FetchConsensus.
  rewrite (consensusStats_none _ Hnone). simpl.
  repeat split; done.
Qed.

(** C9: [FetchConsensus] always returns a summary whose Models list has
    one reading per configured model, four, in configuration order and
    under the model's name; a reading that is not available carries a
    non-empty Err; and a report returned by [GetWeather] carries a
    consensus summary (the pointer is not nil) of that shape. *)
Theorem FetchConsensus_one_reading_per_model (c : Client) (lat lon : float64)
    (timezone tempUnit windUnit : string) :
  let cons := FetchConsensus c lat lon timezone tempUnit windUnit in
  length (ConsensusInfo.Models cons) = 4%nat
  /\ length (ConsensusInfo.Models cons) = length forecastModels
  /\ ModelReading.Model <$> ConsensusInfo.Models cons
     = ["ECMWF"; "ICON"; "Météo-France"; "MET Norway"]
  /\ ModelReading.Model <$> ConsensusInfo.Models cons = forecastModels.*1
  /\ Forall (fun r => ModelReading.Available r = false -> ModelReading.Err r <> "")
       (ConsensusInfo.Models cons)
  /\ (forall city units info,
        GetWeather c city units = Ret info ->
        exists cons',
          WeatherInfo.Consensus info = Some cons'
          /\ ModelReading.Model <$> ConsensusInfo.Models cons' = forecastModels.*1
          /\ Forall (fun r => ModelReading.Available r = false -> ModelReading.Err r <> "")
               (ConsensusInfo.Models cons')).
Proof.
  assert (Hnames : forall la lo tz tu wu,
            ModelReading.Model <$> fetchReadings la lo tz tu wu = forecastModels.*1).
  { intros. unfold fetchReadings, forecastModels. simpl.
    by rewrite !fetchModel_Model. }
  assert (Herr : forall la lo tz tu wu,
            Forall (fun r => ModelReading.Available r = false -> ModelReading.Err r <> "")
              (fetchReadings la lo tz tu wu)).
  { intros. unfold fetchReadings, forecastModels. simpl.
    repeat constructor; apply fetchModel_unavailable_Err. }
  intros cons. subst cons. rewrite FetchConsensus_Models.
  split; [reflexivity|]. split; [reflexivity|].
  split; [apply Hnames|]. split; [apply Hnames|]. split; [apply Herr|].
  intros city units info Hget. unfold GetWeather in Hget.
  apply bind_Ret_inv in Hget as (loc & _ & Hget).
  destruct (String.eqb units "imperial");
    destruct (getJSON c _ forecastRaw.zero) as [tr [[e|] raw]]; try done;
    apply bind_Ret_inv in Hget as (forecast & _ & Hget);
    apply bind_Ret_inv in Hget as (sun & _ & Hget);
    apply bind_Ret_inv in Hget as (hourly & _ & Hget);
    injection Hget as <-; simpl; eexists; (split; [reflexivity|]);
    rewrite FetchConsensus_Models; (split; [apply Hnames|apply Herr]).
Qed.

End ConsensusProperties.

(** ** The hourly slice *)

Section HourlyProperties.
Context `{rt : Runtime}.

Lemma safeInt_Ret (s : list Z) (i : Z) :
  0 <= i -> safeInt s i = Ret (default 0 (s !! Z.to_nat i)).
Proof.
  intros Hi. unfold safeInt. destruct (i <? len s) eqn:E.
  - apply Z.ltb_lt in E. destruct (index_Ret s i) as (a & -> & ->); [lia|done].
  - apply Z.ltb_ge in E. unfold len in E.
    rewrite (proj2 (lookup_ge_None s (Z.to_nat i))); [done|lia].
Qed.

Lemma safeFloat_Ret (s : list Q) (i : Z) :
  0 <= i -> safeFloat s i = Ret (default 0%Q (s !! Z.to_nat i)).
Proof.
  intros Hi. unfold safeFloat. destruct (i <? len s) eqn:E.
  - apply Z.ltb_lt in E. destruct (index_Ret s i) as (a & -> & ->); [lia|done].
  - apply Z.ltb_ge in E. unfold len in E.
    rewrite (proj2 (lookup_ge_None s (Z.to_nat i))); [done|lia].
Qed.

Lemma hourlyPoint_Ret (h : hourlyRaw.t) (i : Z) (t : Time.t) :
  0 <= i -> hourlyPoint h i t = Ret (hourlyPointAt h (i, t)).
Proof.
  intros Hi. unfold hourlyPoint, hourlyPointAt.
  rewrite !safeInt_Ret, !safeFloat_Ret by done. reflexivity.
Qed.

(** The loop keeps the first eligible entries, up to 24 points in all. *)
Lemma hourlyLoop_take {A} (emit : Z -> Time.t -> outcome A) (g : Z * Time.t -> A)
    (now : Time.t) (tz : Location) (times : list string) :
  forall (i : Z) (points : list A),
    0 <= i -> (forall j t, 0 <= j -> emit j t = Ret (g (j, t))) ->
    (length points <= 24)%nat ->
    hourlyLoop emit now tz i times points
    = Ret (points ++ take (24 - length points) (g <$> eligible now tz i times))%list.
Proof.
  induction times as [|ts rest IH]; intros i points Hi Hemit Hlen; simpl.
  - by rewrite take_nil, app_nil_r.
  - destruct (ParseTime layout ts tz) as [t|]; [|apply IH; [lia|done..]].
    destruct (Before t now); [apply IH; [lia|done..]|].
    destruct (24 <=? len points) eqn:E.
    + apply Z.leb_le in E. unfold len in E.
      replace (24 - length points)%nat with 0%nat by lia.
      by rewrite take_0, app_nil_r.
    + apply Z.leb_gt in E. unfold len in E.
      rewrite Hemit by done. simpl.
      rewrite IH; [|lia|done|rewrite length_app; simpl; lia].
      rewrite length_app. simpl.
      replace (24 - length points)%nat with (S (24 - (length points + 1)))%nat by lia.
      simpl. by rewrite <- app_assoc.
Qed.

(** What is eligible is an entry of the block at or after [now], and the
    indices increase. *)
Lemma eligible_spec (now : Time.t) (tz : Location) (times : list string) (i : Z) :
  Forall (fun it => i <= it.1
                    /\ (exists ts, times !! Z.to_nat (it.1 - i) = Some ts
                                   /\ ParseTime layout ts tz = Some it.2)
                    /\ Time.unix now <= Time.unix it.2)
    (eligible now tz i times)
  /\ StronglySorted (fun a b => a.1 < b.1) (eligible now tz i times).
Proof.
  revert i. induction times as [|ts rest IH]; intros i; simpl.
  - split; constructor.
  - destruct (IH (i + 1)) as [Hall Hsorted].
    assert (Hshift : Forall (fun it => i <= it.1
                    /\ (exists ts', (ts :: rest) !! Z.to_nat (it.1 - i) = Some ts'
                                   /\ ParseTime layout ts' tz = Some it.2)
                    /\ Time.unix now <= Time.unix it.2)
                       (eligible now tz (i + 1) rest)).
    { eapply Forall_impl; [exact Hall|]. intros [j t] (Hj & (ts' & Hts' & Hp) & Hnow).
      simpl in *. split; [lia|]. split; [|done]. exists ts'. split; [|done].
      replace (Z.to_nat (j - i)) with (S (Z.to_nat (j - (i + 1)))) by lia. done. }
    destruct (ParseTime layout ts tz) as [t|] eqn:Ep; [|done].
    destruct (Before t now) eqn:Eb; [done|].
    split.
    + constructor; [|done]. simpl. split; [lia|]. split.
      * exists ts. by rewrite Z.sub_diag.
      * unfold Before in Eb. lia.
    + constructor; [done|].
      eapply Forall_impl; [exact Hall|]. intros [j t'] (Hj & _). simpl in *. lia.
Qed.


Lemma StronglySorted_Forall_impl {A} (R R' : A -> A -> Prop) (P : A -> Prop) (l : list A) :
  (forall a b, P a -> P b -> R a b -> R' a b) ->
  Forall P l -> StronglySorted R l -> StronglySorted R' l.
Proof.
  intros Himpl HP Hs. induction Hs as [|a l Hs IH Ha]; [constructor|].
  apply Forall_cons in HP as [Pa Pl]. constructor; [by apply IH|].
  rewrite Forall_forall in *. intros b Hb. apply Himpl; auto.
Qed.

(** C6 (amended): [parseHourly] always returns; its points are built
    from the first (at most 24) hourly entries that parse and are not
    before the current time, in the order of the input block.  So there
    are at most 24 of them, each at or after now, with increasing indices
    into the block; their times are non-decreasing when the times of the
    input block are. *)
Theorem parseHourly_first_24_from_now (h : hourlyRaw.t) (currentTimeStr timezone : string) :
  let tz := loadLocationOrUTC timezone in
  exists kept : list (Z * Time.t),
    hourlyKept h currentTimeStr timezone = Ret kept
    /\ parseHourly h currentTimeStr timezone = Ret (hourlyPointAt h <$> kept)
    /\ (length kept <= 24)%nat
    /\ (forall now, ParseTime layout currentTimeStr tz = Some now ->
          kept = take 24 (eligible now tz 0 (hourlyRaw.Time h)))
    /\ (ParseTime layout currentTimeStr tz = None -> kept = [])
    /\ Forall (fun it =>
                 exists ts now,
                   0 <= it.1
                   /\ hourlyRaw.Time h !! Z.to_nat it.1 = Some ts
                   /\ ParseTime layout ts tz = Some it.2
                   /\ ParseTime layout currentTimeStr tz = Some now
                   /\ Time.unix now <= Time.unix it.2) kept
    /\ StronglySorted (fun a b => a.1 < b.1) kept
    /\ ((forall (i j : nat) ts ts' t t',
           (i < j)%nat ->
           hourlyRaw.Time h !! i = Some ts -> hourlyRaw.Time h !! j = Some ts' ->
           ParseTime layout ts tz = Some t -> ParseTime layout ts' tz = Some t' ->
           Time.unix t <= Time.unix t') ->
        StronglySorted (fun a b => Time.unix a.2 <= Time.unix b.2) kept).
Proof.
  intros tz. unfold hourlyKept, parseHourly. fold tz.
  destruct (ParseTime layout currentTimeStr tz) as [now|] eqn:Enow.
  - exists (take 24 (eligible now tz 0 (hourlyRaw.Time h))).
    destruct (eligible_spec now tz (hourlyRaw.Time h) 0) as [Hall Hsorted].
    assert (Hkept : Forall (fun it =>
                 exists ts now',
                   0 <= it.1
                   /\ hourlyRaw.Time h !! Z.to_nat it.1 = Some ts
                   /\ ParseTime layout ts tz = Some it.2
                   /\ Some now = Some now'
                   /\ Time.unix now' <= Time.unix it.2)
              (take 24 (eligible now tz 0 (hourlyRaw.Time h)))).
    { apply Forall_take. eapply Forall_impl; [exact Hall|].
      intros [j t] (Hj & (ts & Hts & Hp) & Hnow). simpl in *.
      exists ts, now. rewrite Z.sub_0_r in Hts. done. }
    assert (Hidx : StronglySorted (fun a b : Z * Time.t => a.1 < b.1)
                     (take 24 (eligible now tz 0 (hourlyRaw.Time h)))).
    { eapply StronglySorted_app_1_l. by erewrite take_drop. }
    split.
    { rewrite (hourlyLoop_take _ id) by (simpl; done || lia).
      simpl. by rewrite list_fmap_id. }
    split.
    { rewrite (hourlyLoop_take _ (hourlyPointAt h));
        [|lia|intros; by apply hourlyPoint_Ret|simpl; lia].
      simpl. by rewrite fmap_take. }
    split; [rewrite length_take; lia|].
    split; [by intros now' [= <-]|].
    split; [done|].
    split; [exact Hkept|].
    split; [exact Hidx|].
    intros Hchrono.
    eapply StronglySorted_Forall_impl; [|exact Hkept|exact Hidx].
    intros [i t] [j t'] (ts & ? & Hi & Hts & Hp & _) (ts' & ? & Hj & Hts' & Hp' & _) Hlt.
    simpl in *. eapply (Hchrono (Z.to_nat i) (Z.to_nat j)); eauto. lia.
  - exists []. split; [done|]. split; [done|]. split; [simpl; lia|].
    split; [done|]. split; [done|]. split; [constructor|].
    split; [constructor|]. intros _. constructor.
Qed.

End HourlyProperties.

(** ** The report cache *)

Module CacheProperties.
Import Cache.

Section WithToLower.
Variable ToLower : string -> string.

Lemma cacheKey_nonempty (city units : string) : cacheKey ToLower city units <> "".
Proof. unfold cacheKey. by destruct (ToLower city). Qed.

Lemma scanStep_scanned (seen : list (string * cacheEntry)) (st : string * Z)
    (ke : string * cacheEntry) :
  Forall (fun ke' => ke'.1 <> "") seen ->
  scanned seen st -> scanned (seen ++ [ke]) (scanStep st ke).
Proof.
  intros Hkeys Hst. right. destruct st as [oldest oldestTime], ke as [k e].
  unfold scanned in *. unfold scanStep. simpl in *.
  destruct Hst as [[-> ->]|(e0 & Hin & -> & Hmin)]; simpl.
  - exists e. split; [by apply list_elem_of_singleton|]. split; [done|].
    intros ke Hke. by apply list_elem_of_singleton in Hke as ->.
  - assert (oldest <> "") as Hne.
    { rewrite Forall_forall in Hkeys. apply (Hkeys _ Hin). }
    rewrite (proj2 (String.eqb_neq oldest "") Hne). simpl.
    destruct (createdAt e <? createdAt e0) eqn:E; simpl.
    + apply Z.ltb_lt in E. exists e.
      split; [apply elem_of_app; right; by apply list_elem_of_singleton|].
      split; [done|]. intros ke Hke.
      apply elem_of_app in Hke as [Hke|Hke].
      * specialize (Hmin _ Hke). lia.
      * apply list_elem_of_singleton in Hke as ->. simpl. lia.
    + apply Z.ltb_ge in E. exists e0.
      split; [apply elem_of_app; by left|]. split; [done|]. intros ke Hke.
      apply elem_of_app in Hke as [Hke|Hke].
      * by apply Hmin.
      * by apply list_elem_of_singleton in Hke as ->.
Qed.

Lemma foldl_scanStep_scanned (order seen : list (string * cacheEntry)) (st : string * Z) :
  Forall (fun ke => ke.1 <> "") (seen ++ order) ->
  scanned seen st -> scanned (seen ++ order) (foldl scanStep st order).
Proof.
  revert seen st. induction order as [|ke order IH]; intros seen st Hkeys Hst; simpl.
  - by rewrite app_nil_r.
  - rewrite (cons_middle ke), app_assoc in Hkeys |- *.
    apply IH; [done|]. apply scanStep_scanned; [|done].
    apply Forall_app in Hkeys as [Hkeys _]. by apply Forall_app in Hkeys as [Hkeys _].
Qed.

(** Over a non-empty sequence of entries without the empty key, the scan
    ends on an entry of least creation time. *)
Lemma scanOldest_least (order : list (string * cacheEntry)) :
  order <> [] -> Forall (fun ke => ke.1 <> "") order ->
  exists e, ((scanOldest order).1, e) ∈ order
            /\ forall ke, ke ∈ order -> createdAt e <= createdAt ke.2.
Proof.
  intros Hne Hkeys.
  destruct (foldl_scanStep_scanned order [] ("", -62135596800 * Second))
    as [[Hnil _]|(e & Hin & Heq & Hmin)]; [done|by left|done|].
  exists e. split; [done|]. intros ke Hke. rewrite <- Heq. by apply Hmin.
Qed.


Lemma order_elem_of (cache : gmap string cacheEntry) (order : list (string * cacheEntry))
    (k : string) (e : cacheEntry) :
  order ≡ₚ map_to_list cache -> (k, e) ∈ order <-> cache !! k = Some e.
Proof. intros ->. apply elem_of_map_to_list. Qed.

(** Overwriting: no entry is deleted. *)
Lemma cacheSet_existing (cache : gmap string cacheEntry) order now1 now2 key i :
  is_Some (cache !! key) ->
  cacheSet order now1 now2 key i cache
  = <[key := mkEntry i (now1 + cacheTTL) now2]> cache.
Proof.
  intros Hex. unfold cacheSet. by rewrite (bool_decide_eq_true_2 _ Hex).
Qed.

(** A new key below capacity: no entry is deleted. *)
Lemma cacheSet_room (cache : gmap string cacheEntry) order now1 now2 key i :
  Z.of_nat (size cache) < cacheMaxSize ->
  cacheSet order now1 now2 key i cache
  = <[key := mkEntry i (now1 + cacheTTL) now2]> cache.
Proof.
  intros Hsize. unfold cacheSet.
  rewrite (proj2 (Z.leb_gt _ _) Hsize). by rewrite andb_false_r.
Qed.

(** A new key at capacity: the entry the scan ends on is deleted first. *)
Lemma cacheSet_full (cache : gmap string cacheEntry) order now1 now2 key i :
  cache !! key = None -> cacheMaxSize <= Z.of_nat (size cache) ->
  cacheSet order now1 now2 key i cache
  = <[key := mkEntry i (now1 + cacheTTL) now2]> (delete (scanOldest order).1 cache).
Proof.
  intros Hnew Hsize. unfold cacheSet.
  rewrite bool_decide_eq_false_2 by (rewrite Hnew; by intros [? ?]).
  by rewrite (proj2 (Z.leb_le _ _) Hsize).
Qed.

Lemma cacheSet_evicts_oldest (cache : gmap string cacheEntry) order now1 now2 key i :
  (forall k, is_Some (cache !! k) -> k <> "") ->
  order ≡ₚ map_to_list cache ->
  cache !! key = None -> cacheMaxSize <= Z.of_nat (size cache) ->
  exists victim ev,
    cache !! victim = Some ev
    /\ (forall k e, cache !! k = Some e -> createdAt ev <= createdAt e)
    /\ cacheSet order now1 now2 key i cache
       = <[key := mkEntry i (now1 + cacheTTL) now2]> (delete victim cache)
    /\ size (cacheSet order now1 now2 key i cache) = size cache.
Proof.
  intros Hkeys Horder Hnew Hsize.
  assert (Hne : order <> []).
  { intros ->. symmetry in Horder. apply Permutation_nil_r in Horder.
    apply map_to_list_empty_iff in Horder. subst cache.
    rewrite map_size_empty in Hsize. unfold cacheMaxSize in Hsize. lia. }
  destruct (scanOldest_least order Hne) as (ev & Hin & Hmin).
  { apply Forall_forall. intros [k e] Hke. simpl. apply Hkeys.
    exists e. by apply (order_elem_of cache order). }
  apply (order_elem_of cache order) in Hin; [|done].
  exists (scanOldest order).1, ev. split; [done|]. split.
  { intros k e Hk. apply (Hmin (k, e)). by apply (order_elem_of cache order). }
  split; [by apply cacheSet_full|].
  rewrite cacheSet_full by done.
  rewrite map_size_insert_None.
  - rewrite map_size_delete_Some by eauto.
    assert (size cache <> 0%nat); [|lia].
    apply map_size_ne_0_lookup_2 with (scanOldest order).1. eauto.
  - destruct (decide ((scanOldest order).1 = key)) as [->|Hne'].
    + apply lookup_delete_eq.
    + by rewrite lookup_delete_ne.
Qed.

Lemma cacheSet_size_bound (cache : gmap string cacheEntry) order now1 now2 key i :
  (forall k, is_Some (cache !! k) -> k <> "") ->
  order ≡ₚ map_to_list cache ->
  Z.of_nat (size cache) <= cacheMaxSize ->
  Z.of_nat (size (cacheSet order now1 now2 key i cache)) <= cacheMaxSize.
Proof.
  intros Hkeys Horder Hsize.
  destruct (cache !! key) as [e|] eqn:Hk.
  - rewrite cacheSet_existing by eauto. rewrite map_size_insert_Some by eauto. done.
  - destruct (Z_lt_le_dec (Z.of_nat (size cache)) cacheMaxSize) as [Hlt|Hge].
    + rewrite cacheSet_room by done. rewrite map_size_insert_None by done. lia.
    + destruct (cacheSet_evicts_oldest cache order now1 now2 key i)
        as (_ & _ & _ & _ & _ & ->); done.
Qed.

Lemma cacheSet_keys (cache : gmap string cacheEntry) order now1 now2 key i (k : string) :
  is_Some (cacheSet order now1 now2 key i cache !! k) ->
  k = key \/ is_Some (cache !! k).
Proof.
  unfold cacheSet. intros Hk.
  destruct (decide (k = key)) as [->|Hne]; [by left|right].
  rewrite lookup_insert_ne in Hk by done.
  destruct (_ && _); [|done].
  destruct (decide ((scanOldest order).1 = k)) as [<-|Hne'].
  - rewrite lookup_delete_eq in Hk. by destruct Hk.
  - by rewrite lookup_delete_ne in Hk.
Qed.

Lemma sweep_lookup (cache : gmap string cacheEntry) (now : Z) (key : string) (e : cacheEntry) :
  sweep now cache !! key = Some e <-> cache !! key = Some e /\ now <= expires e.
Proof.
  unfold sweep. rewrite map_lookup_filter_Some. simpl. split; intros [? ?]; split; lia || done.
Qed.

(** Every state of the map is within capacity and has no empty key. *)
Lemma reachable_invariant (cache : gmap string cacheEntry) :
  reachable ToLower cache ->
  Z.of_nat (size cache) <= cacheMaxSize
  /\ forall k, is_Some (cache !! k) -> k <> "".
Proof.
  induction 1 as [|cache order now1 now2 city units i _ [IHsize IHkeys] Horder
                  |cache now _ [IHsize IHkeys]].
  - split; [rewrite map_size_empty; unfold cacheMaxSize; lia|].
    intros k. rewrite lookup_empty. by intros [? ?].
  - split; [by apply cacheSet_size_bound|].
    intros k Hk. apply cacheSet_keys in Hk as [->|Hk]; [|by apply IHkeys].
    apply cacheKey_nonempty.
  - split.
    + pose proof (map_subseteq_size (sweep now cache) cache) as Hsub.
      unfold sweep in *. specialize (Hsub (map_filter_subseteq _ _)). lia.
    + intros k [e Hk]. apply sweep_lookup in Hk as [Hk _]. apply IHkeys. eauto.
Qed.


(** C5: every state of the cache holds at most [cacheMaxSize] entries,
    and so does the state after any [cacheSet].  Storing a new key at
    capacity deletes exactly one entry, one of least creation time, and
    then inserts; storing a new key below capacity and overwriting an
    existing key delete nothing, and the stored entry carries the new
    report and the new expiry.  [cacheGet] answers absent for an entry
    whose expiry is reached although the entry is still in the map; the
    sweep removes the entries whose expiry has passed and keeps the
    others. *)
Theorem cache_bounded_evicts_oldest_expires (cache : gmap string cacheEntry) :
  reachable ToLower cache ->
  Z.of_nat (size cache) <= cacheMaxSize
  /\ (forall order now1 now2 key i,
        order ≡ₚ map_to_list cache ->
        Z.of_nat (size (cacheSet order now1 now2 key i cache)) <= cacheMaxSize)
  /\ (forall order now1 now2 key i,
        order ≡ₚ map_to_list cache ->
        cache !! key = None -> cacheMaxSize <= Z.of_nat (size cache) ->
        let cache' := cacheSet order now1 now2 key i cache in
        exists victim ev,
          cache !! victim = Some ev
          /\ (forall k e, cache !! k = Some e -> createdAt ev <= createdAt e)
          /\ cache' = <[key := mkEntry i (now1 + cacheTTL) now2]> (delete victim cache)
          /\ size cache' = size cache
          /\ cache' !! victim = None
          /\ cache' !! key = Some (mkEntry i (now1 + cacheTTL) now2)
          /\ (forall k, k <> victim -> k <> key -> cache' !! k = cache !! k))
  /\ (forall order now1 now2 key i,
        cache !! key = None -> Z.of_nat (size cache) < cacheMaxSize ->
        let cache' := cacheSet order now1 now2 key i cache in
        cache' = <[key := mkEntry i (now1 + cacheTTL) now2]> cache
        /\ size cache' = S (size cache)
        /\ (forall k, k <> key -> cache' !! k = cache !! k))
  /\ (forall order now1 now2 key i,
        is_Some (cache !! key) ->
        let cache' := cacheSet order now1 now2 key i cache in
        cache' = <[key := mkEntry i (now1 + cacheTTL) now2]> cache
        /\ size cache' = size cache
        /\ cache' !! key = Some (mkEntry i (now1 + cacheTTL) now2)
        /\ (forall k, k <> key -> cache' !! k = cache !! k))
  /\ (forall key e now,
        cache !! key = Some e -> expires e <= now -> cacheGet cache now key = None)
  /\ (forall key e now,
        cache !! key = Some e -> now < expires e -> cacheGet cache now key = Some (info e))
  /\ (forall key e now,
        cache !! key = Some e -> expires e < now -> sweep now cache !! key = None)
  /\ (forall key e now,
        cache !! key = Some e -> now <= expires e -> sweep now cache !! key = Some e).
Proof.
  intros Hreach. destruct (reachable_invariant cache Hreach) as [Hsize Hkeys].
  split; [done|].
  split; [intros; by apply cacheSet_size_bound|].
  split.
  { intros order now1 now2 key i Horder Hnew Hfull cache'.
    destruct (cacheSet_evicts_oldest cache order now1 now2 key i)
      as (victim & ev & Hv & Hmin & Heq & Hsz); [done..|].
    assert (victim <> key) by (intros ->; congruence).
    exists victim, ev. subst cache'. rewrite Heq.
    split; [done|]. split; [done|]. split; [done|].
    split; [by rewrite <- Heq|].
    split; [rewrite lookup_insert_ne by done; apply lookup_delete_eq|].
    split; [apply lookup_insert_eq|].
    intros k Hk1 Hk2. rewrite lookup_insert_ne by done. by rewrite lookup_delete_ne. }
  split.
  { intros order now1 now2 key i Hnew Hroom cache'. subst cache'.
    rewrite cacheSet_room by done.
    split; [done|]. split; [by apply map_size_insert_None|].
    intros k Hk. by rewrite lookup_insert_ne. }
  split.
  { intros order now1 now2 key i Hex cache'. subst cache'.
    rewrite cacheSet_existing by done.
    split; [done|]. split; [by apply map_size_insert_Some|].
    split; [apply lookup_insert_eq|].
    intros k Hk. by rewrite lookup_insert_ne. }
  split.
  { intros key e now Hk Hexp. unfold cacheGet. rewrite Hk.
    by rewrite (proj2 (Z.ltb_ge _ _) Hexp). }
  split.
  { intros key e now Hk Hexp. unfold cacheGet. rewrite Hk.
    by rewrite (proj2 (Z.ltb_lt _ _) Hexp). }
  split.
  { intros key e now Hk Hexp.
    destruct (sweep now cache !! key) as [e'|] eqn:E; [|done].
    apply sweep_lookup in E as [E ?]. rewrite Hk in E. injection E as <-. lia. }
  intros key e now Hk Hexp. by apply sweep_lookup.
Qed.

End WithToLower.
End CacheProperties.


(** * Examples, witnesses and counterexamples *)

Module Examples.
Import Fixture.

(** ** Sun bar *)

Example buildSunBar_noon :
  let sb := @buildSunBar offline "2024-06-01T12:00" "2024-06-01T06:00"
              "2024-06-01T18:00" "UTC" in
  (SunBar.SunPositionPct sb == 50)%Q
  /\ SunBar.IsDay sb = true
  /\ SunBar.DaylightHours sb = "12h 0m"
  /\ SunBar.SunriseTime sb = "06:00" /\ SunBar.SunsetTime sb = "18:00"
  /\ SunBar.CurrentTime sb = "12:00".
Proof. vm_compute. repeat split. Qed.

Example buildSunBar_night :
  let before := @buildSunBar offline "2024-06-01T05:00" "2024-06-01T06:00"
                  "2024-06-01T18:00" "UTC" in
  let after := @buildSunBar offline "2024-06-01T21:30" "2024-06-01T06:00"
                 "2024-06-01T18:00" "UTC" in
  let polar := @buildSunBar offline "2024-06-01T21:30" "2024-06-01T06:00"
                 "2024-06-01T06:00" "UTC" in
  (SunBar.SunPositionPct before == 0)%Q /\ SunBar.IsDay before = false
  /\ (SunBar.SunPositionPct after == 100)%Q /\ SunBar.IsDay after = false
  /\ SunBar.SunPositionPct polar = 0%Q /\ SunBar.DaylightHours polar = "0h 0m".
Proof. vm_compute. repeat split. Qed.

(** C3, counterexample: with now equal to sunrise, now lies in
    [sunrise, sunset), yet the day flag is false. *)
Lemma IsDay_false_at_sunrise :
  let tz := @loadLocationOrUTC offline "UTC" in
  let sunrise := Time.unix (@parseOrZero offline tz "2024-06-01T06:00") in
  let sunset := Time.unix (@parseOrZero offline tz "2024-06-01T18:00") in
  let now := Time.unix (@parseOrZero offline tz "2024-06-01T06:00") in
  (sunrise <= now < sunset)
  /\ SunBar.IsDay (@buildSunBar offline "2024-06-01T06:00" "2024-06-01T06:00"
                     "2024-06-01T18:00" "UTC") = false.
Proof. vm_compute. repeat split; discriminate. Qed.

(** ** Hourly slice *)

Example parseHourly_from_now :
  @parseHourly offline sampleHourly "2024-06-01T12:00" "UTC"
  = Ret [HourlyPoint.mk "12:00" (21 # 1) 5 "Partly cloudy" "wi-day-cloudy" (11 # 1);
         HourlyPoint.mk "13:00" (22 # 1) 10 "Overcast" "wi-cloudy" (12 # 1)].
Proof. reflexivity. Qed.

(** Of thirty eligible entries only the first 24 are kept. *)
Example parseHourly_keeps_24 :
  (length <$> @hourlyKept offline juneMidnights "2024-06-01T00:00" "UTC") = Ret 24%nat.
Proof. vm_compute. reflexivity. Qed.

(** C6, counterexample: an hourly block whose times decrease. Both
    entries are at or after now and both are kept, in the order of the
    block, so the result is not non-decreasing in time. *)
Lemma parseHourly_keeps_input_order :
  let h := hourlyRaw.mk ["2024-06-01T05:00"; "2024-06-01T03:00"] [] [] [] [] in
  let t5 := @Time.mk offline 1717218000 tt in
  let t3 := @Time.mk offline 1717210800 tt in
  @hourlyKept offline h "2024-06-01T00:00" "UTC" = Ret [(0, t5); (1, t3)]
  /\ Time.unix t3 < Time.unix t5
  /\ @parseHourly offline h "2024-06-01T00:00" "UTC"
     = Ret [HourlyPoint.mk "05:00" 0 0 "Clear sky" "wi-day-sunny" 0;
            HourlyPoint.mk "03:00" 0 0 "Clear sky" "wi-day-sunny" 0].
Proof. repeat split. Qed.

(** ** Gateway *)

Example getJSON_unreachable :
  getJSON unreachable "u" modelResponse.zero (H := decodeModel)
  = ([EvGet "u"; EvSleep 1000000000; EvGet "u"],
     (Some "request failed: connection refused", modelResponse.zero)).
Proof. reflexivity. Qed.

Example getJSON_second_attempt :
  (getJSON (answering 1 (fun _ => "12")) "u" modelResponse.zero (H := decodeModel)).1
  = [EvGet "u"; EvSleep 1000000000; EvGet "u"]
  /\ (getJSON (answering 1 (fun _ => "12")) "u" modelResponse.zero (H := decodeModel)).2.1
     = None.
Proof. split; reflexivity. Qed.

Example getJSON_not_found_is_terminal :
  getJSON {| HTTP := fun _ _ => Response 404 "no such page" |} "u"
    modelResponse.zero (H := decodeModel)
  = ([EvGet "u"], (Some "API error 404: no such page", modelResponse.zero)).
Proof. reflexivity. Qed.

Example getJSON_bad_body_is_terminal :
  getJSON {| HTTP := fun _ _ => Response 200 "<html>" |} "u"
    modelResponse.zero (H := decodeModel)
  = ([EvGet "u"], (Some "decode failed: invalid character", modelResponse.zero)).
Proof. reflexivity. Qed.

(** ** Consensus *)

(** C2, counterexample: no model can be reached, every reading is
    unavailable, and the agreement label of the summary is the empty
    string, not "Low". *)
Lemma FetchConsensus_unreachable_Agreement_empty :
  let cons := @FetchConsensus offline unreachable 0 0 "UTC" "celsius" "kmh" in
  Forall (fun r => ModelReading.Available r = false) (ConsensusInfo.Models cons)
  /\ ConsensusInfo.Agreement cons = ""
  /\ ConsensusInfo.Agreement cons <> "Low".
Proof.
  vm_compute. split; [repeat constructor|]. split; [reflexivity|discriminate].
Qed.

(** C2, witness: the network of [offline] makes every fetch fail. *)
Lemma FetchConsensus_no_model_available_witness :
  Forall (fun r => ModelReading.Available r = false)
    (@fetchReadings offline 0 0 "UTC" "celsius" "kmh")
  /\ ConsensusInfo.Agreement
       (@FetchConsensus offline unreachable 0 0 "UTC" "celsius" "kmh") = "".
Proof.
  assert (H : Forall (fun r => ModelReading.Available r = false)
                (@fetchReadings offline 0 0 "UTC" "celsius" "kmh"))
    by (vm_compute; repeat constructor).
  split; [exact H|].
  apply (@FetchConsensus_no_model_available offline unreachable 0 0
           "UTC" "celsius" "kmh" H).
Defined.

(** C4, counterexample: for the readings 10.0 and 10.1 the spread is 0.1
    and the penalty 1.2; the agreement percentage is 100 - 1 = 99, not the
    clamped value of 100 - 0.1 * 12, which is 98.8. *)
Lemma consensus_agreement_truncates_penalty :
  let cons := consensusStats
                [ModelReading.mk "ECMWF" 10 50 0 0 0 true "";
                 ModelReading.mk "ICON" (101 # 10) 50 0 0 0 true ""] in
  (ConsensusInfo.Spread cons == 1 # 10)%Q
  /\ ConsensusInfo.AgreePct cons = 99
  /\ (Qmax 0 (Qmin 100 (100 - ConsensusInfo.Spread cons * 12)) == 988 # 10)%Q
  /\ ~ (inject_Z (ConsensusInfo.AgreePct cons)
        == Qmax 0 (Qmin 100 (100 - ConsensusInfo.Spread cons * 12)))%Q.
Proof.
  vm_compute. split; [reflexivity|]. split; [reflexivity|].
  split; [reflexivity|]. discriminate.
Qed.

(** C4, witness: the readings 10.0 and 12.0. *)
Lemma consensus_agreement_from_spread_witness :
  0 < ConsensusInfo.AvailCount
        (consensusStats
           [ModelReading.mk "ECMWF" 10 50 0 0 0 true "";
            ModelReading.mk "ICON" 12 50 0 0 0 true ""])
  /\ ConsensusInfo.AgreePct
       (consensusStats
          [ModelReading.mk "ECMWF" 10 50 0 0 0 true "";
           ModelReading.mk "ICON" 12 50 0 0 0 true ""])
     = Z.max 0 (Z.min 100 (100 - Qtrunc (2 * 12))).
Proof.
  assert (H : 0 < ConsensusInfo.AvailCount
                    (consensusStats
                       [ModelReading.mk "ECMWF" 10 50 0 0 0 true "";
                        ModelReading.mk "ICON" 12 50 0 0 0 true ""]))
    by reflexivity.
  split; [exact H|].
  exact (proj1 (proj2 (proj2 (proj2 (proj2 (proj2
           (consensus_agreement_from_spread _ H))))))).
Defined.

Example consensus_three_models :
  let cons := consensusStats
                [ModelReading.mk "ECMWF" (183 # 10) 40 (12 # 1) (1010 # 1) 1 true "";
                 ModelReading.mk "ICON" 0 0 0 0 0 false "incomplete data";
                 ModelReading.mk "MET Norway" (1934 # 100) 45 (10 # 1) (1012 # 1) 2 true ""] in
  ConsensusInfo.AvailCount cons = 2
  /\ (ConsensusInfo.MinTemp cons == 183 # 10)%Q
  /\ (ConsensusInfo.MaxTemp cons == 193 # 10)%Q
  /\ (ConsensusInfo.Spread cons == 1)%Q
  /\ ConsensusInfo.AgreePct cons = 88
  /\ ConsensusInfo.Agreement cons = "High"
  /\ ConsensusInfo.AvgHumidity cons = 42.
Proof. vm_compute. repeat split. Qed.

(** ** GetWeather *)

Example GetWeather_Paris :
  exists info cons,
    @GetWeather online primary "Paris" "metric" = Ret info
    /\ WeatherInfo.Consensus info = Some cons
    /\ ConsensusInfo.AvailCount cons = 4
    /\ ConsensusInfo.AgreePct cons = 100
    /\ ConsensusInfo.Agreement cons = "High"
    /\ length (WeatherInfo.Forecast info) = 2%nat
    /\ length (WeatherInfo.Hourly info) = 2%nat
    /\ WeatherInfo.TempUnit info = "°C".
Proof. eexists _, _. vm_compute. repeat split. Qed.

Example GetWeather_unknown_city :
  @GetWeather online (answering 0 (fun _ => "none")) "Atlantis" "metric"
  = Err "city 'Atlantis' not found".
Proof. reflexivity. Qed.

(** The panic of the daily loop ends [GetWeather]. *)
Example GetWeather_short_daily_block_panics :
  @GetWeather online
    (answering 0 (fun url => if String.prefix geoURL url then "paris" else "short"))
    "Paris" "metric"
  = Panic "index out of range [0] with length 0".
Proof. reflexivity. Qed.

(** ** Cache *)

Lemma store_reachable (ns : list nat) (cache : gmap string Cache.cacheEntry) :
  Cache.reachable lower cache -> Cache.reachable lower (foldl store cache ns).
Proof.
  revert cache. induction ns as [|n ns IH]; intros cache Hc; simpl; [done|].
  apply IH. by apply Cache.reachable_set.
Qed.

Lemma filled_reachable (n : nat) : Cache.reachable lower (filled n).
Proof. apply store_reachable. constructor. Qed.

(** C5, witness: the cache after 200 cities is at capacity. *)
Lemma cache_bounded_evicts_oldest_expires_witness :
  Cache.reachable lower (filled 200)
  /\ Z.of_nat (size (filled 200)) <= Cache.cacheMaxSize.
Proof.
  split; [apply filled_reachable|].
  exact (proj1 (CacheProperties.cache_bounded_evicts_oldest_expires lower
                  (filled 200) (filled_reachable 200))).
Defined.

(** At capacity, storing the 201st city evicts the first one, the oldest,
    and nothing else; storing an existing city again evicts nothing. *)
Example cache_201st_city_evicts_first :
  size (filled 200) = 200%nat
  /\ size (filled 201) = 200%nat
  /\ Cache.createdAt <$> filled 200 !! "city0|metric" = Some 0
  /\ filled 201 !! "city0|metric" = None
  /\ Cache.createdAt <$> filled 201 !! "city1|metric" = Some 1
  /\ Cache.createdAt <$> filled 201 !! "city200|metric" = Some 200
  /\ size (store (filled 200) 7) = 200%nat
  /\ Cache.createdAt <$> store (filled 200) 7 !! "city0|metric" = Some 0.
Proof. vm_compute. repeat split. Qed.

(** An entry past its expiry: [cacheGet] answers absent while the entry
    is still in the map; the next sweep removes it. *)
Example cache_expired_entry :
  let cache := filled 1 in
  let late := Cache.cacheTTL + 1 in
  Cache.cacheGet cache 5 "city0|metric" = Some sampleInfo
  /\ Cache.cacheGet cache late "city0|metric" = None
  /\ is_Some (cache !! "city0|metric")
  /\ Cache.sweep late cache !! "city0|metric" = None.
Proof. vm_compute. repeat split. eauto. Qed.

End Examples.

(** * Further properties *)

(** ** The WMO tables *)

Lemma WMO_tables_out_of_range (code : Z) :
  code < 0 \/ 99 < code ->
  WMODescription code = "Unknown" /\ WMOIconClass code = "wi-na".
Proof.
  intros H. unfold WMODescription, WMOIconClass.
  repeat match goal with
  | |- context [?a =? ?b] =>
      rewrite (proj2 (Z.eqb_neq a b)) by lia
  | |- context [?a <=? ?b] =>
      first [ rewrite (proj2 (Z.leb_gt a b)) by lia
            | rewrite (proj2 (Z.leb_le a b)) by lia ]
  end.
  destruct H.
  - by repeat match goal with
       | |- context [?a <=? ?b] => rewrite (proj2 (Z.leb_gt a b)) by lia
       end.
  - by repeat match goal with
       | |- context [code <=? ?b] => rewrite (proj2 (Z.leb_gt code b)) by lia
       | |- context [?a <=? code] => rewrite (proj2 (Z.leb_le a code)) by lia
       end.
Qed.

Lemma WMO_cases (P : Z -> Prop) :
  (forall code, code < 0 \/ 99 < code -> P code) ->
  Forall P (Z.of_nat <$> seq 0 100) ->
  forall code, P code.
Proof.
  intros Hout Hin code.
  destruct (decide (0 <= code <= 99)) as [H|H]; [|apply Hout; lia].
  rewrite Forall_forall in Hin. apply Hin.
  apply list_elem_of_fmap. exists (Z.to_nat code). split; [lia|].
  apply elem_of_seq. lia.
Qed.

(** X1: [WMODescription] and [WMOIconClass] know the same WMO codes: a code
    has the description "Unknown" exactly when it has the icon "wi-na", and
    that is exactly when it is none of the 25 codes listed below. *)
Theorem WMO_tables_agree (code : Z) :
  (WMODescription code = "Unknown" <-> WMOIconClass code = "wi-na")
  /\ (WMODescription code = "Unknown"
      <-> code ∉ [0; 1; 2; 3; 45; 48; 51; 52; 53; 55; 61; 63; 65; 71; 73; 75; 77;
                  80; 81; 82; 85; 86; 95; 96; 99]).
Proof.
  revert code. apply WMO_cases.
  - intros code H. destruct (WMO_tables_out_of_range code H) as [-> ->].
    split; [done|]. split; [|done]. intros _ Hin.
    repeat (apply elem_of_cons in Hin as [->|Hin]; [lia|]).
    by apply elem_of_nil in Hin.
  - apply (bool_decide_unpack _). by vm_compute.
Qed.

(** ** WindCompass on the compass rose *)


(** ** Truncation and [math.Mod] *)

Lemma Qtrunc_opp (x : Q) : Qtrunc (- x) = - Qtrunc x.
Proof. unfold Qtrunc. destruct x as [n d]. cbn. by rewrite Z.quot_opp_l. Qed.

Lemma Qtrunc_nonpos (x : Q) : (x <= 0)%Q -> Qtrunc x = Qceiling x /\ Qtrunc x <= 0.
Proof.
  intros Hx.
  destruct (Qtrunc_nonneg (- x)) as [Hf H0]; [lra|].
  rewrite Qtrunc_opp in Hf, H0. unfold Qceiling. lia.
Qed.

Lemma Qtrunc_comp (x y : Q) : (x == y)%Q -> Qtrunc x = Qtrunc y.
Proof.
  intros Hxy. destruct (Qlt_le_dec x 0) as [Hx|Hx].
  - destruct (Qtrunc_nonpos x) as [-> _]; [lra|].
    destruct (Qtrunc_nonpos y) as [-> _]; [lra|].
    unfold Qceiling. f_equal. apply Qfloor_comp. lra.
  - destruct (Qtrunc_nonneg x) as [-> _]; [lra|].
    destruct (Qtrunc_nonneg y) as [-> _]; [lra|].
    by apply Qfloor_comp.
Qed.

(** [x - trunc x] has the sign of [x] and is less than one in size. *)
Lemma Qtrunc_frac (x : Q) :
  ((0 <= x -> 0 <= x - inject_Z (Qtrunc x) /\ x - inject_Z (Qtrunc x) < 1)
   /\ (x <= 0 -> -1 < x - inject_Z (Qtrunc x) /\ x - inject_Z (Qtrunc x) <= 0))%Q.
Proof.
  split; intros Hx.
  - destruct (Qtrunc_nonneg x Hx) as [-> _].
    pose proof (Qfloor_le x). pose proof (Qlt_floor x) as Hlt.
    rewrite inject_Z_plus in Hlt. change (inject_Z 1) with 1%Q in Hlt. lra.
  - destruct (Qtrunc_nonpos x Hx) as [-> _].
    pose proof (Qle_ceiling x). pose proof (Qceiling_lt x) as Hlt.
    unfold Z.sub in Hlt. rewrite inject_Z_plus, inject_Z_opp in Hlt.
    change (inject_Z 1) with 1%Q in Hlt. lra.
Qed.

Lemma Mod_div (x y : Q) :
  (0 < y)%Q -> (Mod x y / y == x / y - inject_Z (Qtrunc (x / y)))%Q.
Proof. intros Hy. unfold Mod. field. lra. Qed.

Lemma Qfloor_unique (x : Q) (z : Z) :
  (inject_Z z <= x)%Q -> (x < inject_Z z + 1)%Q -> Qfloor x = z.
Proof.
  intros H1 H2.
  pose proof (Qfloor_le x) as H3. pose proof (Qlt_floor x) as H4.
  rewrite inject_Z_plus in H4. change (inject_Z 1) with 1%Q in H4.
  assert (inject_Z (Qfloor x) < inject_Z (z + 1))%Q as H5
    by (rewrite inject_Z_plus; change (inject_Z 1) with 1%Q; lra).
  assert (inject_Z z < inject_Z (Qfloor x + 1))%Q as H6
    by (rewrite inject_Z_plus; change (inject_Z 1) with 1%Q; lra).
  rewrite <- Zlt_Qlt in H5, H6. lia.
Qed.

Section MoonProperties.
Context `{rt : Runtime}.

Lemma synodicMonth_pos : (0 < synodicMonth)%Q.
Proof. done. Qed.

(** X3: with [float64] read as exact rationals, [moonPhase] is the fractional
    part of the number of synodic months elapsed since the reference new
    moon, also for instants before it: it lies in [0, 1), never below 0. *)
Theorem moonPhase_fraction (t : Time.t) :
  let x := (Hours (Sub t referenceNewMoon) / 24 / synodicMonth)%Q in
  (moonPhase t == x - inject_Z (Qfloor x) /\ 0 <= moonPhase t /\ moonPhase t < 1)%Q.
Proof.
  intros x. unfold moonPhase.
  set (days := (Hours (Sub t referenceNewMoon) / 24)%Q).
  pose proof (Mod_div days synodicMonth synodicMonth_pos) as Hphase.
  change (days / synodicMonth)%Q with x in Hphase.
  set (phase := (Mod days synodicMonth / synodicMonth)%Q) in *.
  destruct (Qtrunc_frac x) as [Hpos Hneg].
  pose proof (Qfloor_le x) as Hfl. pose proof (Qlt_floor x) as Hfl'.
  rewrite inject_Z_plus in Hfl'. change (inject_Z 1) with 1%Q in Hfl'.
  assert (Hgoal : ((if float_lt phase 0 then phase + 1 else phase)
                   == x - inject_Z (Qfloor x))%Q).
  { destruct (float_lt phase 0) eqn:E; float_cmp.
    - destruct (Qlt_le_dec x 0) as [Hx|Hx]; [|destruct (Hpos Hx); lra].
      destruct Hneg as [Hn1 Hn2]; [lra|].
      assert (Qfloor x = Qtrunc x - 1) as ->.
      { apply Qfloor_unique; unfold Z.sub; rewrite inject_Z_plus, inject_Z_opp;
          change (inject_Z 1) with 1%Q; lra. }
      unfold Z.sub. rewrite inject_Z_plus, inject_Z_opp.
      change (inject_Z 1) with 1%Q. lra.
    - destruct (Qlt_le_dec x 0) as [Hx|Hx].
      + destruct Hneg as [Hn1 Hn2]; [lra|].
        assert (Qfloor x = Qtrunc x) as -> by (apply Qfloor_unique; lra). lra.
      + destruct (Qtrunc_nonneg x Hx) as [<- _]. lra. }
  split; [done|]. rewrite Hgoal. split; lra.
Qed.

End MoonProperties.

Lemma Z_quot_rem_bounds (a b : Z) :
  0 < b ->
  a = b * Z.quot a b + Z.rem a b
  /\ (0 <= a -> 0 <= Z.rem a b < b /\ 0 <= Z.quot a b <= a)
  /\ (a <= 0 -> - b < Z.rem a b <= 0 /\ a <= Z.quot a b <= 0).
Proof.
  intros Hb. pose proof (Z.quot_rem' a b) as Heq.
  split; [done|]. split; intros Ha.
  - pose proof (Z.rem_bound_pos a b Ha Hb).
    assert (0 <= Z.quot a b) by (apply Z.quot_pos; lia).
    assert (0 <= (b - 1) * Z.quot a b) by (apply Z.mul_nonneg_nonneg; lia).
    lia.
  - pose proof (Z.rem_bound_pos_neg a b).
    assert (Z.quot a b <= 0).
    { rewrite <- (Z.opp_involutive a), Z.quot_opp_l by lia.
      assert (0 <= Z.quot (- a) b) by (apply Z.quot_pos; lia). lia. }
    destruct (decide (a = 0)) as [->|]; [rewrite Z.rem_0_l, Z.quot_0_l by lia; lia|].
    assert (- b < Z.rem a b <= 0) by lia.
    assert ((b - 1) * Z.quot a b <= 0) by (apply Z.mul_nonneg_nonpos; lia).
    lia.
Qed.

Lemma int_of_float_Minutes (d : Z) :
  MinInt64 <= d <= MaxInt64 -> int_of_float (Minutes d) = Z.quot d Minute.
Proof.
  intros Hd. unfold int_of_float.
  rewrite (Qtrunc_comp _ _ (Minutes_exact d)).
  assert (Qtrunc (inject_Z d / inject_Z Minute) = Z.quot d Minute) as ->.
  { unfold Qtrunc. cbn. by rewrite Z.mul_1_r. }
  destruct (Z_quot_rem_bounds d Minute) as (_ & Hp & Hn); [done|].
  assert (MinInt64 <= Z.quot d Minute <= MaxInt64).
  { unfold MinInt64, MaxInt64 in *. destruct (Z_le_gt_dec 0 d); [destruct Hp|destruct Hn]; lia. }
  rewrite (proj2 (Z.leb_le MinInt64 _)) by lia.
  by rewrite (proj2 (Z.leb_le _ MaxInt64)) by lia.
Qed.

Section DaylightProperties.
Context `{rt : Runtime}.

Lemma Sub_range (t u : Time.t) : minDuration <= Sub t u <= maxDuration.
Proof.
  unfold Sub. cbv zeta.
  destruct (Z.ltb_spec ((Time.unix t - Time.unix u) * Second) minDuration);
    [by vm_compute|].
  destruct (Z.ltb_spec maxDuration ((Time.unix t - Time.unix u) * Second));
    [by vm_compute|lia].
Qed.

(** X4: the daylight text of [buildSunBar] is [<h>h <m>m] where [h] and [m]
    are the quotient and remainder by 60 of the whole minutes between sunrise
    and sunset, both truncated toward zero: they recompose to the minutes;
    with sunset not before sunrise [0 <= m < 60] and [0 <= h]; with sunset
    before sunrise both are negative or zero (the text then reads like
    [-1h -30m]); and away from the saturation of [Sub] the minutes are the
    seconds between the two instants divided by 60. *)
Theorem DaylightHours_decomposition (currentTimeStr sunriseStr sunsetStr timezone : string) :
  let tz := loadLocationOrUTC timezone in
  let sunrise := parseOrZero tz sunriseStr in
  let sunset := parseOrZero tz sunsetStr in
  let mins := Z.quot (Sub sunset sunrise) Minute in
  SunBar.DaylightHours (buildSunBar currentTimeStr sunriseStr sunsetStr timezone)
  = pretty (Z.quot mins 60) ++ "h " ++ pretty (Z.rem mins 60) ++ "m"
  /\ mins = 60 * Z.quot mins 60 + Z.rem mins 60
  /\ (Time.unix sunrise <= Time.unix sunset ->
      0 <= Z.quot mins 60 /\ 0 <= Z.rem mins 60 < 60)
  /\ (Time.unix sunset < Time.unix sunrise ->
      Z.quot mins 60 <= 0 /\ -60 < Z.rem mins 60 <= 0)
  /\ (minDuration <= (Time.unix sunset - Time.unix sunrise) * Second <= maxDuration ->
      mins = Z.quot (Time.unix sunset - Time.unix sunrise) 60).
Proof.
  intros tz sunrise sunset mins.
  pose proof (Sub_range sunset sunrise) as Hrange.
  destruct (Z_quot_rem_bounds (Sub sunset sunrise) Minute) as (_ & Hp & Hn); [done|].
  destruct (Z_quot_rem_bounds mins 60) as (Heq & Hp' & Hn'); [done|].
  assert (Hmins : MinInt64 <= mins <= MaxInt64).
  { subst mins. unfold minDuration, maxDuration, MinInt64, MaxInt64 in *.
    destruct (Z_le_gt_dec 0 (Sub sunset sunrise)); [destruct Hp|destruct Hn]; lia. }
  split.
  { unfold buildSunBar. cbn [SunBar.DaylightHours].
    fold tz. fold sunrise. fold sunset.
    rewrite int_of_float_Minutes by done. fold mins.
    unfold int_div, int_rem. rewrite wrap64_id; [done|].
    unfold MinInt64, MaxInt64 in *.
    destruct (Z_le_gt_dec 0 mins); [destruct Hp'|destruct Hn']; lia. }
  split; [done|].
  split.
  { intros Hle. assert (0 <= Sub sunset sunrise).
    { destruct (Z_lt_le_dec (Sub sunset sunrise) 0) as [Hlt|]; [|done].
      apply Sub_neg in Hlt. lia. }
    assert (0 <= mins) by (destruct Hp; [done|subst mins; lia]).
    destruct Hp'; [done|]. lia. }
  split.
  { intros Hlt. apply Sub_neg in Hlt.
    assert (mins <= 0) by (destruct Hn; [lia|subst mins; lia]).
    destruct Hn'; [done|]. lia. }
  intros Hsat. subst mins. rewrite Sub_exact by done.
  change Minute with (60 * Second). by rewrite Z.quot_mul_cancel_r.
Qed.

End DaylightProperties.

Lemma index_not_Err {A} (s : list A) (i : Z) (e : string) : index s i <> Err e.
Proof. unfold index. by repeat case_match. Qed.

Lemma forecastLoop_not_Err (d : dailyRaw.t) (times : list string) (e : string) :
  forall i forecast, forecastLoop d i times forecast <> Err e.
Proof.
  induction times as [|date rest IH]; intros i forecast; cbn [forecastLoop]; [done|].
  destruct (_ || _); [done|].
  destruct (i <? len (dailyRaw.PrecipProbMax d)).
  - destruct (index (dailyRaw.PrecipProbMax d) i) eqn:E; cbn; [|by apply index_not_Err in E|done].
    destruct (index (dailyRaw.WeatherCode d) i) eqn:E1; cbn; [|by apply index_not_Err in E1|done].
    destruct (index (dailyRaw.TempMax d) i) eqn:E2; cbn; [|by apply index_not_Err in E2|done].
    destruct (index (dailyRaw.TempMin d) i) eqn:E3; cbn; [|by apply index_not_Err in E3|done].
    destruct (index (dailyRaw.WindMax d) i) eqn:E4; cbn; [|by apply index_not_Err in E4|done].
    apply IH.
  - cbn.
    destruct (index (dailyRaw.WeatherCode d) i) eqn:E1; cbn; [|by apply index_not_Err in E1|done].
    destruct (index (dailyRaw.TempMax d) i) eqn:E2; cbn; [|by apply index_not_Err in E2|done].
    destruct (index (dailyRaw.TempMin d) i) eqn:E3; cbn; [|by apply index_not_Err in E3|done].
    destruct (index (dailyRaw.WindMax d) i) eqn:E4; cbn; [|by apply index_not_Err in E4|done].
    apply IH.
Qed.

Section AggregatorProperties.
Context `{rt : Runtime}.

Lemma parseHourly_Ret (h : hourlyRaw.t) (currentTimeStr timezone : string) :
  exists points, parseHourly h currentTimeStr timezone = Ret points
                 /\ (length points <= 24)%nat.
Proof.
  unfold parseHourly. cbv zeta.
  destruct (ParseTime layout currentTimeStr (loadLocationOrUTC timezone)) as [now|].
  - eexists. split.
    + apply (hourlyLoop_take (hourlyPoint h) (hourlyPointAt h)); [done| |cbn; lia].
      intros j t Hj. by apply hourlyPoint_Ret.
    + cbn [app length]. rewrite length_take. lia.
  - exists []. split; [done|cbn; lia].
Qed.

Lemma Geocode_never_panics (c : Client) (city : string) :
  is_Panic (Geocode c city) = false.
Proof.
  unfold Geocode. cbv zeta. destruct (getJSON _ _ _) as [tr [[e|] geo]]; [done|].
  by destruct (geoResponse.Results geo).
Qed.

(** X5: the outcomes of [GetWeather].  A geocoding error is returned as it
    is, and geocoding itself never panics.  After a successful geocoding, a
    failure of the forecast request is returned with the prefix
    [forecast: ]; a panic of the daily loop is the panic of [GetWeather]; the
    daily loop never returns an error; and when it returns the days, the
    report carries the name of the geocoded place, the display of the current
    block, those days, at most 24 hourly points and the consensus fetched for
    the geocoded coordinates with the units sent to the API. *)
Theorem GetWeather_outcome (c : Client) (city units : string) :
  (forall e, Geocode c city = Err e -> GetWeather c city units = Err e)
  /\ is_Panic (Geocode c city) = false
  /\ (forall loc, Geocode c city = Ret loc ->
        let tempUnit := if String.eqb units "imperial" then "fahrenheit" else "celsius" in
        let windUnit := if String.eqb units "imperial" then "mph" else "kmh" in
        let r := getJSON c (forecastRequestURL loc tempUnit windUnit) forecastRaw.zero in
        let raw := r.2.2 in
        (forall e, r.2.1 = Some e -> GetWeather c city units = Err ("forecast: " ++ e))
        /\ (forall msg, r.2.1 = None ->
              buildForecast (forecastRaw.Daily raw) = Panic msg ->
              GetWeather c city units = Panic msg)
        /\ (forall e, buildForecast (forecastRaw.Daily raw) <> Err e)
        /\ (forall days, r.2.1 = None ->
              buildForecast (forecastRaw.Daily raw) = Ret days ->
              exists info,
                GetWeather c city units = Ret info
                /\ WeatherInfo.CityName info = GeoLocation.Name loc
                /\ WeatherInfo.Current info = currentDisplay (forecastRaw.Current raw)
                /\ WeatherInfo.Forecast info = days
                /\ (length (WeatherInfo.Hourly info) <= 24)%nat
                /\ WeatherInfo.Consensus info
                   = Some (FetchConsensus c (GeoLocation.Latitude loc)
                             (GeoLocation.Longitude loc) (GeoLocation.Timezone loc)
                             tempUnit windUnit))).
Proof.
  split.
  { intros e He. unfold GetWeather. by rewrite He. }
  split; [apply Geocode_never_panics|].
  intros loc Hloc tempUnit windUnit r raw.
  assert (Hunfold : GetWeather c city units =
    match r.2.1 with
    | Some e => Err ("forecast: " ++ e)
    | None =>
        forecast ← buildForecast (forecastRaw.Daily raw);
        sun ← (if (0 <? len (dailyRaw.Sunrise (forecastRaw.Daily raw)))
                  && (0 <? len (dailyRaw.Sunset (forecastRaw.Daily raw)))
               then
                 sunrise0 ← index (dailyRaw.Sunrise (forecastRaw.Daily raw)) 0;
                 sunset0 ← index (dailyRaw.Sunset (forecastRaw.Daily raw)) 0;
                 Ret (buildSunBar (currentRaw.Time (forecastRaw.Current raw)) sunrise0 sunset0
                        (GeoLocation.Timezone loc))
               else Ret SunBar.zero);
        hourly ← parseHourly (forecastRaw.Hourly raw)
                   (currentRaw.Time (forecastRaw.Current raw)) (GeoLocation.Timezone loc);
        Ret {| WeatherInfo.CityName := GeoLocation.Name loc;
               WeatherInfo.Country := GeoLocation.Country loc;
               WeatherInfo.CountryCode := GeoLocation.CountryCode loc;
               WeatherInfo.TempUnit := TempUnitSymbol units;
               WeatherInfo.WindUnit := WindUnitLabel units;
               WeatherInfo.Current := currentDisplay (forecastRaw.Current raw);
               WeatherInfo.Forecast := forecast;
               WeatherInfo.Hourly := hourly;
               WeatherInfo.Sun := sun;
               WeatherInfo.Consensus :=
                 Some (FetchConsensus c (GeoLocation.Latitude loc)
                         (GeoLocation.Longitude loc) (GeoLocation.Timezone loc)
                         tempUnit windUnit) |}
    end).
  { unfold GetWeather. rewrite Hloc, bind_Ret. subst raw r tempUnit windUnit.
    destruct (String.eqb units "imperial");
      by destruct (getJSON _ _ _) as [tr [[e|] raw]]. }
  split.
  { intros e He. by rewrite Hunfold, He. }
  split.
  { intros msg He Hp. by rewrite Hunfold, He, Hp. }
  split.
  { intros e. apply forecastLoop_not_Err. }
  intros days He Hdays. rewrite Hunfold, He, Hdays, bind_Ret.
  assert (exists sun,
    (if (0 <? len (dailyRaw.Sunrise (forecastRaw.Daily raw)))
        && (0 <? len (dailyRaw.Sunset (forecastRaw.Daily raw)))
     then
       sunrise0 ← index (dailyRaw.Sunrise (forecastRaw.Daily raw)) 0;
       sunset0 ← index (dailyRaw.Sunset (forecastRaw.Daily raw)) 0;
       Ret (buildSunBar (currentRaw.Time (forecastRaw.Current raw)) sunrise0 sunset0
              (GeoLocation.Timezone loc))
     else Ret SunBar.zero) = Ret sun) as [sun ->].
  { destruct (0 <? len _) eqn:E1; [|by eexists].
    destruct (0 <? len (dailyRaw.Sunset _)) eqn:E2; [|by eexists]. cbn [andb].
    apply Z.ltb_lt in E1, E2.
    destruct (index_Ret (dailyRaw.Sunrise (forecastRaw.Daily raw)) 0) as (a & -> & _); [lia|].
    destruct (index_Ret (dailyRaw.Sunset (forecastRaw.Daily raw)) 0) as (b & -> & _); [lia|].
    rewrite !bind_Ret. by eexists. }
  rewrite bind_Ret.
  destruct (parseHourly_Ret (forecastRaw.Hourly raw)
              (currentRaw.Time (forecastRaw.Current raw)) (GeoLocation.Timezone loc))
    as (hourly & -> & Hlen).
  rewrite bind_Ret. eexists. split; [done|]. by cbn.
Qed.

End AggregatorProperties.

(** *** The running sum lies between the running extremes *)



(** A value rounded to one decimal is a whole number of tenths. *)
Lemma round1_tenths (x : Q) : exists z : Z, round1 x = (inject_Z z / 10)%Q.
Proof. unfold round1, Round. by eexists. Qed.

Lemma round1_of_tenths (z : Z) : round1 (inject_Z z / 10) = (inject_Z z / 10)%Q.
Proof.
  unfold round1. rewrite (Round_comp _ (inject_Z z)) by field.
  by rewrite Round_inject_Z.
Qed.

Lemma round1_sub_round1 (x y : Q) :
  (round1 (round1 x - round1 y) == round1 x - round1 y)%Q.
Proof.
  destruct (round1_tenths x) as [a ->]. destruct (round1_tenths y) as [b ->].
  rewrite (round1_comp _ (inject_Z (a - b) / 10)).
  - rewrite round1_of_tenths. unfold Z.sub. rewrite inject_Z_plus, inject_Z_opp. field.
  - unfold Z.sub. rewrite inject_Z_plus, inject_Z_opp. field.
Qed.


(** *** Unavailable readings do not count *)

Lemma foldl_accumulate_filter (l : list ModelReading.t) (s : sums) :
  foldl accumulate s (filter available l) = foldl accumulate s l.
Proof.
  revert s. induction l as [|r l IH]; intros s; [done|].
  rewrite filter_cons. destruct (decide (available r)) as [Hr|Hr]; cbn [foldl].
  - apply IH.
  - rewrite (accumulate_unavailable s r); [apply IH|].
    unfold available in Hr. by destruct (ModelReading.Available r).
Qed.

(** X7: the statistics of [FetchConsensus] are those of the available
    readings alone: dropping the unavailable readings changes no statistic;
    [Models] still lists every reading. *)
Theorem consensus_ignores_unavailable (readings : list ModelReading.t) :
  let all := consensusStats readings in
  let avail := consensusStats (filter available readings) in
  ConsensusInfo.AvailCount all = ConsensusInfo.AvailCount avail
  /\ ConsensusInfo.AvgTemp all = ConsensusInfo.AvgTemp avail
  /\ ConsensusInfo.AvgHumidity all = ConsensusInfo.AvgHumidity avail
  /\ ConsensusInfo.AvgWind all = ConsensusInfo.AvgWind avail
  /\ ConsensusInfo.AvgPressure all = ConsensusInfo.AvgPressure avail
  /\ ConsensusInfo.MinTemp all = ConsensusInfo.MinTemp avail
  /\ ConsensusInfo.MaxTemp all = ConsensusInfo.MaxTemp avail
  /\ ConsensusInfo.Spread all = ConsensusInfo.Spread avail
  /\ ConsensusInfo.AgreePct all = ConsensusInfo.AgreePct avail
  /\ ConsensusInfo.Agreement all = ConsensusInfo.Agreement avail
  /\ ConsensusInfo.Models all = readings.
Proof.
  cbv zeta. unfold consensusStats. rewrite foldl_accumulate_filter.
  set (s := foldl accumulate sums0 readings).
  destruct (count s =? 0).
  - repeat split.
  - cbn [ConsensusInfo.AvailCount ConsensusInfo.AvgTemp ConsensusInfo.MinTemp
       ConsensusInfo.MaxTemp ConsensusInfo.AvgWind ConsensusInfo.AvgPressure
       ConsensusInfo.AvgHumidity ConsensusInfo.Spread ConsensusInfo.AgreePct
       ConsensusInfo.Agreement ConsensusInfo.Models].
    repeat split.
Qed.

(** *** A single answering model *)

Lemma agreePct_comp (x y : Q) : (x == y)%Q -> agreePct x = agreePct y.
Proof.
  intros Hxy. unfold agreePct, int_of_float.
  by rewrite (Qtrunc_comp (x * 12) (y * 12)) by (by rewrite Hxy).
Qed.

Lemma accumulate_first (r : ModelReading.t) :
  ModelReading.Available r = true ->
  finite64 (ModelReading.Temp r) ->
  let s := accumulate sums0 r in
  count s = 1
  /\ sumHumidity s = wrap64 (ModelReading.Humidity r)
  /\ (sumTemp s == ModelReading.Temp r /\ sumWind s == ModelReading.WindSpeed r
      /\ sumPressure s == ModelReading.Pressure r
      /\ minTemp s == ModelReading.Temp r /\ maxTemp s == ModelReading.Temp r)%Q.
Proof.
  intros Hr [Hlo Hhi] s. subst s. unfold accumulate. rewrite Hr.
  cbn [negb sums0 count sumTemp sumWind sumPressure sumHumidity minTemp maxTemp].
  split; [done|]. split; [done|].
  split; [lra|]. split; [lra|]. split; [lra|].
  split.
  - destruct (float_lt _ _) eqn:E; float_cmp; [done|lra].
  - destruct (float_gt _ _) eqn:E; float_cmp; [done|lra].
Qed.

(** X8: with [float64] read as exact rationals, when exactly one model is
    available every average, the minimum and the maximum are that model's
    values (rounded to one decimal; the humidity as it is), the spread is 0,
    the agreement is 100 percent and the label is [High]. *)
Theorem consensus_single_model (readings : list ModelReading.t) (r : ModelReading.t) :
  filter available readings = [r] ->
  finite64 (ModelReading.Temp r) ->
  MinInt64 <= ModelReading.Humidity r <= MaxInt64 ->
  let cons := consensusStats readings in
  ConsensusInfo.AvailCount cons = 1
  /\ ConsensusInfo.AvgTemp cons = round1 (ModelReading.Temp r)
  /\ ConsensusInfo.MinTemp cons = round1 (ModelReading.Temp r)
  /\ ConsensusInfo.MaxTemp cons = round1 (ModelReading.Temp r)
  /\ ConsensusInfo.AvgWind cons = round1 (ModelReading.WindSpeed r)
  /\ ConsensusInfo.AvgPressure cons = round1 (ModelReading.Pressure r)
  /\ ConsensusInfo.AvgHumidity cons = ModelReading.Humidity r
  /\ (ConsensusInfo.Spread cons == 0)%Q
  /\ ConsensusInfo.AgreePct cons = 100
  /\ ConsensusInfo.Agreement cons = "High".
Proof.
  intros Hone Hfin Hhum cons. subst cons.
  assert (Hin : r ∈ filter available readings) by (rewrite Hone; left).
  apply list_elem_of_filter in Hin as [Hr Hin].
  assert (Hex : Exists available readings) by (apply Exists_exists; eauto).
  rewrite (consensusStats_some readings Hex). cbv zeta.
  rewrite <- foldl_accumulate_filter, Hone. cbn [foldl].
  destruct (accumulate_first r Hr Hfin) as (Hc & Hh & Ht & Hw & Hp & Hmin & Hmax).
  set (s := accumulate sums0 r) in *.
  cbn [ConsensusInfo.AvailCount ConsensusInfo.AvgTemp ConsensusInfo.MinTemp
       ConsensusInfo.MaxTemp ConsensusInfo.AvgWind ConsensusInfo.AvgPressure
       ConsensusInfo.AvgHumidity ConsensusInfo.Spread ConsensusInfo.AgreePct
       ConsensusInfo.Agreement].
  rewrite Hc, Hh. unfold float_of_int. change (inject_Z 1) with 1%Q.
  rewrite (round1_comp _ _ Hmin), (round1_comp _ _ Hmax).
  assert (Hsp : (round1 (round1 (ModelReading.Temp r) - round1 (ModelReading.Temp r))
                 == 0)%Q)
    by (rewrite round1_sub_round1; lra).
  split; [done|].
  split; [apply round1_comp; rewrite Ht; field|].
  split; [done|]. split; [done|].
  split; [apply round1_comp; rewrite Hw; field|].
  split; [apply round1_comp; rewrite Hp; field|].
  split.
  { unfold int_div. rewrite Z.quot_1_r.
    by rewrite !wrap64_id by (by rewrite ?wrap64_id). }
  split; [done|].
  by rewrite (agreePct_comp _ 0 Hsp).
Qed.

(** ** More float64 comparisons *)

Lemma float_le_spec (x y : Q) : float_le x y = true <-> (x <= y)%Q.
Proof. apply Qle_bool_iff. Qed.

Lemma float_le_false (x y : Q) : float_le x y = false <-> (y < x)%Q.
Proof.
  rewrite <- not_true_iff_false, float_le_spec. split; [apply Qnot_le_lt|apply Qlt_not_le].
Qed.

Lemma float_ge_spec (x y : Q) : float_ge x y = true <-> (y <= x)%Q.
Proof. apply float_le_spec. Qed.

Lemma float_ge_false (x y : Q) : float_ge x y = false <-> (x < y)%Q.
Proof. apply float_le_false. Qed.

(** Every comparison among the hypotheses becomes an inequality. *)
Ltac float_ineq :=
  repeat match goal with
  | H : _ && _ = true |- _ => apply andb_true_iff in H as [? ?]
  | H : float_gt _ _ = _ |- _ => unfold float_gt in H
  | H : float_lt _ _ = true |- _ => apply float_lt_spec in H
  | H : float_lt _ _ = false |- _ => apply float_lt_false in H
  | H : float_le _ _ = true |- _ => apply float_le_spec in H
  | H : float_le _ _ = false |- _ => apply float_le_false in H
  | H : float_ge _ _ = true |- _ => apply float_ge_spec in H
  | H : float_ge _ _ = false |- _ => apply float_ge_false in H
  end.

(** ** Alerts *)

Lemma appendIf_app {A} (b : bool) (a : A) (s : list A) :
  appendIf b a s = (s ++ (if b then [a] else []))%list.
Proof. destruct b; [done|]. by rewrite app_nil_r. Qed.

Lemma appendIf_sublist {A} (b : bool) (a : A) (s c : list A) :
  s `sublist_of` c -> appendIf b a s `sublist_of` (c ++ [a])%list.
Proof.
  intros Hs. rewrite appendIf_app. apply sublist_app; [done|].
  destruct b; [done|apply sublist_nil_l].
Qed.

Lemma length_appendIf {A} (b : bool) (a : A) (s : list A) :
  length (appendIf b a s) = (length s + Nat.b2n b)%nat.
Proof. destruct b; cbn; [rewrite length_app; cbn|]; lia. Qed.

Lemma elem_of_appendIf {A} (b : bool) (a x : A) (s : list A) :
  x ∈ appendIf b a s <-> x ∈ s \/ (b = true /\ x = a).
Proof.
  unfold appendIf. destruct b.
  - rewrite elem_of_app, list_elem_of_singleton. split.
    + intros [Hx|Hx]; [by left|by right].
    + intros [Hx|[_ Hx]]; [by left|by right].
  - split; [by left|]. by intros [Hx|[Hb _]].
Qed.

Lemma StronglySorted_sublist {A} (R : A -> A -> Prop) (l k : list A) :
  l `sublist_of` k -> StronglySorted R k -> StronglySorted R l.
Proof.
  induction 1 as [|x l k Hlk IH|x l k Hlk IH]; intros Hk; [done|..].
  - apply StronglySorted_inv in Hk as [Hk Hx]. constructor; [by apply IH|].
    rewrite Forall_forall in Hx |- *. intros y Hy. apply Hx.
    by eapply elem_of_sublist.
  - apply StronglySorted_inv in Hk as [Hk _]. by apply IH.
Qed.

Lemma icon_alerts_exclusive (icon : string) :
  (Nat.b2n (isThunder icon) + Nat.b2n (isHeavyRain icon) + Nat.b2n (isHeavySnow icon)
   + Nat.b2n (isFog icon) <= 1)%nat.
Proof.
  unfold isThunder, isHeavyRain, isHeavySnow, isFog.
  destruct (String.eqb_spec icon "wi-thunderstorm") as [->|]; [by vm_compute|].
  destruct (String.eqb_spec icon "wi-storm-showers") as [->|]; [by vm_compute|].
  destruct (String.eqb_spec icon "wi-rain-wind") as [->|]; [by vm_compute|].
  destruct (String.eqb_spec icon "wi-snow-wind") as [->|]; [by vm_compute|].
  destruct (String.eqb_spec icon "wi-fog"); cbn; lia.
Qed.

Lemma banded_alerts_exclusive (x a b c : Q) :
  (a <= b)%Q -> (b <= c)%Q ->
  (Nat.b2n (float_ge x c) + Nat.b2n (float_ge x b && float_lt x c)
   + Nat.b2n (float_ge x a && float_lt x b) <= 1)%nat.
Proof.
  intros Hab Hbc.
  destruct (float_ge x c) eqn:E1, (float_ge x b) eqn:E2, (float_lt x c) eqn:E3,
    (float_ge x a) eqn:E4, (float_lt x b) eqn:E5; cbn; try lia; float_ineq; lra.
Qed.

(** X9: [Alerts] returns its alerts ordered by severity (danger, then
    warning, then info), no title occurs twice, and at most five alerts are
    returned. *)
Theorem Alerts_ordered_by_severity (info : WeatherInfo.t) :
  StronglySorted (fun a b => severity (Alert.Level a) <= severity (Alert.Level b))
    (Alerts info)
  /\ NoDup (Alert.Title <$> Alerts info)
  /\ (length (Alerts info) <= 5)%nat.
Proof.
  assert (Hsub : exists catalogue,
            Alerts info `sublist_of` catalogue
            /\ (Alert.Level <$> catalogue)
               = [AlertDanger; AlertDanger; AlertDanger; AlertDanger;
                  AlertWarning; AlertWarning; AlertWarning; AlertWarning; AlertWarning;
                  AlertInfo; AlertInfo; AlertInfo]
            /\ NoDup (Alert.Title <$> catalogue)).
  { eexists. split.
    - unfold Alerts. cbv zeta. do 12 apply appendIf_sublist. apply sublist_nil.
    - split; [reflexivity|]. apply (bool_decide_unpack _). by vm_compute. }
  destruct Hsub as (catalogue & Hsub & Hlevels & Hdup).
  split; [|split].
  - apply (StronglySorted_sublist _ _ catalogue Hsub).
    assert (Hs : StronglySorted (fun a b => severity a <= severity b)
                   (Alert.Level <$> catalogue)).
    { rewrite Hlevels. repeat (constructor; [|by repeat constructor]). constructor. }
    clear -Hs. induction catalogue as [|a l IH]; [constructor|].
    cbn in Hs. apply StronglySorted_inv in Hs as [Hs Ha].
    constructor; [by apply IH|]. by rewrite Forall_fmap in Ha.
  - eapply sublist_NoDup; [exact Hdup|]. by apply fmap_sublist.
  - unfold Alerts. cbv zeta. rewrite !length_appendIf. cbn [length].
    set (cur := WeatherInfo.Current info).
    pose proof (icon_alerts_exclusive (CurrentDisplay.Icon cur)) as Hicon.
    set (feelsC := toCelsius (CurrentDisplay.FeelsLike cur) (WeatherInfo.TempUnit info)).
    set (windKmh := toKmh (CurrentDisplay.WindSpeed cur) (WeatherInfo.WindUnit info)).
    pose proof (banded_alerts_exclusive windKmh 39 62 118 ltac:(done) ltac:(done))
      as Hwind.
    assert (Hfeels : (Nat.b2n (float_le feelsC (-15)) + Nat.b2n (float_ge feelsC 40)
                      + Nat.b2n (float_ge feelsC 35 && float_lt feelsC 40) <= 1)%nat).
    { destruct (float_le feelsC (-15)) eqn:E1, (float_ge feelsC 40) eqn:E2,
        (float_ge feelsC 35) eqn:E3, (float_lt feelsC 40) eqn:E4;
        cbn; try lia; float_ineq; lra. }
    repeat match goal with
    | |- context [Nat.b2n ?b] =>
        let n := fresh "n" in
        let H := fresh in
        assert (H : (Nat.b2n b <= 1)%nat) by (destruct b; cbn; lia);
        set (n := Nat.b2n b) in *; clearbody n
    end.
    lia.
Qed.

(** Which alerts a report carries: each title with the condition that
    raises it. *)
Lemma Alerts_titles (info : WeatherInfo.t) (title : string) :
  let cur := WeatherInfo.Current info in
  let tempC := toCelsius (CurrentDisplay.Temp cur) (WeatherInfo.TempUnit info) in
  let feelsC := toCelsius (CurrentDisplay.FeelsLike cur) (WeatherInfo.TempUnit info) in
  let windKmh := toKmh (CurrentDisplay.WindSpeed cur) (WeatherInfo.WindUnit info) in
  (exists a, a ∈ Alerts info /\ Alert.Title a = title)
  <-> (isThunder (CurrentDisplay.Icon cur) = true /\ title = "THUNDERSTORM ACTIVE")
      \/ (float_le feelsC (-15) = true /\ title = "EXTREME COLD")
      \/ (float_ge feelsC 40 = true /\ title = "EXTREME HEAT")
      \/ (float_ge windKmh 118 = true /\ title = "HURRICANE-FORCE WIND")
      \/ (isHeavyRain (CurrentDisplay.Icon cur) = true /\ title = "HEAVY RAIN")
      \/ (isHeavySnow (CurrentDisplay.Icon cur) = true /\ title = "HEAVY SNOW")
      \/ (float_lt tempC 0 && float_gt tempC (-15) = true /\ title = "FREEZING CONDITIONS")
      \/ (float_ge feelsC 35 && float_lt feelsC 40 = true /\ title = "HEATWAVE WARNING")
      \/ (float_ge windKmh 62 && float_lt windKmh 118 = true
          /\ title = "STRONG WIND WARNING")
      \/ (isFog (CurrentDisplay.Icon cur) = true /\ title = "FOG ADVISORY")
      \/ ((85 <=? CurrentDisplay.Humidity cur) = true /\ title = "HIGH HUMIDITY")
      \/ (float_ge windKmh 39 && float_lt windKmh 62 = true /\ title = "WINDY CONDITIONS").
Proof.
  intros cur tempC feelsC windKmh. unfold Alerts. cbv zeta.
  fold cur. fold tempC. fold feelsC. fold windKmh.
  repeat setoid_rewrite elem_of_appendIf.
  split.
  - intros (a & Ha & <-).
    repeat (destruct Ha as [Ha|[Hb ->]];
            [|cbn [Alert.Title];
              repeat first [left; split; [exact Hb|reflexivity]
                           |right
                           |split; [exact Hb|reflexivity]]]).
    by apply elem_of_nil in Ha.
  - intros H. repeat destruct H as [[Hb ->]|H]; [..|destruct H as [Hb ->]];
      (eexists; split;
       [repeat first [right; split; [exact Hb|reflexivity]|left]
       |reflexivity]).
Qed.

Section AlertsOfReport.
Context `{rt : Runtime}.

(** What a report that [GetWeather] returns carries in its unit labels and
    its current block. *)
Lemma GetWeather_Ret_inv (c : Client) (city units : string) (info : WeatherInfo.t) :
  GetWeather c city units = Ret info ->
  WeatherInfo.TempUnit info = TempUnitSymbol units
  /\ WeatherInfo.WindUnit info = WindUnitLabel units
  /\ exists cur, WeatherInfo.Current info = currentDisplay cur.
Proof.
  unfold GetWeather. intros H.
  apply bind_Ret_inv in H as (loc & _ & H).
  destruct (String.eqb units "imperial");
    destruct (getJSON _ _ _) as [tr [[e|] raw]]; try done;
    apply bind_Ret_inv in H as (forecast & _ & H);
    apply bind_Ret_inv in H as (sun & _ & H);
    apply bind_Ret_inv in H as (hourly & _ & H);
    injection H as <-; cbn; eauto.
Qed.

Lemma toCelsius_TempUnitSymbol (temp : Q) (units : string) :
  toCelsius temp (TempUnitSymbol units)
  = if String.eqb units "imperial" then ((temp - 32) * 5 / 9)%Q else temp.
Proof. unfold toCelsius, TempUnitSymbol. by destruct (String.eqb units "imperial"). Qed.

Lemma toKmh_WindUnitLabel (speed : Q) (units : string) :
  toKmh speed (WindUnitLabel units)
  = if String.eqb units "imperial" then (speed * (160934 # 100000))%Q else speed.
Proof. unfold toKmh, WindUnitLabel. by destruct (String.eqb units "imperial"). Qed.

Lemma icon_alerts_by_description (code : Z) :
  (isThunder (WMOIconClass code) = true
   <-> WMODescription code = "Thunderstorm"
       \/ WMODescription code = "Thunderstorm with hail")
  /\ (isHeavyRain (WMOIconClass code) = true <-> WMODescription code = "Heavy rain")
  /\ (isHeavySnow (WMOIconClass code) = true <-> WMODescription code = "Heavy snow")
  /\ (isFog (WMOIconClass code) = true <-> WMODescription code = "Fog").
Proof.
  revert code. apply WMO_cases.
  - intros code H. destruct (WMO_tables_out_of_range code H) as [-> ->].
    apply (bool_decide_unpack _). by vm_compute.
  - apply (bool_decide_unpack _). by vm_compute.
Qed.

Ltac alert_shown Htitles :=
  rewrite Htitles; split;
  [ intros H;
    repeat (destruct H as [[Hb Ht]|H]; [first [discriminate Ht|exact Hb]|]);
    destruct H as [Hb Ht]; first [discriminate Ht|exact Hb]
  | intros Hb;
    repeat first [left; split; [exact Hb|reflexivity]
                 |right
                 |split; [exact Hb|reflexivity]] ].

(** X10: for a report returned by [GetWeather], [Alerts] judges the
    temperatures in the units of the request (with [float64] read as exact
    rationals): extreme heat from a feels-like of 40 C or 104 F, heatwave
    from 35 C or 95 F up to that, extreme cold up to a feels-like of -15 C or
    5 F, freezing for a temperature strictly between -15 C (5 F) and 0 C
    (32 F).  The condition alerts follow the description of the current
    weather, and the humidity alert starts at 85 percent. *)
Theorem Alerts_thresholds_by_units (c : Client) (city units : string)
    (info : WeatherInfo.t) :
  GetWeather c city units = Ret info ->
  let cur := WeatherInfo.Current info in
  let imperial := String.eqb units "imperial" in
  let shown title := exists a, a ∈ Alerts info /\ Alert.Title a = title in
  (shown "EXTREME HEAT"
   <-> ((if imperial then 104 else 40) <= CurrentDisplay.FeelsLike cur)%Q)
  /\ (shown "HEATWAVE WARNING"
      <-> ((if imperial then 95 else 35) <= CurrentDisplay.FeelsLike cur
           /\ CurrentDisplay.FeelsLike cur < (if imperial then 104 else 40))%Q)
  /\ (shown "EXTREME COLD"
      <-> (CurrentDisplay.FeelsLike cur <= (if imperial then 5 else -15))%Q)
  /\ (shown "FREEZING CONDITIONS"
      <-> ((if imperial then 5 else -15) < CurrentDisplay.Temp cur
           /\ CurrentDisplay.Temp cur < (if imperial then 32 else 0))%Q)
  /\ (shown "THUNDERSTORM ACTIVE"
      <-> CurrentDisplay.Description cur = "Thunderstorm"
          \/ CurrentDisplay.Description cur = "Thunderstorm with hail")
  /\ (shown "HEAVY RAIN" <-> CurrentDisplay.Description cur = "Heavy rain")
  /\ (shown "HEAVY SNOW" <-> CurrentDisplay.Description cur = "Heavy snow")
  /\ (shown "FOG ADVISORY" <-> CurrentDisplay.Description cur = "Fog")
  /\ (shown "HIGH HUMIDITY" <-> 85 <= CurrentDisplay.Humidity cur).
Proof.
  intros Hret cur imperial shown.
  destruct (GetWeather_Ret_inv c city units info Hret) as (Htu & Hwu & raw & Hcur).
  destruct (icon_alerts_by_description (currentRaw.WeatherCode raw))
    as (Hthunder & Hrain & Hsnow & Hfog).
  pose proof (fun title => Alerts_titles info title) as Htitles. cbv zeta in Htitles.
  fold cur in Htitles. rewrite Htu, Hwu in Htitles.
  assert (Hicon : CurrentDisplay.Icon cur = WMOIconClass (currentRaw.WeatherCode raw))
    by (subst cur; by rewrite Hcur).
  assert (Hdesc : CurrentDisplay.Description cur
                  = WMODescription (currentRaw.WeatherCode raw))
    by (subst cur; by rewrite Hcur).
  rewrite Hdesc, <- Hthunder, <- Hrain, <- Hsnow, <- Hfog, <- Hicon.
  subst shown. cbv beta.
  assert (Hheat : (exists a, a ∈ Alerts info /\ Alert.Title a = "EXTREME HEAT")
    <-> float_ge (toCelsius (CurrentDisplay.FeelsLike cur) (TempUnitSymbol units)) 40
        = true) by alert_shown Htitles.
  assert (Hwave : (exists a, a ∈ Alerts info /\ Alert.Title a = "HEATWAVE WARNING")
    <-> float_ge (toCelsius (CurrentDisplay.FeelsLike cur) (TempUnitSymbol units)) 35
        && float_lt (toCelsius (CurrentDisplay.FeelsLike cur) (TempUnitSymbol units)) 40
        = true) by alert_shown Htitles.
  assert (Hcold : (exists a, a ∈ Alerts info /\ Alert.Title a = "EXTREME COLD")
    <-> float_le (toCelsius (CurrentDisplay.FeelsLike cur) (TempUnitSymbol units)) (-15)
        = true) by alert_shown Htitles.
  assert (Hfreeze : (exists a, a ∈ Alerts info /\ Alert.Title a = "FREEZING CONDITIONS")
    <-> float_lt (toCelsius (CurrentDisplay.Temp cur) (TempUnitSymbol units)) 0
        && float_gt (toCelsius (CurrentDisplay.Temp cur) (TempUnitSymbol units)) (-15)
        = true) by alert_shown Htitles.
  assert (Hth : (exists a, a ∈ Alerts info /\ Alert.Title a = "THUNDERSTORM ACTIVE")
    <-> isThunder (CurrentDisplay.Icon cur) = true) by alert_shown Htitles.
  assert (Hhr : (exists a, a ∈ Alerts info /\ Alert.Title a = "HEAVY RAIN")
    <-> isHeavyRain (CurrentDisplay.Icon cur) = true) by alert_shown Htitles.
  assert (Hhs : (exists a, a ∈ Alerts info /\ Alert.Title a = "HEAVY SNOW")
    <-> isHeavySnow (CurrentDisplay.Icon cur) = true) by alert_shown Htitles.
  assert (Hfg : (exists a, a ∈ Alerts info /\ Alert.Title a = "FOG ADVISORY")
    <-> isFog (CurrentDisplay.Icon cur) = true) by alert_shown Htitles.
  assert (Hhum : (exists a, a ∈ Alerts info /\ Alert.Title a = "HIGH HUMIDITY")
    <-> (85 <=? CurrentDisplay.Humidity cur) = true) by alert_shown Htitles.
  rewrite Hheat, Hwave, Hcold, Hfreeze, Hth, Hhr, Hhs, Hfg, Hhum.
  rewrite !toCelsius_TempUnitSymbol. fold imperial.
  rewrite !andb_true_iff, !float_ge_spec, !float_le_spec, !float_lt_spec.
  unfold float_gt. rewrite float_lt_spec, Z.leb_le.
  assert (Hconv : forall x : Q, ((x - 32) * 5 / 9 == (x - 32) * (5 # 9))%Q)
    by (intros; field).
  pose proof (Hconv (CurrentDisplay.FeelsLike cur)).
  pose proof (Hconv (CurrentDisplay.Temp cur)).
  repeat split; try done; destruct imperial; intros;
    repeat match goal with H : _ /\ _ |- _ => destruct H end;
    first [lra | split; lra].
Qed.

End AlertsOfReport.

(** ** Outfit *)

(** One [let] of a function body becomes a local definition. *)
Ltac name_let H :=
  match type of H with
  | (let x := ?v in @?f x) = ?r =>
      first [ match goal with
              | y := ?w |- _ => constr_eq w v; change (f y = r) in H; cbv beta in H
              end
            | let y := fresh x in
              pose (y := v); change (f y = r) in H; cbv beta in H ]
  end.

Ltac by_cases :=
  repeat match goal with
  | |- context [if ?c then _ else _] => destruct c
  end;
  rewrite ?fmap_app, <- ?app_assoc, ?app_nil_r; reflexivity.

Lemma BuildOutfit_icons (info : WeatherInfo.t) :
  let cur := WeatherInfo.Current info in
  let feelsC := toCelsius (CurrentDisplay.FeelsLike cur) (WeatherInfo.TempUnit info) in
  let windKmh := toKmh (CurrentDisplay.WindSpeed cur) (WeatherInfo.WindUnit info) in
  let precipProb := match WeatherInfo.Forecast info with
                    | [] => 0
                    | day :: _ => ForecastDay.PrecipProb day
                    end in
  let uv := CurrentDisplay.UVIndex cur in
  let tier :=
    if float_lt feelsC 0 then "freezing"
    else if float_lt feelsC 8 then "cold"
    else if float_lt feelsC 15 then "cool"
    else if float_lt feelsC 22 then "mild"
    else if float_lt feelsC 29 then "warm"
    else "hot" in
  OutfitAdvice.TempTier (BuildOutfit info) = tier
  /\ OutfitAdvice.Headline (BuildOutfit info) = default "" (headlines !! tier)
  /\ OutfitItem.Icon <$> OutfitAdvice.Items (BuildOutfit info)
     = take 6
         ((if String.eqb tier "freezing" then ["thermal"]
           else if String.eqb tier "cold" then ["sweater"]
           else if String.eqb tier "cool" then ["longsleeve"]
           else if String.eqb tier "mild" then ["tshirt"]
           else if String.eqb tier "warm" || String.eqb tier "hot" then ["tshirt"]
           else [])
          ++ (if String.eqb tier "freezing" then ["coat"]
              else if String.eqb tier "cold" then ["coat"]
              else if String.eqb tier "cool" then ["jacket"]
              else [])
          ++ (if float_ge windKmh 30 && negb (String.eqb tier "freezing")
                 && negb (String.eqb tier "cold")
              then ["windbreaker"] else [])
          ++ (if 60 <=? precipProb then ["umbrella"]
              else if 30 <=? precipProb then ["raincoat"] else [])
          ++ (if float_ge uv 8 then ["sunscreen"; "sunglasses"]
              else if float_ge uv 5 then ["sunscreen"] else [])
          ++ (if String.eqb tier "freezing" then ["beanie"]
              else if float_ge uv 6 then ["hat"] else [])
          ++ (if (50 <=? precipProb) || String.eqb tier "freezing" then ["boots"]
              else if String.eqb tier "hot" then ["sandals"] else []))%list.
Proof.
  intros cur feelsC windKmh precipProb uv tier.
  remember (BuildOutfit info) as advice eqn:H. symmetry in H.
  cbv delta [BuildOutfit] in H. cbv beta in H.
  repeat name_let H.
  subst advice. cbn [OutfitAdvice.TempTier OutfitAdvice.Headline OutfitAdvice.Items].
  split; [done|]. split; [done|].
  assert (H7 : items7 = take 6 items6).
  { unfold items7. destruct (Z.ltb_spec 6 (len items6)); [done|].
    rewrite take_ge; [done|]. unfold len in *. lia. }
  rewrite H7, fmap_take. f_equal.
  assert (H0 : OutfitItem.Icon <$> items0
    = ((OutfitItem.Icon <$> items)
      ++ (if String.eqb tier "freezing" then ["thermal"]
          else if String.eqb tier "cold" then ["sweater"]
          else if String.eqb tier "cool" then ["longsleeve"]
          else if String.eqb tier "mild" then ["tshirt"]
          else if String.eqb tier "warm" || String.eqb tier "hot" then ["tshirt"]
          else []))%list) by (unfold items0; by_cases).
  assert (H1 : OutfitItem.Icon <$> items1
    = ((OutfitItem.Icon <$> items0)
      ++ (if String.eqb tier "freezing" then ["coat"]
          else if String.eqb tier "cold" then ["coat"]
          else if String.eqb tier "cool" then ["jacket"]
          else []))%list) by (unfold items1; by_cases).
  assert (H2 : OutfitItem.Icon <$> items2
    = ((OutfitItem.Icon <$> items1)
      ++ (if float_ge windKmh 30 && negb (String.eqb tier "freezing")
             && negb (String.eqb tier "cold")
          then ["windbreaker"] else []))%list)
    by (unfold items2, appendIf; by_cases).
  assert (H3 : OutfitItem.Icon <$> items3
    = ((OutfitItem.Icon <$> items2)
      ++ (if 60 <=? precipProb then ["umbrella"]
          else if 30 <=? precipProb then ["raincoat"] else []))%list)
    by (unfold items3; by_cases).
  assert (H4 : OutfitItem.Icon <$> items4
    = ((OutfitItem.Icon <$> items3)
      ++ (if float_ge uv 8 then ["sunscreen"; "sunglasses"]
          else if float_ge uv 5 then ["sunscreen"] else []))%list)
    by (unfold items4; by_cases).
  assert (H5 : OutfitItem.Icon <$> items5
    = ((OutfitItem.Icon <$> items4)
      ++ (if String.eqb tier "freezing" then ["beanie"]
          else if float_ge uv 6 then ["hat"] else []))%list)
    by (unfold items5; by_cases).
  assert (H6 : OutfitItem.Icon <$> items6
    = ((OutfitItem.Icon <$> items5)
      ++ (if (50 <=? precipProb) || String.eqb tier "freezing" then ["boots"]
          else if String.eqb tier "hot" then ["sandals"] else []))%list)
    by (unfold items6; by_cases).
  rewrite H6, H5, H4, H3, H2, H1, H0. unfold items. rewrite fmap_nil, app_nil_l.
  by rewrite <- !app_assoc.
Qed.

(** X11: [BuildOutfit] returns between one and six items; the tier is one
    of the six tiers and the headline is the entry of [headlines] for the
    tier; rain gear (umbrella or raincoat) is among the items exactly when
    the precipitation probability of the first forecast day is at least 30,
    sunscreen exactly when the UV index is at least 5, and sunglasses exactly
    when it is at least 8 (the cut to six items never removes them). *)
Theorem BuildOutfit_items (info : WeatherInfo.t) :
  let advice := BuildOutfit info in
  let items := OutfitAdvice.Items advice in
  let precipProb := match WeatherInfo.Forecast info with
                    | [] => 0
                    | day :: _ => ForecastDay.PrecipProb day
                    end in
  let uv := CurrentDisplay.UVIndex (WeatherInfo.Current info) in
  (1 <= length items <= 6)%nat
  /\ OutfitAdvice.TempTier advice ∈ ["freezing"; "cold"; "cool"; "mild"; "warm"; "hot"]
  /\ headlines !! OutfitAdvice.TempTier advice = Some (OutfitAdvice.Headline advice)
  /\ (Exists (fun item => OutfitItem.Icon item = "umbrella"
                          \/ OutfitItem.Icon item = "raincoat") items
      <-> 30 <= precipProb)
  /\ (Exists (fun item => OutfitItem.Icon item = "sunscreen") items <-> (5 <= uv)%Q)
  /\ (Exists (fun item => OutfitItem.Icon item = "sunglasses") items <-> (8 <= uv)%Q).
Proof.
  intros advice items precipProb uv.
  destruct (BuildOutfit_icons info) as (Htier & Hhead & Hicons).
  cbv zeta in Htier, Hhead, Hicons. fold precipProb uv in Hicons.
  fold advice in Htier, Hhead, Hicons. fold items in Hicons.
  rewrite <- (length_fmap OutfitItem.Icon items).
  rewrite <- !(Exists_fmap OutfitItem.Icon
                 (fun icon => icon = "umbrella" \/ icon = "raincoat")).
  rewrite <- !(Exists_fmap OutfitItem.Icon (fun icon => icon = "sunscreen")).
  rewrite <- !(Exists_fmap OutfitItem.Icon (fun icon => icon = "sunglasses")).
  rewrite Hhead, Htier, Hicons. clear Htier Hhead Hicons.
  generalize (toCelsius (CurrentDisplay.FeelsLike (WeatherInfo.Current info))
                (WeatherInfo.TempUnit info)). intros feelsC.
  generalize (float_ge (toKmh (CurrentDisplay.WindSpeed (WeatherInfo.Current info))
                          (WeatherInfo.WindUnit info)) 30). intros windy.
  clearbody precipProb uv. clear advice items.
  destruct (Z.leb_spec 60 precipProb), (Z.leb_spec 30 precipProb),
    (Z.leb_spec 50 precipProb); try lia;
    (destruct (float_ge uv 8) eqn:?, (float_ge uv 5) eqn:?, (float_ge uv 6) eqn:?;
     float_ineq; try lra);
    (destruct (float_lt feelsC 0); [|destruct (float_lt feelsC 8);
      [|destruct (float_lt feelsC 15); [|destruct (float_lt feelsC 22);
        [|destruct (float_lt feelsC 29)]]]]);
    destruct windy;
    (split; [vm_compute; lia|]);
    (split; [apply (bool_decide_unpack _); by vm_compute|]);
    (split; [by vm_compute|]);
    repeat split; intros;
    first [ lia | lra
          | apply (bool_decide_unpack _); by vm_compute
          | exfalso;
            match goal with
            | H : Exists _ _ |- _ => revert H; apply (bool_decide_unpack _); by vm_compute
            end ].
Qed.

(** ** Strings *)

Lemma append_assoc (a b c : string) : (a ++ b) ++ c = a ++ (b ++ c).
Proof.
  induction a as [|x a IH]; [done|].
  change (String x ((a ++ b) ++ c) = String x (a ++ (b ++ c))). by rewrite IH.
Qed.

Lemma append_nil_r (a : string) : a ++ "" = a.
Proof.
  induction a as [|x a IH]; [done|].
  change (String x (a ++ "") = String x a). by rewrite IH.
Qed.

Lemma length_append (a b : string) :
  String.length (a ++ b) = (String.length a + String.length b)%nat.
Proof.
  induction a as [|x a IH]; [done|].
  change (S (String.length (a ++ b)) = S (String.length a + String.length b)).
  by rewrite IH.
Qed.

(** ** UV index *)

(** X12: [UVLevel], [UVColorClass] and [UVAdvice] cut the UV index into the
    same five bands, at 3, 6, 8 and 11: in each band the three answers belong
    together. *)
Theorem UV_bands_agree (uv : Q) :
  (uv < 3 /\ UVLevel uv = "Low" /\ UVColorClass uv = "uv-low"
   /\ UVAdvice uv = "No protection needed. Enjoy the sun safely.")%Q
  \/ (3 <= uv /\ uv < 6 /\ UVLevel uv = "Moderate" /\ UVColorClass uv = "uv-moderate"
      /\ UVAdvice uv = "Wear sunscreen SPF 30+. Hat recommended.")%Q
  \/ (6 <= uv /\ uv < 8 /\ UVLevel uv = "High" /\ UVColorClass uv = "uv-high"
      /\ UVAdvice uv = "SPF 50+ sunscreen, hat and sunglasses. Seek shade 11am–3pm.")%Q
  \/ (8 <= uv /\ uv < 11 /\ UVLevel uv = "Very High" /\ UVColorClass uv = "uv-veryhigh"
      /\ UVAdvice uv
         = "SPF 50+ and protective clothing essential. Minimize sun exposure.")%Q
  \/ (11 <= uv /\ UVLevel uv = "Extreme" /\ UVColorClass uv = "uv-extreme"
      /\ UVAdvice uv
         = "Extreme UV. Stay indoors if possible. Full protection required.")%Q.
Proof.
  unfold UVLevel, UVColorClass, UVAdvice.
  destruct (float_lt uv 3) eqn:E3; [float_ineq; left; done|].
  destruct (float_lt uv 6) eqn:E6; [float_ineq; right; left; done|].
  destruct (float_lt uv 8) eqn:E8; [float_ineq; do 2 right; left; done|].
  destruct (float_lt uv 11) eqn:E11; float_ineq; [do 3 right; left; done|].
  do 4 right. done.
Qed.

Lemma UVBar_loop_spec (n : Z) (remaining : nat) :
  forall (i : Z) (bar : string),
    let filled := Z.to_nat (Z.max 0 (Z.min (n - i) (Z.of_nat remaining))) in
    UVBar_loop n i remaining bar
    = bar ++ copies "█" filled ++ copies "░" (remaining - filled).
Proof.
  induction remaining as [|k IH]; intros i bar filled.
  - subst filled. cbn [UVBar_loop].
    replace (Z.to_nat (Z.max 0 (Z.min (n - i) (Z.of_nat 0)))) with 0%nat by lia.
    cbn [copies Nat.sub]. change ("" ++ "") with "". by rewrite append_nil_r.
  - cbn [UVBar_loop]. rewrite IH. rewrite append_assoc. f_equal.
    subst filled. destruct (Z.ltb_spec i n).
    + replace (Z.to_nat (Z.max 0 (Z.min (n - i) (Z.of_nat (S k)))))
        with (S (Z.to_nat (Z.max 0 (Z.min (n - (i + 1)) (Z.of_nat k))))) by lia.
      cbn [copies]. rewrite append_assoc. reflexivity.
    + replace (Z.to_nat (Z.max 0 (Z.min (n - i) (Z.of_nat (S k))))) with 0%nat by lia.
      replace (Z.to_nat (Z.max 0 (Z.min (n - (i + 1)) (Z.of_nat k)))) with 0%nat by lia.
      rewrite !Nat.sub_0_r. reflexivity.
Qed.

Lemma UVBar_cells_spec (uv : Q) (width : Z) :
  let n := int_of_float (uv / 12 * float_of_int width) in
  let filled := Z.to_nat (Z.max 0 (Z.min n width)) in
  UVBar_cells uv width = copies "█" filled ++ copies "░" (Z.to_nat width - filled)
  /\ (filled <= Z.to_nat width)%nat.
Proof.
  intros n filled. unfold UVBar_cells. cbv zeta. fold n.
  rewrite UVBar_loop_spec. cbv zeta. cbn [String.append].
  assert (Z.to_nat (Z.max 0 (Z.min ((if width <? n then width else n) - 0)
                               (Z.of_nat (Z.to_nat width)))) = filled) as ->.
  { subst filled. destruct (Z.ltb_spec width n); lia. }
  split; [done|]. subst filled. lia.
Qed.

Section UVBarProperties.
Variable Sprintf_1f : float64 -> string.

(** X13: [UVBar] draws, between brackets, [width] cells (none for a
    negative width): first the filled ones, then the empty ones.  The number
    of filled cells is the truncation of [uv / 12 * width], cut to
    [0 .. width]; the UV index follows the closing bracket. *)
Theorem UVBar_cells_count (uv : Q) (width : Z) :
  let n := int_of_float (uv / 12 * float_of_int width) in
  let filled := Z.to_nat (Z.max 0 (Z.min n width)) in
  UVBar Sprintf_1f uv width
  = "[" ++ (copies "█" filled ++ copies "░" (Z.to_nat width - filled))
        ++ "] " ++ Sprintf_1f uv
  /\ (filled <= Z.to_nat width)%nat.
Proof.
  intros n filled. unfold UVBar.
  destruct (UVBar_cells_spec uv width) as [-> Hle]. by split.
Qed.

End UVBarProperties.

(** ** Substrings *)

Lemma prefix_Contains (s substr : string) :
  String.prefix substr s = true -> Contains s substr = true.
Proof. intros H. destruct s; cbn [Contains]; by rewrite H. Qed.

Lemma Contains_tail (c : ascii) (s substr : string) :
  Contains s substr = true -> Contains (String c s) substr = true.
Proof. intros H. cbn [Contains]. rewrite H. apply orb_true_r. Qed.

Lemma prefix_app_Contains (a b : string) :
  forall s, String.prefix (a ++ b) s = true -> Contains s b = true.
Proof.
  induction a as [|x a IH]; intros s H.
  - by apply prefix_Contains.
  - change (String x a ++ b) with (String x (a ++ b)) in H.
    destruct s as [|y s]; [done|]. cbn [String.prefix] in H.
    destruct (ascii_dec x y); [|done]. by apply Contains_tail, IH.
Qed.

Lemma Contains_app_r (a b : string) :
  forall s, Contains s (a ++ b) = true -> Contains s b = true.
Proof.
  induction s as [|c s IH]; cbn [Contains]; intros H.
  - rewrite orb_false_r in H. by apply (prefix_app_Contains a b "").
  - apply orb_true_iff in H as [H|H].
    + by apply (prefix_app_Contains a b (String c s)).
    + by apply Contains_tail, IH.
Qed.

Lemma Contains_app_intro (a b : string) : Contains (a ++ b) b = true.
Proof.
  induction a as [|x a IH].
  - apply prefix_Contains. change ("" ++ b) with b.
    apply prefix_correct. induction b as [|y b IHb]; [done|].
    cbn. by rewrite IHb.
  - change (String x a ++ b) with (String x (a ++ b)). by apply Contains_tail.
Qed.

(** ** Quotes *)

Lemma QuotePool_nonempty (wmoCode : Z) : 0 < len (QuotePool wmoCode).
Proof. unfold QuotePool. by repeat case_match. Qed.

Lemma QuotePool_out_of_range (code : Z) :
  code < 0 \/ 99 < code -> QuotePool code = QuotePool (-1).
Proof.
  intros H. unfold QuotePool.
  repeat match goal with
  | |- context [code =? ?b] => rewrite (proj2 (Z.eqb_neq code b)) by lia
  end.
  destruct H.
  - by repeat match goal with
       | |- context [?a <=? code] => rewrite (proj2 (Z.leb_gt a code)) by lia
       end.
  - by repeat match goal with
       | |- context [code <=? ?b] => rewrite (proj2 (Z.leb_gt code b)) by lia
       | |- context [?a <=? code] => rewrite (proj2 (Z.leb_le a code)) by lia
       end.
Qed.

Lemma Quote_Ret (r : Z) (wmoCode : Z) :
  exists q, Quote r wmoCode = Ret q /\ q ∈ QuotePool wmoCode.
Proof.
  unfold Quote. cbv zeta.
  pose proof (QuotePool_nonempty wmoCode).
  destruct (index_Ret (QuotePool wmoCode) (r mod len (QuotePool wmoCode)))
    as (q & Hq & Hl).
  - apply Z.mod_pos_bound. lia.
  - exists q. split; [done|]. by eapply list_elem_of_lookup_2.
Qed.

(** X14: [QuoteFromIcon] always returns a quote of the pool of the bucket
    of its icon class.  No icon class reaches the pool of code 99: the icon
    of code 99, [wi-storm-showers], contains [showers] and is caught by the
    earlier case, which gives the shower pool.  Going through the icon gives
    the pool of the WMO code itself for every code but 54, 61, 72, 74, 85,
    86, 96 and 99. *)
Theorem QuoteFromIcon_pool_mismatch :
  (forall r iconClass,
     exists q, QuoteFromIcon r iconClass = Ret q /\ q ∈ QuotePool (iconBucket iconClass))
  /\ (forall iconClass, iconBucket iconClass <> 99)
  /\ iconBucket (WMOIconClass 99) = 80
  /\ (forall code,
        QuotePool (iconBucket (WMOIconClass code)) = QuotePool code
        <-> code ∉ [54; 61; 72; 74; 85; 86; 96; 99]).
Proof.
  split; [intros r iconClass; apply Quote_Ret|].
  split; [|split; [reflexivity|]].
  - intros iconClass. unfold iconBucket.
    destruct (Contains iconClass "showers") eqn:E1.
    + repeat match goal with
      | |- (if ?c then _ else _) <> _ => destruct c; [discriminate|]
      end.
      discriminate.
    + assert (E2 : Contains iconClass "storm-showers" = false).
      { destruct (Contains iconClass "storm-showers") eqn:E2; [|done].
        apply (Contains_app_r "storm-" "showers") in E2. congruence. }
      rewrite E2.
      repeat match goal with
      | |- (if ?c then _ else _) <> _ => destruct c; [discriminate|]
      end.
      discriminate.
  - apply WMO_cases.
    + intros code H. destruct (WMO_tables_out_of_range code H) as [_ ->].
      rewrite (QuotePool_out_of_range code H).
      split; [|done]. intros _ Hin.
      repeat (apply elem_of_cons in Hin as [->|Hin]; [lia|]).
      by apply elem_of_nil in Hin.
    + apply (bool_decide_unpack _). by vm_compute.
Qed.

(** ** ReverseGeocode *)

Lemma firstNonEmpty_Some (candidates : list string) (name : string) :
  firstNonEmpty candidates = Some name ->
  name <> ""
  /\ exists before after,
       candidates = (before ++ name :: after)%list /\ Forall (eq "") before.
Proof.
  induction candidates as [|c rest IH]; cbn [firstNonEmpty]; [done|].
  destruct (String.eqb_spec c "") as [->|Hc]; cbn [negb].
  - intros H. destruct (IH H) as (Hn & before & after & -> & Hb).
    split; [done|]. exists ("" :: before), after. split; [done|]. by constructor.
  - intros [= <-]. split; [done|]. by exists [], rest.
Qed.

Lemma firstNonEmpty_None (candidates : list string) :
  firstNonEmpty candidates = None -> Forall (eq "") candidates.
Proof.
  induction candidates as [|c rest IH]; cbn [firstNonEmpty]; [constructor|].
  destruct (String.eqb_spec c "") as [->|Hc]; cbn [negb]; [|done].
  intros H. constructor; [done|by apply IH].
Qed.

Lemma beforeComma_spec (s : string) :
  Contains (beforeComma s) "," = false
  /\ exists rest, s = beforeComma s ++ rest
                  /\ (rest = "" \/ exists rest', rest = String ","%char rest').
Proof.
  induction s as [|c s (IHc & rest & IHs & IHr)].
  - split; [done|]. exists "". split; [done|by left].
  - cbn [beforeComma]. destruct (Ascii.eqb_spec c ","%char) as [->|Hc].
    + split; [done|]. exists (String ","%char s). split; [done|]. right. by eexists.
    + split.
      * cbn [Contains String.prefix]. rewrite IHc.
        destruct (ascii_dec ","%char c) as [<-|_]; [done|reflexivity].
      * exists rest. split; [|done].
        change (String c s = String c (beforeComma s ++ rest)). by rewrite <- IHs.
Qed.

Section ReverseProperties.
Context `{rt : Runtime} `{reverse_json : Unmarshal reverseResult.t}.
Variable Sprintf_6f : float64 -> string.

(** X15: a name returned by [ReverseGeocode] comes from a response with
    status 200 whose body decodes: it is the first non-empty one among city,
    town, village, municipality and county, or, when all five are empty, the
    part of a non-empty display name before its first comma.  The name is
    empty only when the display name starts with a comma. *)
Theorem ReverseGeocode_name (c : Client) (lat lon : float64) (name : string) :
  ReverseGeocode Sprintf_6f c lat lon = Ret name ->
  exists body result,
    HTTP c (reverseURL ++ "?lat=" ++ Sprintf_6f lat ++ "&lon=" ++ Sprintf_6f lon
              ++ "&format=json&zoom=10&addressdetails=1") 0
    = Response 200 body
    /\ Decode body = inr result
    /\ let addr := reverseResult.Address result in
       let display := reverseResult.DisplayName result in
       let candidates := [reverseAddress.City addr; reverseAddress.Town addr;
                          reverseAddress.Village addr; reverseAddress.Municipality addr;
                          reverseAddress.County addr] in
       ((name <> ""
         /\ exists before after,
              candidates = (before ++ name :: after)%list /\ Forall (eq "") before)
        \/ (Forall (eq "") candidates
            /\ display <> ""
            /\ name = beforeComma display
            /\ Contains name "," = false
            /\ exists rest, display = name ++ rest
                 /\ (rest = "" \/ exists rest', rest = String ","%char rest')))
       /\ (name = "" -> exists rest', display = String ","%char rest').
Proof.
  unfold ReverseGeocode. cbv zeta.
  destruct (HTTP c _ 0) as [err|status body]; [done|].
  destruct (Z.eqb_spec status StatusOK) as [->|]; cbn [negb]; [|done].
  destruct (Decode body) as [err|result] eqn:Hdec; [done|].
  destruct (firstNonEmpty _) as [candidate|] eqn:Hfirst.
  - intros [= ->]. exists body, result. split; [done|]. split; [done|].
    apply firstNonEmpty_Some in Hfirst as (Hn & Hsplit).
    split; [by left|]. by intros ->.
  - destruct (String.eqb_spec (reverseResult.DisplayName result) "") as [|Hd];
      cbn [negb]; [done|].
    intros [= <-]. exists body, result. split; [done|]. split; [done|].
    apply firstNonEmpty_None in Hfirst.
    destruct (beforeComma_spec (reverseResult.DisplayName result))
      as (Hcomma & rest & Hrest & Htail).
    split.
    + right. split; [done|]. split; [done|]. split; [done|]. split; [done|].
      by exists rest.
    + intros Hempty. rewrite Hempty in Hrest. change ("" ++ rest) with rest in Hrest.
      destruct Htail as [->|[rest' ->]]; [done|]. by exists rest'.
Qed.

End ReverseProperties.

(** ** Terminal helpers *)

Module CliProperties.
Import Cli.

Lemma Repeat_Ret (s : string) (count : Z) :
  0 <= count -> Z.of_nat (String.length s) * count <= MaxInt64 ->
  Repeat s count = Ret (copies s (Z.to_nat count)).
Proof.
  intros H0 H1. unfold Repeat.
  rewrite (proj2 (Z.ltb_ge count 0)) by lia.
  by rewrite (proj2 (Z.ltb_ge MaxInt64 _)) by lia.
Qed.

Lemma Repeat_negative (s : string) (count : Z) :
  count < 0 -> Repeat s count = Panic "strings: negative Repeat count".
Proof. intros H. unfold Repeat. by rewrite (proj2 (Z.ltb_lt count 0)) by done. Qed.

(** X16: [progressBar] draws [width] cells, the first
    [min (pct * width / 100) width] of them filled, when that number is not
    negative; it panics in [strings.Repeat] when it is, which happens exactly
    when [pct * width <= -100].  A percentage above 100 is cut to the width;
    a negative one is not cut to 0. *)
Theorem progressBar_cells (pct width : Z) (barColor : string) :
  0 <= width -> 3 * width <= MaxInt64 ->
  MinInt64 <= pct * width <= MaxInt64 ->
  let n := Z.min (Z.quot (pct * width) 100) width in
  (n < 0 <-> pct * width <= -100)
  /\ (n < 0 -> progressBar pct width barColor = Panic "strings: negative Repeat count")
  /\ (0 <= n ->
      progressBar pct width barColor
      = Ret (clr barColor (copies "█" (Z.to_nat n))
             ++ clr dim (copies "░" (Z.to_nat (width - n))))).
Proof.
  intros Hw Hw3 Hpw n.
  destruct (Z_quot_rem_bounds (pct * width) 100) as (Heq & Hpos & Hneg); [done|].
  assert (Hq : MinInt64 <= Z.quot (pct * width) 100 <= MaxInt64).
  { unfold MinInt64, MaxInt64 in *.
    destruct (Z_le_gt_dec 0 (pct * width)); [destruct Hpos|destruct Hneg]; lia. }
  assert (Hn : (if width <? int_div (int_mul pct width) 100
                then width else int_div (int_mul pct width) 100) = n).
  { unfold int_div, int_mul. rewrite !wrap64_id by (by rewrite ?wrap64_id).
    subst n. destruct (Z.ltb_spec width (Z.quot (pct * width) 100)); lia. }
  unfold progressBar. cbv zeta. rewrite Hn.
  split; [|split].
  - subst n. destruct (Z_le_gt_dec 0 (pct * width)); [destruct Hpos|destruct Hneg]; lia.
  - intros Hlt. rewrite (Repeat_negative _ n Hlt). apply bind_Panic.
  - intros Hge.
    assert (n <= width) by (subst n; lia).
    rewrite (Repeat_Ret "█" n) by (change (String.length "█") with 3%nat; lia).
    rewrite bind_Ret. unfold int_sub.
    rewrite wrap64_id by (unfold MinInt64, MaxInt64 in *; lia).
    rewrite (Repeat_Ret "░" (width - n))
      by (change (String.length "░") with 3%nat; lia).
    by rewrite bind_Ret.
Qed.

(** *** wordWrap *)

Lemma concat_cons (sep x : string) (l : list string) :
  l <> [] -> String.concat sep (x :: l) = x ++ sep ++ String.concat sep l.
Proof. by destruct l. Qed.

Lemma concat_merge (sep a b : string) (before after : list string) :
  String.concat sep (before ++ (a ++ sep ++ b) :: after)
  = String.concat sep (before ++ a :: b :: after).
Proof.
  induction before as [|x before IH].
  - cbn [app]. rewrite (concat_cons sep a) by done.
    destruct after as [|y after]; [done|].
    rewrite !concat_cons by done. by rewrite !append_assoc.
  - cbn [app]. rewrite !concat_cons by (by destruct before). by rewrite IH.
Qed.

Lemma wordWrap_loop_concat (maxWidth : Z) (words : list string) :
  forall lines line,
    String.concat " " (wordWrap_loop maxWidth words lines line)
    = String.concat " " (lines ++ line :: words).
Proof.
  induction words as [|w rest IH]; intros lines line; cbn [wordWrap_loop]; [done|].
  destruct (_ <=? maxWidth).
  - rewrite IH. apply concat_merge.
  - rewrite IH. by rewrite <- app_assoc.
Qed.

Lemma wordWrap_loop_lines (maxWidth : Z) (P : string -> Prop) (words : list string) :
  (forall line w, Z.of_nat (String.length line) + 1 + Z.of_nat (String.length w)
                  <= maxWidth -> P (line ++ " " ++ w)) ->
  forall lines line,
    Forall P lines -> P line -> Forall P words ->
    Forall P (wordWrap_loop maxWidth words lines line).
Proof.
  intros Hfit. induction words as [|w rest IH]; intros lines line Hl Hline Hw;
    cbn [wordWrap_loop].
  - apply Forall_app. split; [done|]. by constructor.
  - apply Forall_cons in Hw as [Hw Hrest].
    destruct (Z.leb_spec (Z.of_nat (String.length line) + 1 + Z.of_nat (String.length w))
                maxWidth).
    + apply IH; [done| |done]. by apply Hfit.
    + apply IH; [|done|done]. apply Forall_app. split; [done|]. by constructor.
Qed.

Lemma wordWrap_loop_length (maxWidth : Z) (words : list string) :
  forall lines line,
    (length lines < length (wordWrap_loop maxWidth words lines line)
     <= length lines + S (length words))%nat.
Proof.
  induction words as [|w rest IH]; intros lines line; cbn [wordWrap_loop].
  - rewrite length_app. cbn. lia.
  - destruct (_ <=? maxWidth).
    + specialize (IH lines (line ++ " " ++ w)). cbn [length]. lia.
    + specialize (IH (lines ++ [line])%list w). rewrite length_app in IH.
      cbn [length] in *. lia.
Qed.

Section WithFields.
Variable Fields : string -> list string.

(** X17: [wordWrap] keeps every word in order: the lines joined by a space
    are the words of the text joined by a space.  A line is within
    [maxWidth] unless it is a single word longer than that, there are no more
    lines than words, and there is no line exactly when there is no word. *)
Theorem wordWrap_keeps_words (s : string) (maxWidth : Z) :
  let lines := wordWrap Fields s maxWidth in
  String.concat " " lines = String.concat " " (Fields s)
  /\ Forall (fun line => Z.of_nat (String.length line) <= maxWidth \/ line ∈ Fields s) lines
  /\ (length lines <= length (Fields s))%nat
  /\ (lines = [] <-> Fields s = []).
Proof.
  intros lines. subst lines. unfold wordWrap.
  destruct (Fields s) as [|w rest] eqn:E; [done|].
  split; [apply wordWrap_loop_concat|]. split; [|split].
  - apply wordWrap_loop_lines.
    + intros line w' Hfit. left. rewrite !length_append. cbn [String.length]. lia.
    + constructor.
    + right. left.
    + apply Forall_forall. intros x Hx. right. by right.
  - pose proof (wordWrap_loop_length maxWidth rest [] w). cbn [length] in *. lia.
  - pose proof (wordWrap_loop_length maxWidth rest [] w) as H. cbn [length] in H.
    split; [|done]. intros Hnil. rewrite Hnil in H. cbn in H. lia.
Qed.

End WithFields.

(** *** Moon icons *)

(** X18: the terminal icon of a moon phase and its name cut the phase at
    the same thresholds: the name and the icon of a phase are always one of
    these eight pairs. *)
Theorem moonPhaseIcon_matches_name (p : Q) :
  (moonPhaseName p, moonPhaseIcon p)
  ∈ [("New Moon", "( )"); ("Waxing Crescent", "()"); ("First Quarter", "(|");
     ("Waxing Gibbous", "(@"); ("Full Moon", "(@)"); ("Waning Gibbous", "@)");
     ("Last Quarter", "|)"); ("Waning Crescent", "()")].
Proof.
  unfold moonPhaseName, moonPhaseIcon.
  replace (float_ge p (966 # 1000)) with (negb (float_lt p (966 # 1000)))
    by (unfold float_ge, float_lt; apply negb_involutive).
  repeat match goal with
  | |- context [if ?c then _ else _] => destruct c
  end; apply (bool_decide_unpack _); by vm_compute.
Qed.

End CliProperties.

(** ** Template helpers *)

(** X19: with [float64] read as exact rationals, [consBarW] is always
    between 5 and 95; it is 50 when the maximum is not above the minimum; and
    for a temperature between a minimum and a larger maximum it is the
    position in that range scaled to [10, 90]. *)
Theorem consBarW_range (temp minT maxT : Q) :
  (5 <= Web.consBarW temp minT maxT /\ Web.consBarW temp minT maxT <= 95)%Q
  /\ ((maxT <= minT)%Q -> Web.consBarW temp minT maxT = 50%Q)
  /\ ((minT < maxT)%Q -> (minT <= temp)%Q -> (temp <= maxT)%Q ->
      (Web.consBarW temp minT maxT == (temp - minT) / (maxT - minT) * 80 + 10
       /\ 10 <= Web.consBarW temp minT maxT /\ Web.consBarW temp minT maxT <= 90)%Q).
Proof.
  unfold Web.consBarW. cbv zeta.
  set (v := ((temp - minT) / (maxT - minT) * 80 + 10)%Q).
  split; [|split].
  - destruct (float_le (maxT - minT) 0); [split; done|].
    destruct (float_lt v 5) eqn:E1.
    + destruct (float_gt 5 95) eqn:E2; [done|]. split; done.
    + destruct (float_gt v 95) eqn:E2; float_ineq; split; lra.
  - intros H. rewrite (proj2 (float_le_spec (maxT - minT) 0)); [done|lra].
  - intros Hlt Hlo Hhi.
    rewrite (proj2 (float_le_false (maxT - minT) 0)) by lra.
    assert (Hfrac : (0 <= (temp - minT) / (maxT - minT)
                     /\ (temp - minT) / (maxT - minT) <= 1)%Q).
    { split.
      - apply Qle_shift_div_l; lra.
      - apply Qle_shift_div_r; lra. }
    assert (Hv : (10 <= v /\ v <= 90)%Q) by (subst v; split; lra).
    rewrite (proj2 (float_lt_false v 5)) by lra.
    unfold float_gt. rewrite (proj2 (float_lt_false 95 v)) by lra.
    split; [reflexivity|exact Hv].
Qed.

(** ** Agreement bands *)

Lemma Qfloor_le_iff (x : Q) (z : Z) : Qfloor x <= z <-> (x < inject_Z z + 1)%Q.
Proof.
  pose proof (Qfloor_le x) as H1. pose proof (Qlt_floor x) as H2.
  rewrite inject_Z_plus in H2. change (inject_Z 1) with 1%Q in H2.
  split.
  - intros H. rewrite Zle_Qle in H. lra.
  - intros H. assert (inject_Z (Qfloor x) < inject_Z (z + 1))%Q as H3
      by (rewrite inject_Z_plus; change (inject_Z 1) with 1%Q; lra).
    rewrite <- Zlt_Qlt in H3. lia.
Qed.

Lemma agreePct_ge_iff (spread : Q) (k : Z) :
  (0 <= spread)%Q -> 0 < k ->
  k <= agreePct spread <-> (spread * 12 < inject_Z (100 - k) + 1)%Q.
Proof.
  intros Hs Hk. rewrite agreePct_nonneg by done.
  destruct (Qtrunc_nonneg (spread * 12)) as [-> _]; [lra|].
  rewrite <- Qfloor_le_iff. lia.
Qed.

(** X20: with [float64] read as exact rationals, the agreement label of
    [FetchConsensus] and the colour the page gives to the percentage depend
    on the spread alone when a model is available: High and green below a
    spread of 1.75, Moderate and amber from 1.75 to below 4.25, Low and red
    from 4.25; the percentage is 0 exactly from a spread of 25/3. *)
Theorem consensus_agreement_bands (readings : list ModelReading.t) :
  0 < ConsensusInfo.AvailCount (consensusStats readings) ->
  let cons := consensusStats readings in
  let spread := ConsensusInfo.Spread cons in
  (ConsensusInfo.Agreement cons = "High"
   /\ Web.agreeColor (ConsensusInfo.AgreePct cons) = "#22c55e" /\ (spread < 7 # 4)%Q)
  \/ (ConsensusInfo.Agreement cons = "Moderate"
      /\ Web.agreeColor (ConsensusInfo.AgreePct cons) = "#f59e0b"
      /\ (7 # 4 <= spread)%Q /\ (spread < 17 # 4)%Q)
  \/ (ConsensusInfo.Agreement cons = "Low"
      /\ Web.agreeColor (ConsensusInfo.AgreePct cons) = "#ef4444"
      /\ (17 # 4 <= spread)%Q
      /\ (ConsensusInfo.AgreePct cons = 0 <-> (25 # 3 <= spread)%Q)).
Proof.
  intros Hpos cons spread. subst cons spread.
  pose proof (AvailCount_pos_available readings Hpos) as Hex.
  rewrite (consensusStats_some readings Hex). cbn.
  set (s := foldl accumulate sums0 readings).
  assert (Hmm : (round1 (minTemp s) <= round1 (maxTemp s))%Q)
    by (apply round1_mono, foldl_accumulate_min_le_max, Hex).
  set (spread := round1 (round1 (maxTemp s) - round1 (minTemp s))).
  assert (Hsp : (0 <= spread)%Q) by (apply round1_nonneg; lra).
  pose proof (agreePct_ge_iff spread 80 Hsp ltac:(lia)) as H80.
  pose proof (agreePct_ge_iff spread 50 Hsp ltac:(lia)) as H50.
  pose proof (agreePct_ge_iff spread 1 Hsp ltac:(lia)) as H1.
  pose proof (agreePct_range spread Hsp) as Hrange.
  change (inject_Z (100 - 80) + 1)%Q with 21%Q in H80.
  change (inject_Z (100 - 50) + 1)%Q with 51%Q in H50.
  change (inject_Z (100 - 1) + 1)%Q with 100%Q in H1.
  unfold agreementLabel, Web.agreeColor.
  destruct (Z.leb_spec 80 (agreePct spread)) as [Hh|Hh].
  - left. apply H80 in Hh. split; [done|]. split; [done|]. lra.
  - destruct (Z.leb_spec 50 (agreePct spread)) as [Hm|Hm].
    + right. left. apply H50 in Hm. split; [done|]. split; [done|].
      assert (~ (spread * 12 < 21)%Q) by (intros H; apply H80 in H; lia).
      split; lra.
    + right. right. split; [done|]. split; [done|].
      assert (~ (spread * 12 < 51)%Q) by (intros H; apply H50 in H; lia).
      split; [lra|]. split.
      * intros H0. assert (~ (spread * 12 < 100)%Q) by (intros H'; apply H1 in H'; lia).
        lra.
      * intros H0. assert (~ 1 <= agreePct spread) by (intros H'; apply H1 in H'; lra).
        lia.
Qed.

(** ** The page handler *)

Module WebProperties.
Import Cache Web.


Lemma errorPage_not_found (what : string) :
  errorPage ("city " ++ what ++ " not found") = (404, "city " ++ what ++ " not found").
Proof.
  unfold errorPage.
  assert (Contains ("city " ++ what ++ " not found") "not found" = true) as ->; [|done].
  replace ("city " ++ what ++ " not found") with (("city " ++ what ++ " ") ++ "not found").
  - apply Contains_app_intro.
  - rewrite !append_assoc. reflexivity.
Qed.

Section WithRuntime.
Context `{rt : Runtime}.
Variable ToLower TrimSpace : string -> string.

(** The handler on a request that passes the method and length checks. *)
Lemma handler_unfold (c : Client) order now0 now1 now2 r method cityValue unitsValue cache :
  method = "GET" \/ method = "HEAD" ->
  TrimSpace cityValue <> "" ->
  Z.of_nat (String.length (TrimSpace cityValue)) <= 100 ->
  let city := TrimSpace cityValue in
  let units := normalUnits unitsValue in
  let key := cacheKey ToLower city units in
  let respond info cache' :=
    quote ← QuoteFromIcon r (CurrentDisplay.Icon (WeatherInfo.Current info));
    Ret (Page 200 (reportPage city units info quote), cache') in
  handler ToLower TrimSpace c order now0 now1 now2 r method cityValue unitsValue cache
  = match cacheGet cache now0 key with
    | Some info => respond info cache
    | None =>
        match GetWeather c city units with
        | Err e =>
            Ret (Page (errorPage e).1
                   (PageData.mk city units None [] "" "" (errorPage e).2), cache)
        | Panic msg => Panic msg
        | Ret info => respond info (cacheSet order now1 now2 key info cache)
        end
    end.
Proof.
  intros Hm Hc Hlen city units key respond. unfold handler.
  assert ((negb (String.eqb method "GET") && negb (String.eqb method "HEAD")) = false)
    as -> by (destruct Hm as [->| ->]; done).
  fold city. fold (normalUnits unitsValue). fold units.
  rewrite (proj2 (String.eqb_neq city "")) by done. cbn [negb].
  rewrite (proj2 (Z.ltb_ge 100 _)) by done.
  cbv zeta. fold key.
  destruct (cacheGet cache now0 key); [done|].
  destruct (GetWeather c city units); [done| |done].
  by destruct (errorPage e).
Qed.



(** X23: a GET or HEAD for a city of at most 100 bytes that is not in the
    cache and that the geocoder does not find is answered with status 404, a
    page whose error is the geocoder's message, and an unchanged cache. *)
Theorem handler_unknown_city_is_404 (c : Client) order now0 now1 now2 r
    method cityValue unitsValue cache :
  method = "GET" \/ method = "HEAD" ->
  TrimSpace cityValue <> "" ->
  Z.of_nat (String.length (TrimSpace cityValue)) <= 100 ->
  let city := TrimSpace cityValue in
  let units := normalUnits unitsValue in
  cacheGet cache now0 (cacheKey ToLower city units) = None ->
  Geocode c city = Err ("city " ++ Sprintf_q city ++ " not found") ->
  handler ToLower TrimSpace c order now0 now1 now2 r method cityValue unitsValue cache
  = Ret (Page 404 (PageData.mk city units None [] "" ""
                     ("city " ++ Sprintf_q city ++ " not found")), cache).
Proof.
  intros Hm Hc Hlen city units Hmiss Hgeo.
  rewrite handler_unfold by done. cbv zeta. fold city units. rewrite Hmiss.
  assert (GetWeather c city units = Err ("city " ++ Sprintf_q city ++ " not found")) as ->
    by (unfold GetWeather; by rewrite Hgeo).
  by rewrite errorPage_not_found.
Qed.


End WithRuntime.
End WebProperties.

(** ** Cache keys and the sweep *)

Lemma append_inj_l (a b t : string) : a ++ t = b ++ t -> a = b.
Proof.
  revert b. induction a as [|x a IH]; intros b H.
  - destruct b as [|y b]; [done|]. exfalso.
    apply (f_equal String.length) in H. rewrite !length_append in H.
    cbn [String.append String.length] in H. lia.
  - destruct b as [|y b].
    + exfalso. apply (f_equal String.length) in H. rewrite !length_append in H.
      cbn [String.append String.length] in H. lia.
    + change (String x (a ++ t) = String y (b ++ t)) in H.
      injection H as -> H. f_equal. by apply IH.
Qed.

Lemma append_metric_imperial (a b : string) : a ++ "|metric" <> b ++ "|imperial".
Proof.
  revert a. induction b as [|y b IH]; intros a H.
  - destruct a as [|x1 [|x2 [|x3 a]]]; try discriminate H.
    apply (f_equal String.length) in H.
    change (String x1 (String x2 (String x3 a)) ++ "|metric")
      with (String x1 (String x2 (String x3 (a ++ "|metric")))) in H.
    cbn [String.length] in H. rewrite !length_append in H.
    cbn [String.append String.length] in H. lia.
  - destruct a as [|x a].
    + apply (f_equal String.length) in H.
      change (String y b ++ "|imperial") with (String y (b ++ "|imperial")) in H.
      cbn [String.append String.length] in H. rewrite !length_append in H.
      cbn [String.length] in H. lia.
    + change (String x (a ++ "|metric") = String y (b ++ "|imperial")) in H.
      injection H as _ H. by apply (IH a).
Qed.

Module CacheKeyProperties.
Import Cache.

Section WithToLower.
Variable ToLower : string -> string.

(** X25: for the two unit systems the handler passes on, two cache keys
    are equal only if the units are equal and the cities are equal up to
    case: a metric report is never served for an imperial request. *)
Theorem cacheKey_separates_units (city1 units1 city2 units2 : string) :
  units1 = "metric" \/ units1 = "imperial" ->
  units2 = "metric" \/ units2 = "imperial" ->
  cacheKey ToLower city1 units1 = cacheKey ToLower city2 units2 ->
  ToLower city1 = ToLower city2 /\ units1 = units2.
Proof.
  unfold cacheKey. intros [-> | ->] [-> | ->] H.
  - split; [|done]. by apply (append_inj_l _ _ "|metric").
  - by apply append_metric_imperial in H.
  - symmetry in H. by apply append_metric_imperial in H.
  - split; [|done]. by apply (append_inj_l _ _ "|imperial").
Qed.

(** X26: the sweep of the cleanup goroutine is invisible to readers: at any
    later time [cacheGet] answers the same with or without the sweep.  The
    sweep never adds an entry, leaves only entries that have not expired, and
    sweeping twice at the same time is sweeping once. *)
Theorem sweep_invisible_to_readers (cache : gmap string cacheEntry) (now now' : Z)
    (key : string) :
  now <= now' ->
  cacheGet (sweep now cache) now' key = cacheGet cache now' key
  /\ (size (sweep now cache) <= size cache)%nat
  /\ (forall k e, sweep now cache !! k = Some e -> now <= expires e)
  /\ sweep now (sweep now cache) = sweep now cache.
Proof.
  intros Hle. split; [|split; [|split]].
  - unfold cacheGet.
    destruct (cache !! key) as [e|] eqn:He.
    + destruct (Z_lt_le_dec (expires e) now) as [Hexp|Hexp].
      * assert (sweep now cache !! key = None) as ->.
        { destruct (sweep now cache !! key) as [e'|] eqn:E; [|done].
          apply CacheProperties.sweep_lookup in E as [E ?]. simplify_eq. lia. }
        by rewrite (proj2 (Z.ltb_ge now' (expires e))) by lia.
      * by rewrite (proj2 (CacheProperties.sweep_lookup cache now key e) (conj He Hexp)).
    + destruct (sweep now cache !! key) as [e'|] eqn:E; [|done].
      apply CacheProperties.sweep_lookup in E as [E ?]. congruence.
  - unfold sweep. apply map_size_filter.
  - intros k e Hk. by apply CacheProperties.sweep_lookup in Hk as [_ ?].
  - apply map_eq. intros k.
    destruct (sweep now cache !! k) as [e|] eqn:E.
    + apply CacheProperties.sweep_lookup. split; [done|].
      by apply CacheProperties.sweep_lookup in E as [_ ?].
    + destruct (sweep now (sweep now cache) !! k) as [e'|] eqn:E'; [|done].
      apply CacheProperties.sweep_lookup in E' as [E' _]. congruence.
Qed.

End WithToLower.
End CacheKeyProperties.

(** * Further examples *)

Module MoreExamples.
Import Fixture Samples.


Lemma progressBar_cells_witness :
  (0 <= 14 /\ 3 * 14 <= MaxInt64 /\ MinInt64 <= 60 * 14 <= MaxInt64)
  /\ (Z.min (Z.quot (60 * 14) 100) 14 < 0 <-> 60 * 14 <= -100).
Proof.
  split; [by vm_compute|].
  apply (CliProperties.progressBar_cells 60 14 ""); by vm_compute.
Defined.

Lemma consBarW_range_witness :
  ((10 < 12)%Q /\ (10 <= 11)%Q /\ (11 <= 12)%Q)
  /\ (Web.consBarW 11 10 12 == (11 - 10) / (12 - 10) * 80 + 10)%Q.
Proof.
  split; [by vm_compute|].
  apply (consBarW_range 11 10 12); by vm_compute.
Defined.


Lemma consensus_single_model_witness :
  (filter available [oneReading] = [oneReading]
   /\ finite64 (ModelReading.Temp oneReading)
   /\ MinInt64 <= ModelReading.Humidity oneReading <= MaxInt64)
  /\ ConsensusInfo.AgreePct (consensusStats [oneReading]) = 100.
Proof.
  split; [by vm_compute|].
  apply (consensus_single_model [oneReading] oneReading); by vm_compute.
Defined.

Lemma consensus_agreement_bands_witness :
  0 < ConsensusInfo.AvailCount (consensusStats threeReadings)
  /\ ((ConsensusInfo.Agreement (consensusStats threeReadings) = "High"
       /\ Web.agreeColor (ConsensusInfo.AgreePct (consensusStats threeReadings))
          = "#22c55e"
       /\ (ConsensusInfo.Spread (consensusStats threeReadings) < 7 # 4)%Q)
      \/ (ConsensusInfo.Agreement (consensusStats threeReadings) = "Moderate"
          /\ Web.agreeColor (ConsensusInfo.AgreePct (consensusStats threeReadings))
             = "#f59e0b"
          /\ (7 # 4 <= ConsensusInfo.Spread (consensusStats threeReadings))%Q
          /\ (ConsensusInfo.Spread (consensusStats threeReadings) < 17 # 4)%Q)
      \/ (ConsensusInfo.Agreement (consensusStats threeReadings) = "Low"
          /\ Web.agreeColor (ConsensusInfo.AgreePct (consensusStats threeReadings))
             = "#ef4444"
          /\ (17 # 4 <= ConsensusInfo.Spread (consensusStats threeReadings))%Q
          /\ (ConsensusInfo.AgreePct (consensusStats threeReadings) = 0
              <-> (25 # 3 <= ConsensusInfo.Spread (consensusStats threeReadings))%Q))).
Proof.
  split; [by vm_compute|].
  apply (consensus_agreement_bands threeReadings). by vm_compute.
Defined.

Lemma parisReport_eq : @GetWeather online primary "Paris" "metric" = Ret parisReport.
Proof. vm_compute. reflexivity. Qed.

Lemma Alerts_thresholds_by_units_witness :
  @GetWeather online primary "Paris" "metric" = Ret parisReport
  /\ ((exists a, a ∈ Alerts parisReport /\ Alert.Title a = "HIGH HUMIDITY")
      <-> 85 <= CurrentDisplay.Humidity (WeatherInfo.Current parisReport)).
Proof.
  split; [exact parisReport_eq|].
  apply (@Alerts_thresholds_by_units online primary "Paris" "metric" parisReport
           parisReport_eq).
Defined.

Lemma ReverseGeocode_name_witness :
  @ReverseGeocode online decodeReverse fixed6 (answering 0 (fun _ => "village"))
    (4577 # 100) (483 # 100) = Ret "Croix-Rousse"
  /\ ("Croix-Rousse" = "" -> exists rest', "Croix-Rousse, Lyon, France" = String ","%char rest').
Proof.
  split; [by vm_compute|].
  destruct (@ReverseGeocode_name online decodeReverse fixed6
              (answering 0 (fun _ => "village")) (4577 # 100) (483 # 100) "Croix-Rousse")
    as (body & result & _ & _ & _); [by vm_compute|].
  discriminate.
Defined.




Lemma handler_unknown_city_is_404_witness :
  ("GET" = "GET" \/ "GET" = "HEAD")
  /\ @Web.handler online lower trimmed (answering 0 (fun _ => "none"))
       [] 0 0 0 0 "GET" "Atlantis" "metric" ∅
     = Ret (Web.Page 404
              (Web.PageData.mk "Atlantis" "metric" None [] "" ""
                 "city 'Atlantis' not found"), ∅).
Proof.
  split; [by left|].
  apply (@WebProperties.handler_unknown_city_is_404 online lower trimmed
           (answering 0 (fun _ => "none")) [] 0 0 0 0 "GET" "Atlantis" "metric" ∅);
    [by left|by vm_compute..].
Defined.


Lemma cacheKey_separates_units_witness :
  ("metric" = "metric" \/ "metric" = "imperial")
  /\ (Cache.cacheKey lower "PARIS" "metric" = Cache.cacheKey lower "paris" "metric"
      -> lower "PARIS" = lower "paris" /\ "metric" = "metric").
Proof.
  split; [by left|]. intros H.
  apply (CacheKeyProperties.cacheKey_separates_units lower "PARIS" "metric" "paris"
           "metric"); [by left|by left|exact H].
Defined.

Lemma sweep_invisible_to_readers_witness :
  5 <= 7
  /\ Cache.cacheGet (Cache.sweep 5 (filled 3)) 7 (Cache.cacheKey lower "City1" "metric")
     = Cache.cacheGet (filled 3) 7 (Cache.cacheKey lower "City1" "metric").
Proof.
  split; [lia|].
  apply (CacheKeyProperties.sweep_invisible_to_readers (filled 3) 5 7). lia.
Defined.

End MoreExamples.
